(** * Nexus PhotoShop backend: the bounded local image store of [app.py]

    A shallow embedding of the Flask service in [src/app.py] and the
    properties of its image store: capacity precheck, oldest-first cleanup,
    filename safety check, storage summary and payload decoding.

    Conventions of the embedding.
    - A Python [str] is a [string]; characters above 127 stand for non-ASCII
      text.  [bytes] are [list byte].
    - Python [int]s are [Z]; [os.path.getmtime] values are kept as [Z] ticks
      (only their order is used by the code).
    - The upload folder is a flat directory of regular files, held as a list
      in [os.listdir] order.
    - Code that raises is written in a state-and-exception monad [M]; a
      [try]/[except Exception] block is [try_except]. *)

From Stdlib Require Import ZArith NArith List String Ascii Bool Lia.
From Stdlib Require Import Permutation Sorted DecimalString.
From Stdlib.Strings Require Import Byte.
Import ListNotations.

Local Open Scope string_scope.
Local Open Scope list_scope.

(** ** Python built-ins used by the service *)

Module Py.

(** [s.startswith(p)] *)
Definition startswith (s p : string) : bool := String.prefix p s.

(** [s.endswith(p)] for a one-character [p] *)
Fixpoint endswith_char (s : string) (c : ascii) : bool :=
  match s with
  | EmptyString => false
  | String a EmptyString => Ascii.eqb a c
  | String _ s' => endswith_char s' c
  end.

(** [sub in s] *)
Fixpoint str_in (sub s : string) : bool :=
  String.prefix sub s ||
  match s with
  | EmptyString => false
  | String _ s' => str_in sub s'
  end.

(** [s.split(sep)] for a one-character separator *)
Fixpoint split (sep : ascii) (s : string) : list string :=
  match s with
  | EmptyString => [EmptyString]
  | String c s' =>
      if Ascii.eqb c sep then EmptyString :: split sep s'
      else match split sep s' with
           | w :: ws => String c w :: ws
           | [] => [String c EmptyString]
           end
  end.

(** The cut of [s] at its last [sep]: [None] when [sep] does not occur. *)
Fixpoint rcut (sep : ascii) (s : string) : option (string * string) :=
  match s with
  | EmptyString => None
  | String c s' =>
      match rcut sep s' with
      | Some (a, b) => Some (String c a, b)
      | None => if Ascii.eqb c sep then Some (EmptyString, s') else None
      end
  end.

(** [s.rsplit(sep, 1)] for a one-character separator *)
Definition rsplit1 (sep : ascii) (s : string) : list string :=
  match rcut sep s with
  | Some (a, b) => [a; b]
  | None => [s]
  end.

Definition lower_char (c : ascii) : ascii :=
  let n := N_of_ascii c in
  if ((65 <=? n) && (n <=? 90))%N then ascii_of_N (n + 32) else c.

(** [s.lower()] on ASCII text *)
Fixpoint lower (s : string) : string :=
  match s with
  | EmptyString => EmptyString
  | String c s' => String (lower_char c) (lower s')
  end.

(** [x in set_of_strings] *)
Definition mem (x : string) (l : list string) : bool :=
  existsb (String.eqb x) l.

(** [str(n)] for an [int] *)
Definition str_int (n : Z) : string := NilZero.string_of_int (Z.to_int n).

(** [s[:n]] *)
Definition take (n : nat) (s : string) : string := String.substring 0 n s.

(** [os.path.join(a, b)] of [posixpath] *)
Definition os_path_join (a b : string) : string :=
  if startswith b "/" then b
  else if (String.eqb a "" || endswith_char a "/") then a ++ b
  else a ++ "/" ++ b.

End Py.

(** ** Exceptions *)

Inductive exn_class : Type :=
| BinasciiError
| ValueError
| TypeError
| IndexError
| UnidentifiedImageError
| FileNotFoundError
| PermissionError
| IsADirectoryError.

(** An exception object: its class and [str(e)]. *)
Record exn : Type := Exn { exn_cls : exn_class; exn_msg : string }.

Definition str (e : exn) : string := exn_msg e.

Inductive result (A : Type) : Type :=
| Ok (a : A)
| Raise (e : exn).
Arguments Ok {A} a.
Arguments Raise {A} e.

(** ** [base64.b64decode] and [base64.b64encode]

    [b64decode(s)] is called with [validate=False]: a [str] argument is first
    encoded as ASCII, then [binascii.a2b_base64] runs in its lenient mode,
    which skips every character outside the alphabet and stops at a complete
    padding. *)

Module Base64.

Definition byte_of_N (n : N) : byte :=
  match Byte.of_N (n mod 256) with
  | Some b => b
  | None => x00
  end.

(** [table_a2b_base64]: the sextet of an alphabet character *)
Definition a2b_value (c : ascii) : option N :=
  let n := N_of_ascii c in
  if ((65 <=? n) && (n <=? 90))%N then Some (n - 65)%N
  else if ((97 <=? n) && (n <=? 122))%N then Some (n - 71)%N
  else if ((48 <=? n) && (n <=? 57))%N then Some (n + 4)%N
  else if (n =? 43)%N then Some 62%N
  else if (n =? 47)%N then Some 63%N
  else None.

Definition BASE64_PAD : ascii := "="%char.

Definition err_one_extra (written : nat) : exn :=
  Exn BinasciiError
    ("Invalid base64-encoded string: number of data characters ("
     ++ Py.str_int (Z.of_nat (written / 3 * 4 + 1))
     ++ ") cannot be 1 more than a multiple of 4").

Definition err_padding : exn := Exn BinasciiError "Incorrect padding".

(** The decoding loop of [binascii.a2b_base64]: [quad_pos] is the position
    in the current group of four, [leftchar] the bits carried over, [pads]
    the padding characters seen since the last data character, [out] the
    bytes written so far. *)
Fixpoint a2b_loop (s : string) (quad_pos : nat) (leftchar : N) (pads : nat)
    (out : list byte) : result (list byte) :=
  match s with
  | EmptyString =>
      match quad_pos with
      | O => Ok out
      | S O => Raise (err_one_extra (List.length out))
      | _ => Raise err_padding
      end
  | String c s' =>
      if Ascii.eqb c BASE64_PAD then
        if (2 <=? quad_pos)%nat then
          if (4 <=? quad_pos + S pads)%nat then Ok out
          else a2b_loop s' quad_pos leftchar (S pads) out
        else a2b_loop s' quad_pos leftchar pads out
      else
        match a2b_value c with
        | None => a2b_loop s' quad_pos leftchar pads out
        | Some this_ch =>
            match quad_pos with
            | 0%nat => a2b_loop s' 1%nat this_ch 0%nat out
            | 1%nat =>
                a2b_loop s' 2%nat (N.land this_ch 15) 0%nat
                  (out ++ [byte_of_N (N.lor (N.shiftl leftchar 2)
                                            (N.shiftr this_ch 4))])
            | 2%nat =>
                a2b_loop s' 3%nat (N.land this_ch 3) 0%nat
                  (out ++ [byte_of_N (N.lor (N.shiftl leftchar 4)
                                            (N.shiftr this_ch 2))])
            | _ =>
                a2b_loop s' 0%nat 0%N 0%nat
                  (out ++ [byte_of_N (N.lor (N.shiftl leftchar 6) this_ch)])
            end
        end
  end.

Definition a2b_base64 (s : string) : result (list byte) :=
  a2b_loop s 0%nat 0%N 0%nat [].

Definition is_ascii (s : string) : bool :=
  forallb (fun c => (N_of_ascii c <? 128)%N) (list_ascii_of_string s).

(** [base64.b64decode(s)] on a [str] *)
Definition b64decode (s : string) : result (list byte) :=
  if is_ascii s then a2b_base64 s
  else Raise (Exn ValueError
                "string argument should contain only ASCII characters").

(** [table_b2a_base64] *)
Definition b2a_char (v : N) : ascii :=
  if (v <? 26)%N then ascii_of_N (v + 65)
  else if (v <? 52)%N then ascii_of_N (v + 71)
  else if (v <? 62)%N then ascii_of_N (v - 4)
  else if (v =? 62)%N then "+"%char
  else "/"%char.

(** [base64.b64encode(bs).decode('utf-8')] *)
Fixpoint b64encode (bs : list byte) : string :=
  match bs with
  | [] => EmptyString
  | [a] =>
      let a := Byte.to_N a in
      String (b2a_char (N.shiftr a 2))
        (String (b2a_char (N.shiftl (N.land a 3) 4)) "==")
  | [a; b] =>
      let a := Byte.to_N a in
      let b := Byte.to_N b in
      String (b2a_char (N.shiftr a 2))
        (String (b2a_char (N.lor (N.shiftl (N.land a 3) 4) (N.shiftr b 4)))
           (String (b2a_char (N.shiftl (N.land b 15) 2)) "="))
  | a :: b :: c :: rest =>
      let a := Byte.to_N a in
      let b := Byte.to_N b in
      let c := Byte.to_N c in
      String (b2a_char (N.shiftr a 2))
        (String (b2a_char (N.lor (N.shiftl (N.land a 3) 4) (N.shiftr b 4)))
           (String (b2a_char (N.lor (N.shiftl (N.land b 15) 2) (N.shiftr c 6)))
              (String (b2a_char (N.land c 63)) (b64encode rest))))
  end.

End Base64.

(** ** The upload folder and the effects of the service *)

(** A regular file of the upload folder.  [locked] marks a file the operating
    system refuses to remove or overwrite (held by another process, immutable
    or protected). *)
Record file : Type := File {
  name : string;
  content : list byte;
  mtime : Z;
  locked : bool
}.

Definition size (f : file) : Z := Z.of_nat (List.length (content f)).

(** File-system calls, kept in a trace with the path they were given. *)
Inductive syscall : Type :=
| SysListdir (path : string)
| SysStat (path : string)
| SysUnlink (path : string)
| SysRead (path : string)
| SysWrite (path : string).

Inductive level : Type := INFO | ERROR.

(** The state the service runs against: the upload folder in [os.listdir]
    order, the records of [logger], and the trace of file-system calls. *)
Record world : Type := World {
  dir : list file;
  logs : list (level * string);
  trace : list syscall
}.

(** What a path names, seen from the upload folder. *)
Inductive target : Type :=
| TDir
| TEntry (n : string)
| TMissing
| TOutside.

(** State and exceptions. *)
Definition M (A : Type) : Type := world -> result A * world.

Definition ret {A : Type} (a : A) : M A := fun w => (Ok a, w).

Definition raise {A : Type} (e : exn) : M A := fun w => (Raise e, w).

Definition bind {A B : Type} (m : M A) (k : A -> M B) : M B :=
  fun w =>
    match m w with
    | (Ok a, w') => k a w'
    | (Raise e, w') => (Raise e, w')
    end.

(** [try: m  except Exception as e: h e] *)
Definition try_except {A : Type} (m : M A) (h : exn -> M A) : M A :=
  fun w =>
    match m w with
    | (Ok a, w') => (Ok a, w')
    | (Raise e, w') => h e w'
    end.

Definition lift {A : Type} (r : result A) : M A := fun w => (r, w).

Notation "x <- m ;; k" := (bind m (fun x => k))
  (at level 61, m at next level, right associativity).
Notation "m ;;; k" := (bind m (fun _ => k))
  (at level 61, right associativity).

(** [for x in l: body], with the loop-carried variables as accumulator *)
Fixpoint for_acc {A S : Type} (l : list A) (body : S -> A -> M S) (acc : S)
  : M S :=
  match l with
  | [] => ret acc
  | x :: l' => acc' <- body acc x ;; for_acc l' body acc'
  end.

(** [for x in l: body] *)
Fixpoint for_each {A : Type} (l : list A) (body : A -> M unit) : M unit :=
  match l with
  | [] => ret tt
  | x :: l' => body x ;;; for_each l' body
  end.

(** [list.sort] with a comparison [leb] on the keys: stable. *)
Fixpoint sort_insert {A : Type} (leb : A -> A -> bool) (x : A) (l : list A)
  : list A :=
  match l with
  | [] => [x]
  | y :: l' => if leb x y then x :: y :: l' else y :: sort_insert leb x l'
  end.

Fixpoint stable_sort {A : Type} (leb : A -> A -> bool) (l : list A) : list A :=
  match l with
  | [] => []
  | x :: l' => sort_insert leb x (stable_sort leb l')
  end.

(** [l.sort(key=key)] with integer keys *)
Definition sort_by_key {A : Type} (key : A -> Z) (l : list A) : list A :=
  stable_sort (fun x y => (key x <=? key y)%Z) l.

(** [l.sort(key=key, reverse=True)] with string keys *)
Definition sort_by_str_reverse {A : Type} (key : A -> string) (l : list A)
  : list A :=
  stable_sort (fun x y => String.leb (key y) (key x)) l.

Definition logger_info (msg : string) : M unit :=
  fun w => (Ok tt, World (dir w) (logs w ++ [(INFO, msg)]) (trace w)).

Definition logger_error (msg : string) : M unit :=
  fun w => (Ok tt, World (dir w) (logs w ++ [(ERROR, msg)]) (trace w)).

Definition syscall_ (c : syscall) : M unit :=
  fun w => (Ok tt, World (dir w) (logs w) (trace w ++ [c])).

Definition get_dir : M (list file) := fun w => (Ok (dir w), w).

Definition put_dir (d : list file) : M unit :=
  fun w => (Ok tt, World d (logs w) (trace w)).

Module Os.

(** The components of a path, without empty and [.] components. *)
Definition components (p : string) : list string :=
  filter (fun c => negb (String.eqb c "" || String.eqb c "."))
         (Py.split "/" p).

Fixpoint strip (pre l : list string) : option (list string) :=
  match pre, l with
  | [], _ => Some l
  | a :: pre', b :: l' => if String.eqb a b then strip pre' l' else None
  | _ :: _, [] => None
  end.

(** Where [path] leads, for the upload folder [folder].  The folder has no
    subdirectories; a path with a parent-directory component may leave it. *)
Definition resolve (folder path : string) : target :=
  if Bool.eqb (Py.startswith path "/") (Py.startswith folder "/") then
    match strip (components folder) (components path) with
    | Some [] => TDir
    | Some [n] => if String.eqb n ".." then TOutside else TEntry n
    | Some rest => if Py.mem ".." rest then TOutside else TMissing
    | None => TOutside
    end
  else TOutside.

Fixpoint find_file (n : string) (d : list file) : option file :=
  match d with
  | [] => None
  | f :: d' => if String.eqb (name f) n then Some f else find_file n d'
  end.

Definition remove_file (n : string) (d : list file) : list file :=
  filter (fun f => negb (String.eqb (name f) n)) d.

(** Replace the file named [name f] in place, or add [f] as a new entry
    (listed last; the claims do not depend on where). *)
Fixpoint write_file (f : file) (d : list file) : list file :=
  match d with
  | [] => [f]
  | g :: d' => if String.eqb (name g) (name f) then f :: d'
               else g :: write_file f d'
  end.

Definition no_such_file (path : string) : exn :=
  Exn FileNotFoundError
      ("[Errno 2] No such file or directory: '" ++ path ++ "'").

Definition permission_denied (path : string) : exn :=
  Exn PermissionError ("[Errno 13] Permission denied: '" ++ path ++ "'").

Definition is_a_directory (path : string) : exn :=
  Exn IsADirectoryError ("[Errno 21] Is a directory: '" ++ path ++ "'").

Section Folder.

Variable folder : string.

(** [os.listdir(folder)] *)
Definition listdir : M (list string) :=
  syscall_ (SysListdir folder) ;;;
  d <- get_dir ;;
  ret (map name d).

(** The [os.stat] behind [getsize], [getmtime] and [exists]; the folder
    itself is reported with size and time 0. *)
Definition stat (path : string) : M (Z * Z) :=
  syscall_ (SysStat path) ;;;
  d <- get_dir ;;
  match resolve folder path with
  | TEntry n =>
      match find_file n d with
      | Some f => ret (size f, mtime f)
      | None => raise (no_such_file path)
      end
  | TDir => ret (0%Z, 0%Z)
  | _ => raise (no_such_file path)
  end.

(** [os.path.getsize(path)] *)
Definition path_getsize (path : string) : M Z :=
  st <- stat path ;; ret (fst st).

(** [os.path.getmtime(path)] *)
Definition path_getmtime (path : string) : M Z :=
  st <- stat path ;; ret (snd st).

(** [os.path.exists(path)] *)
Definition path_exists (path : string) : M bool :=
  try_except (stat path ;;; ret true) (fun _ => ret false).

(** [os.remove(path)] *)
Definition remove (path : string) : M unit :=
  syscall_ (SysUnlink path) ;;;
  d <- get_dir ;;
  match resolve folder path with
  | TEntry n =>
      match find_file n d with
      | Some f => if locked f then raise (permission_denied path)
                  else put_dir (remove_file n d)
      | None => raise (no_such_file path)
      end
  | TDir => raise (is_a_directory path)
  | _ => raise (no_such_file path)
  end.

(** Reading a whole file, as [send_file] does. *)
Definition read (path : string) : M (list byte) :=
  syscall_ (SysRead path) ;;;
  d <- get_dir ;;
  match resolve folder path with
  | TEntry n =>
      match find_file n d with
      | Some f => ret (content f)
      | None => raise (no_such_file path)
      end
  | TDir => raise (is_a_directory path)
  | _ => raise (no_such_file path)
  end.

(** Creating or overwriting a file with [bs] at time [now]. *)
Definition write (path : string) (bs : list byte) (now : Z) : M unit :=
  syscall_ (SysWrite path) ;;;
  d <- get_dir ;;
  match resolve folder path with
  | TEntry n =>
      match find_file n d with
      | Some f => if locked f then raise (permission_denied path)
                  else put_dir (write_file (File n bs now false) d)
      | None => put_dir (write_file (File n bs now false) d)
      end
  | TDir => raise (is_a_directory path)
  | _ => raise (no_such_file path)
  end.

End Folder.

(** [os.path.basename(path)] *)
Definition path_basename (path : string) : string :=
  match Py.rcut "/" path with
  | Some (_, b) => b
  | None => path
  end.

End Os.

(** ** The image library (PIL), as far as the service uses it *)

Class PIL : Type := {
  Image : Type;
  (** [Image.open(BytesIO(bs))] and the loading of the pixel data it
      leads to; [None] when the bytes are not an image the library reads
      (it raises before any file is opened for writing) *)
  Image_open : list byte -> option Image;
  (** [image.mode] *)
  Image_mode : Image -> string;
  (** [image.convert('RGB')] *)
  Image_convert_RGB : Image -> Image;
  (** the bytes that [image.save(filepath, 'PNG', optimize=True)] writes *)
  Image_png : Image -> list byte
}.

Definition cannot_identify : exn :=
  Exn UnidentifiedImageError "cannot identify image file".

(** ** Configuration, requests and responses *)

(** [app.config] *)
Record config : Type := Config {
  UPLOAD_FOLDER : string;
  ALLOWED_EXTENSIONS : list string;
  MAX_IMAGES : Z
}.

(** The configuration [app.py] installs at start-up. *)
Definition app_config : config :=
  {| UPLOAD_FOLDER := "uploads";
     ALLOWED_EXTENSIONS := ["png"; "jpg"; "jpeg"; "gif"; "bmp"];
     MAX_IMAGES := 100 |}.

(** The value under ['imageData'] of a JSON body. *)
Inductive json_value : Type :=
| JString (s : string)
| JNotString.

(** The uploaded form file ['image']: [file.filename] and [file.read()]. *)
Record upload : Type := Upload {
  upload_filename : string;
  upload_data : list byte
}.

(** What [save_image] reads of a request: [request.json['imageData']] when
    the body is a JSON object with that key, [request.files['image']] when
    the form has that file. *)
Record request : Type := Request {
  json_imageData : option json_value;
  files_image : option upload
}.

(** What [save_image] reads of its surroundings: the rendering of
    [datetime.now().strftime('%Y%m%d_%H%M%S')], [str(uuid.uuid4())], and the
    time stamp a file written now receives. *)
Record env : Type := Env {
  now_strftime : string;
  uuid4_str : string;
  clock : Z
}.

(** The dictionary [get_storage_info] returns (without [total_size_mb], a
    float rounding of [total_size_bytes]). *)
Record StorageInfo : Type := {
  total_images : Z;
  total_size_bytes : Z;
  max_images : Z;
  remaining_slots : Z
}.

(** The dictionary [save_image_locally] returns. *)
Inductive save_result : Type :=
| Saved (filename url filepath : string) (size_ : Z) (message : string)
| NotSaved (error : string).

Definition success (r : save_result) : bool :=
  match r with
  | Saved _ _ _ _ _ => true
  | NotSaved _ => false
  end.

(** An entry of the list [list_images] returns (without [size_mb]). *)
Record image_entry : Type := {
  entry_filename : string;
  entry_size_bytes : Z;
  entry_modified : string;
  entry_url : string
}.

(** JSON bodies and file bodies of the responses. *)
Inductive body : Type :=
| BSave (r : save_result)
| BError (error : string)
| BMessage (message : string)
| BFile (bs : list byte)
| BImages (images : list image_entry) (count : Z)
| BStorage (info : StorageInfo)
| BCleanup (message : string) (info : StorageInfo).

Definition response : Type := (body * Z)%type.

(** ** The service *)

Section App.

Context {pil : PIL}.
Variable cfg : config.
(** [datetime.fromtimestamp(t).isoformat()] *)
Variable isoformat : Z -> string.

(** [allowed_file(filename)]; the index [[1]] exists whenever the guard
    ['.' in filename] holds. *)
Definition allowed_file (filename : string) : bool :=
  Py.str_in "." filename &&
  match nth_error (Py.rsplit1 "." filename) 1 with
  | Some ext => Py.mem (Py.lower ext) (ALLOWED_EXTENSIONS cfg)
  | None => false
  end.

(** Lines 36-41 of [cleanup_old_images]: the list [images]. *)
Definition cleanup_scan : M (list (string * Z)) :=
  names <- Os.listdir (UPLOAD_FOLDER cfg) ;;
  for_acc names
    (fun images filename =>
       if allowed_file filename then
         let filepath := Py.os_path_join (UPLOAD_FOLDER cfg) filename in
         modified_time <- Os.path_getmtime (UPLOAD_FOLDER cfg) filepath ;;
         ret (images ++ [(filepath, modified_time)])
       else ret images)
    [].

(** Lines 49-51 of [cleanup_old_images]: the removal loop over
    [range(images_to_remove)]. *)
Definition cleanup_remove (images : list (string * Z)) (images_to_remove : Z)
  : M unit :=
  for_each (seq 0 (Z.to_nat images_to_remove))
    (fun i =>
       match nth_error images i with
       | Some image =>
           Os.remove (UPLOAD_FOLDER cfg) (fst image) ;;;
           logger_info ("Removed old image: " ++ Os.path_basename (fst image))
       | None => raise (Exn IndexError "list index out of range")
       end).

(** [cleanup_old_images()] *)
Definition cleanup_old_images : M unit :=
  try_except
    (images <- cleanup_scan ;;
     let images := sort_by_key snd images in
     if (Z.of_nat (List.length images) >? MAX_IMAGES cfg)%Z then
       let images_to_remove :=
         (Z.of_nat (List.length images) - MAX_IMAGES cfg)%Z in
       cleanup_remove images images_to_remove
     else ret tt)
    (fun e => logger_error ("Error during cleanup: " ++ str e)).

(** Lines 61-64 of [save_image_locally]: the data-URL prefix. *)
Definition strip_data_url (image_data : json_value) : result json_value :=
  match image_data with
  | JString s =>
      if Py.startswith s "data:image" then
        match nth_error (Py.split "," s) 1 with
        | Some payload => Ok (JString payload)
        | None => Raise (Exn IndexError "list index out of range")
        end
      else Ok image_data
  | JNotString => Ok image_data
  end.

(** [base64.b64decode(image_data)] on a JSON value *)
Definition b64decode_value (image_data : json_value) : result (list byte) :=
  match image_data with
  | JString s => Base64.b64decode s
  | JNotString =>
      Raise (Exn TypeError
               "argument should be a bytes-like object or ASCII string")
  end.

(** Lines 61-67 of [save_image_locally]: the value of [image_bytes]. *)
Definition decode_image_data (image_data : json_value) : result (list byte) :=
  match strip_data_url image_data with
  | Ok image_data => b64decode_value image_data
  | Raise e => Raise e
  end.

(** Lines 59-77 of [save_image_locally]: decoding, validation and the write
    of the PNG file; returns [filepath]. *)
Definition save_image_write (now : Z) (image_data : json_value)
    (filename : string) : M string :=
  let filepath := Py.os_path_join (UPLOAD_FOLDER cfg) filename in
  image_bytes <- lift (decode_image_data image_data) ;;
  match Image_open image_bytes with
  | None => raise cannot_identify
  | Some image =>
      let image :=
        if Py.mem (Image_mode image) ["RGBA"; "P"]
        then Image_convert_RGB image else image in
      Os.write (UPLOAD_FOLDER cfg) filepath (Image_png image) now ;;;
      ret filepath
  end.

(** [save_image_locally(image_data, filename)] *)
Definition save_image_locally (now : Z) (image_data : json_value)
    (filename : string) : M save_result :=
  try_except
    (filepath <- save_image_write now image_data filename ;;
     cleanup_old_images ;;;
     let image_url := ("/image/" ++ filename)%string in
     size_ <- Os.path_getsize (UPLOAD_FOLDER cfg) filepath ;;
     ret (Saved filename image_url filepath size_
                "Image saved successfully!"))
    (fun e =>
       logger_error ("Error saving image: " ++ str e) ;;;
       ret (NotSaved ("Failed to save image: " ++ str e))).

(** [get_storage_info()] *)
Definition get_storage_info : M StorageInfo :=
  names <- Os.listdir (UPLOAD_FOLDER cfg) ;;
  acc <- for_acc names
    (fun acc filename =>
       let '(total_size, image_count) := acc in
       if allowed_file filename then
         let filepath := Py.os_path_join (UPLOAD_FOLDER cfg) filename in
         sz <- Os.path_getsize (UPLOAD_FOLDER cfg) filepath ;;
         ret ((total_size + sz)%Z, (image_count + 1)%Z)
       else ret acc)
    (0%Z, 0%Z) ;;
  let '(total_size, image_count) := acc in
  ret {| total_images := image_count;
         total_size_bytes := total_size;
         max_images := MAX_IMAGES cfg;
         remaining_slots := Z.max 0 (MAX_IMAGES cfg - image_count) |}.

(** Lines 150-153 of [save_image]: the generated file name. *)
Definition generate_filename (ev : env) : string :=
  let file_extension := "png" in
  let timestamp := now_strftime ev in
  let unique_id := Py.take 8 (uuid4_str ev) in
  "nexus_edit_" ++ timestamp ++ "_" ++ unique_id ++ "." ++ file_extension.

(** [save_image()], the handler of [POST /save] *)
Definition save_image (ev : env) (req : request) : M response :=
  try_except
    (storage_info <- get_storage_info ;;
     if (total_images storage_info >=? MAX_IMAGES cfg)%Z then
       ret (BError ("Storage limit reached. Maximum "
                    ++ Py.str_int (MAX_IMAGES cfg) ++ " images allowed."),
            400%Z)
     else
       let filename := generate_filename ev in
       match json_imageData req with
       | Some image_data =>
           result <- save_image_locally (clock ev) image_data filename ;;
           if success result then ret (BSave result, 201%Z)
           else ret (BSave result, 400%Z)
       | None =>
           match files_image req with
           | Some file =>
               if allowed_file (upload_filename file) then
                 let image_data := upload_data file in
                 let image_base64 := Base64.b64encode image_data in
                 result <- save_image_locally (clock ev)
                             (JString image_base64) filename ;;
                 if success result then ret (BSave result, 201%Z)
                 else ret (BSave result, 400%Z)
               else
                 ret (BError
                   "Invalid file type. Allowed types: png, jpg, jpeg, gif, bmp",
                   400%Z)
           | None =>
               ret (BError
                 "No image data provided. Send as base64 in JSON or as file upload",
                 400%Z)
           end
       end)
    (fun e =>
       logger_error ("Error in save_image: " ++ str e) ;;;
       ret (BError ("Internal server error: " ++ str e), 500%Z)).

(** [list_images()], the handler of [GET /images] *)
Definition list_images : M response :=
  try_except
    (names <- Os.listdir (UPLOAD_FOLDER cfg) ;;
     images <- for_acc names
       (fun images filename =>
          if allowed_file filename then
            let filepath := Py.os_path_join (UPLOAD_FOLDER cfg) filename in
            file_size <- Os.path_getsize (UPLOAD_FOLDER cfg) filepath ;;
            modified_time <- Os.path_getmtime (UPLOAD_FOLDER cfg) filepath ;;
            ret (images ++
                 [{| entry_filename := filename;
                     entry_size_bytes := file_size;
                     entry_modified := isoformat modified_time;
                     entry_url := "/image/" ++ filename |}])
          else ret images)
       [] ;;
     let images := sort_by_str_reverse entry_modified images in
     ret (BImages images (Z.of_nat (List.length images)), 200%Z))
    (fun e =>
       logger_error ("Error listing images: " ++ str e) ;;;
       ret (BError ("Failed to list images: " ++ str e), 500%Z)).

(** The security check of [get_image] and [delete_image]. *)
Definition unsafe_filename (filename : string) : bool :=
  Py.str_in ".." filename || Py.startswith filename "/".

(** [get_image(filename)], the handler of [GET /image/<filename>] *)
Definition get_image (filename : string) : M response :=
  try_except
    (if unsafe_filename filename then
       ret (BError "Invalid filename", 400%Z)
     else
       let filepath := Py.os_path_join (UPLOAD_FOLDER cfg) filename in
       found <- Os.path_exists (UPLOAD_FOLDER cfg) filepath ;;
       if negb found then ret (BError "Image not found", 404%Z)
       else
         bs <- Os.read (UPLOAD_FOLDER cfg) filepath ;;
         ret (BFile bs, 200%Z))
    (fun e =>
       logger_error ("Error retrieving image: " ++ str e) ;;;
       ret (BError ("Failed to retrieve image: " ++ str e), 500%Z)).

(** [delete_image(filename)], the handler of [DELETE /image/<filename>] *)
Definition delete_image (filename : string) : M response :=
  try_except
    (if unsafe_filename filename then
       ret (BError "Invalid filename", 400%Z)
     else
       let filepath := Py.os_path_join (UPLOAD_FOLDER cfg) filename in
       found <- Os.path_exists (UPLOAD_FOLDER cfg) filepath ;;
       if negb found then ret (BError "Image not found", 404%Z)
       else
         Os.remove (UPLOAD_FOLDER cfg) filepath ;;;
         ret (BMessage ("Image " ++ filename ++ " deleted successfully"),
              200%Z))
    (fun e =>
       logger_error ("Error deleting image: " ++ str e) ;;;
       ret (BError ("Failed to delete image: " ++ str e), 500%Z)).

(** [storage_info()], the handler of [GET /storage] *)
Definition storage_info : M response :=
  try_except
    (info <- get_storage_info ;;
     ret (BStorage info, 200%Z))
    (fun e =>
       logger_error ("Error getting storage info: " ++ str e) ;;;
       ret (BError ("Failed to get storage info: " ++ str e), 500%Z)).

(** [cleanup_images()], the handler of [POST /cleanup] *)
Definition cleanup_images : M response :=
  try_except
    (cleanup_old_images ;;;
     storage_info <- get_storage_info ;;
     ret (BCleanup "Cleanup completed" storage_info, 200%Z))
    (fun e =>
       logger_error ("Error during cleanup: " ++ str e) ;;;
       ret (BError ("Cleanup failed: " ++ str e), 500%Z)).

(** ** The store the service maintains, read off a directory listing *)

(** The stored images: the entries with an allowed extension. *)
Definition is_image (f : file) : bool := allowed_file (name f).

Definition images (d : list file) : list file := filter is_image d.

Definition image_count (d : list file) : Z := Z.of_nat (List.length (images d)).

Definition sum_sizes (l : list file) : Z :=
  fold_right (fun f acc => (size f + acc)%Z) 0%Z l.

Definition image_path (f : file) : string :=
  Py.os_path_join (UPLOAD_FOLDER cfg) (name f).

(** The usage summary of a directory. *)
Definition summary (d : list file) : StorageInfo :=
  {| total_images := image_count d;
     total_size_bytes := sum_sizes (images d);
     max_images := MAX_IMAGES cfg;
     remaining_slots := Z.max 0 (MAX_IMAGES cfg - image_count d) |}.

(** The images in the order [cleanup_old_images] sorts them. *)
Definition oldest_first (d : list file) : list file :=
  sort_by_key mtime (images d).

(** The images [cleanup_old_images] sets out to remove. *)
Definition candidates (d : list file) : list file :=
  if (image_count d >? MAX_IMAGES cfg)%Z
  then firstn (Z.to_nat (image_count d - MAX_IMAGES cfg)) (oldest_first d)
  else [].

(** The candidates before the first one that cannot be removed. *)
Fixpoint unlocked_prefix (l : list file) : list file :=
  match l with
  | [] => []
  | f :: l' => if locked f then [] else f :: unlocked_prefix l'
  end.

Fixpoint first_locked (l : list file) : option file :=
  match l with
  | [] => None
  | f :: l' => if locked f then Some f else first_locked l'
  end.

(** The images [cleanup_old_images] removes. *)
Definition evicted (d : list file) : list file :=
  unlocked_prefix (candidates d).

(** The exception that ends the removal loop early, if any: a candidate that
    cannot be removed, or an index past the end of [images] (negative
    limit). *)
Definition cleanup_failure (d : list file) : option exn :=
  match first_locked (candidates d) with
  | Some f => Some (Os.permission_denied (image_path f))
  | None =>
      if (MAX_IMAGES cfg <? 0)%Z
      then Some (Exn IndexError "list index out of range")
      else None
  end.

(** The file-system calls of one scan of the folder. *)
Definition scan_trace (d : list file) : list syscall :=
  SysListdir (UPLOAD_FOLDER cfg)
  :: map (fun f => SysStat (image_path f)) (images d).

Definition cleanup_trace (d : list file) : list syscall :=
  scan_trace d
  ++ map (fun f => SysUnlink (image_path f))
         (evicted d ++ match first_locked (candidates d) with
                       | Some f => [f]
                       | None => []
                       end).

Definition cleanup_logs (d : list file) : list (level * string) :=
  map (fun f => (INFO, ("Removed old image: " ++ name f)%string)) (evicted d)
  ++ match cleanup_failure d with
     | Some e => [(ERROR, ("Error during cleanup: " ++ str e)%string)]
     | None => []
     end.

(** The directory without the files named as [victims]. *)
Definition without (victims d : list file) : list file :=
  filter (fun f => negb (Py.mem (name f) (map name victims))) d.

(** The entry [list_images] builds for an image. *)
Definition entry_of (f : file) : image_entry :=
  {| entry_filename := name f;
     entry_size_bytes := size f;
     entry_modified := isoformat (mtime f);
     entry_url := ("/image/" ++ name f)%string |}.

(** The list [list_images] returns for a directory. *)
Definition listing (d : list file) : list image_entry :=
  sort_by_str_reverse entry_modified (map entry_of (images d)).

(** A run of save requests: each response with the state it leaves. *)
Fixpoint save_sequence (reqs : list (env * request)) (w : world)
  : list (result response * world) :=
  match reqs with
  | [] => []
  | (ev, req) :: rest =>
      let r := save_image ev req w in
      r :: save_sequence rest (snd r)
  end.

End App.

(** The state [w] after further file-system calls [t]. *)
Definition add_trace (w : world) (t : list syscall) : world :=
  World (dir w) (logs w) (trace w ++ t).

(** The state [w] after a further log record. *)
Definition add_log (w : world) (l : level) (msg : string) : world :=
  World (dir w) (logs w ++ [(l, msg)]) (trace w).

(** The path a file-system call was given. *)
Definition syscall_path (c : syscall) : string :=
  match c with
  | SysListdir p | SysStat p | SysUnlink p | SysRead p | SysWrite p => p
  end.

(** Names a directory entry can have. *)
Definition wf_name (n : string) : bool :=
  negb (String.eqb n "" || String.eqb n "." || String.eqb n ".."
        || Py.str_in "/" n).

Fixpoint distinct (l : list string) : bool :=
  match l with
  | [] => true
  | x :: l' => negb (Py.mem x l') && distinct l'
  end.

(** A directory: entry names are proper and pairwise different. *)
Definition wf_dir (d : list file) : bool :=
  forallb wf_name (map name d) && distinct (map name d).

(** [x] comes before [y] in [l]. *)
Definition precedes {A : Type} (x y : A) (l : list A) : Prop :=
  exists l1 l2 l3, l = l1 ++ x :: l2 ++ y :: l3.

(** The order the specification describes for eviction: modification time
    ascending, ties by file name ascending. *)
Definition spec_order (f g : file) : bool :=
  (mtime f <? mtime g)%Z
  || ((mtime f =? mtime g)%Z && String.leb (name f) (name g)).

(** The entries the specification's eviction removes from an inventory. *)
Definition spec_evict (inventory : list file) (limit : Z) : list file :=
  if (Z.of_nat (List.length inventory) >? limit)%Z
  then firstn (Z.to_nat (Z.of_nat (List.length inventory) - limit))
              (stable_sort spec_order inventory)
  else [].

(** A stand-in image library for running the model: every non-empty byte
    string is an image, saved as it is. *)
Definition raw_images : PIL :=
  {| Image := list byte;
     Image_open := fun bs => match bs with [] => None | _ => Some bs end;
     Image_mode := fun _ => "RGB";
     Image_convert_RGB := fun i => i;
     Image_png := fun i => i |}.

(** ** Sample states *)

Definition small_config (limit : Z) : config :=
  {| UPLOAD_FOLDER := "uploads";
     ALLOWED_EXTENSIONS := ["png"; "jpg"; "jpeg"; "gif"; "bmp"];
     MAX_IMAGES := limit |}.

(** Two images with the same modification time, listed [b.png] first, and a
    text file. *)
Definition sample_dir : list file :=
  [ File "b.png" [x00] 1 false;
    File "a.png" [x01; x02] 1 false;
    File "notes.txt" [x03] 0 false ].

Definition sample_world : world := World sample_dir [] [].

(** Three images, the oldest of which cannot be removed. *)
Definition locked_dir : list file :=
  [ File "a.png" [x00] 1 true;
    File "b.png" [x01] 2 false;
    File "c.png" [x02] 3 false ].

Definition locked_world : world := World locked_dir [] [].

Definition sample_env : env :=
  {| now_strftime := "20240101_000000";
     uuid4_str := "deadbeef-0000-4000-8000-000000000000";
     clock := 5 |}.

(** The base64 text of a genuine PNG file (67 bytes: one grey pixel). *)
Definition one_pixel_png_base64 : string :=
  "iVBORw0KGgoAAAANSUhEUgAAAAEAAAABCAAAAAA6fptVAAAACklEQVR42mNgAAAAAgAB5Sfe/AAAAABJRU5ErkJggg==".

(** The same text with a stray [!] after its fifth character: not base64. *)
Definition stray_payload : string :=
  "iVBOR!w0KGgoAAAANSUhEUgAAAAEAAAABCAAAAAA6fptVAAAACklEQVR42mNgAAAAAgAB5Sfe/AAAAABJRU5ErkJggg==".

(** ** The remaining handlers *)

(** The dictionary [home] returns. *)
Record home_body : Type := {
  home_message : string;
  home_version : string;
  home_storage : string;
  home_storage_info : StorageInfo;
  home_endpoints : list (string * string)
}.

(** The dictionary [health_check] returns. *)
Record health_body : Type := {
  health_status : string;
  health_timestamp : string;
  health_storage : string;
  health_storage_info : StorageInfo
}.

Section Reports.

Variable cfg : config.

(** [home()], the handler of [GET /]; it has no [try] block. *)
Definition home : M (home_body * Z) :=
  storage_info <- get_storage_info cfg ;;
  ret ({| home_message := "Nexus PhotoShop Backend API - FREE Version";
          home_version := "1.0.0";
          home_storage := "Local Storage";
          home_storage_info := storage_info;
          home_endpoints :=
            [ ("POST /save", "Save an image");
              ("GET /images", "List all saved images");
              ("GET /image/<filename>", "Get a specific image");
              ("DELETE /image/<filename>", "Delete an image");
              ("GET /storage", "Get storage information") ] |},
       200%Z).

(** [health_check()], the handler of [GET /health]; [now_iso] is
    [datetime.now().isoformat()].  It has no [try] block. *)
Definition health_check (now_iso : string) : M (health_body * Z) :=
  storage_info <- get_storage_info cfg ;;
  ret ({| health_status := "healthy";
          health_timestamp := now_iso;
          health_storage := "local";
          health_storage_info := storage_info |},
       200%Z).

End Reports.

(** ** Auxiliary notions *)

(** The PNG bytes a save writes for an image. *)
Definition stored_png {pil : PIL} (image : Image) : list byte :=
  Image_png (if Py.mem (Image_mode image) ["RGBA"; "P"]
             then Image_convert_RGB image else image).

(** A computation that leaves the upload folder as it finds it. *)
Definition keeps_dir {A : Type} (m : M A) : Prop :=
  forall w, dir (snd (m w)) = dir w.

(** The values of a byte, and of a base64 digit. *)
Definition all_bytes : list N := map N.of_nat (seq 0 256).

Definition all_sextets : list N := map N.of_nat (seq 0 64).

(** The order [list_images] sorts its entries in. *)
Definition newest_first (a b : image_entry) : Prop :=
  String.leb (entry_modified b) (entry_modified a) = true.

(** * Properties *)

(** ** Strings and paths *)

Section Strings.

Local Open Scope string_scope.

Lemma append_nil_r (s : string) : s ++ "" = s.
Proof. induction s; simpl; congruence. Qed.

Lemma append_assoc (a b c : string) : (a ++ b) ++ c = a ++ (b ++ c).
Proof. induction a; simpl; congruence. Qed.

Lemma prefix_iff (p s : string) :
  String.prefix p s = true <-> exists r, s = p ++ r.
Proof.
  revert s; induction p as [|c p IH]; intros s.
  - split; [intros _; now exists s | intros _; now destruct s].
  - destruct s as [|d s]; simpl.
    + split; [discriminate | intros [r H]; discriminate].
    + destruct (ascii_dec c d) as [->|Hne].
      * rewrite IH. split; intros [r H]; exists r; congruence.
      * split; [discriminate | intros [r H]; congruence].
Qed.

Lemma prefix_app (p r : string) : String.prefix p (p ++ r) = true.
Proof. apply prefix_iff; now exists r. Qed.

Lemma str_in_nil (sub : string) : Py.str_in sub "" = String.prefix sub "".
Proof. unfold Py.str_in. apply orb_false_r. Qed.

Lemma str_in_cons (sub : string) (c : ascii) (s : string) :
  Py.str_in sub (String c s) = String.prefix sub (String c s) || Py.str_in sub s.
Proof. reflexivity. Qed.

(** [sub in s] holds exactly when [s] contains [sub] as a substring. *)
Lemma str_in_iff (sub s : string) :
  Py.str_in sub s = true <-> exists a b, s = a ++ sub ++ b.
Proof.
  induction s as [|c s IH].
  - rewrite str_in_nil, prefix_iff. split.
    + intros [r H]. now exists "", r.
    + intros [a [b H]]. destruct a; [now exists b | discriminate].
  - rewrite str_in_cons, orb_true_iff, prefix_iff, IH. split.
    + intros [[r H]|[a [b H]]].
      * now exists "", r.
      * exists (String c a), b. simpl. congruence.
    + intros [a [b H]]. destruct a as [|c' a]; simpl in H.
      * left. now exists b.
      * right. exists a, b. congruence.
Qed.

Lemma str_in_char_cons (c d : ascii) (s : string) :
  Py.str_in (String c "") (String d s) =
  Ascii.eqb c d || Py.str_in (String c "") s.
Proof.
  rewrite str_in_cons. f_equal. cbn [String.prefix].
  destruct (ascii_dec c d) as [->|Hne].
  - rewrite Ascii.eqb_refl. now destruct s.
  - apply Ascii.eqb_neq in Hne. now rewrite Hne.
Qed.

Lemma split_nonempty (sep : ascii) (s : string) : Py.split sep s <> [].
Proof.
  induction s as [|c s IH]; simpl; [discriminate|].
  destruct (Ascii.eqb c sep); [discriminate|].
  destruct (Py.split sep s); [contradiction | discriminate].
Qed.

Lemma split_app (sep : ascii) (a b : string) :
  Py.split sep (a ++ String sep b) = (Py.split sep a ++ Py.split sep b)%list.
Proof.
  induction a as [|c a IH]; simpl.
  - now rewrite Ascii.eqb_refl.
  - destruct (Ascii.eqb c sep); [now rewrite IH|].
    rewrite IH. pose proof (split_nonempty sep a) as Hne.
    destruct (Py.split sep a); [contradiction | reflexivity].
Qed.

Lemma split_no_sep (sep : ascii) (s : string) :
  Py.str_in (String sep "") s = false -> Py.split sep s = [s].
Proof.
  induction s as [|c s IH]; [reflexivity|].
  rewrite str_in_char_cons, orb_false_iff. intros [Hc Hs].
  simpl. rewrite Ascii.eqb_sym, Hc, (IH Hs). reflexivity.
Qed.

(** No piece of a split contains the separator. *)
Lemma split_pieces (sep : ascii) (s : string) :
  Forall (fun c => Py.str_in (String sep "") c = false) (Py.split sep s).
Proof.
  induction s as [|c s IH]; simpl.
  - now constructor.
  - destruct (Ascii.eqb c sep) eqn:E.
    + now constructor.
    + destruct (Py.split sep s) as [|w ws].
      * constructor; [|constructor].
        now rewrite str_in_char_cons, Ascii.eqb_sym, E.
      * inversion IH; subst. constructor; [|assumption].
        rewrite str_in_char_cons, Ascii.eqb_sym, E. assumption.
Qed.

Lemma split_head (sep : ascii) (s w : string) (ws : list string) :
  Py.split sep s = w :: ws -> exists r, s = w ++ r.
Proof.
  revert w ws; induction s as [|c s IH]; simpl; intros w ws H.
  - injection H as <- <-. now exists "".
  - destruct (Ascii.eqb c sep).
    + injection H as <- <-. now exists (String c s).
    + destruct (Py.split sep s) as [|w' ws'] eqn:E.
      * injection H as <- <-. exists s. reflexivity.
      * injection H as <- <-. destruct (IH _ _ eq_refl) as [r ->].
        now exists r.
Qed.

(** Every piece of a split is a substring of the text. *)
Lemma split_pieces_in (sep : ascii) (s c : string) :
  In c (Py.split sep s) -> Py.str_in c s = true.
Proof.
  revert c; induction s as [|d s IH]; intros c Hc; simpl in Hc.
  - destruct Hc as [<-|[]]. reflexivity.
  - destruct (Ascii.eqb d sep) eqn:E.
    + destruct Hc as [<-|Hc]; [reflexivity|].
      apply IH, str_in_iff in Hc as [x [y ->]]. apply str_in_iff.
      now exists (String d x), y.
    + destruct (Py.split sep s) as [|w ws] eqn:Es.
      * destruct Hc as [<-|[]]. apply str_in_iff. now exists "", s.
      * destruct Hc as [<-|Hc].
        -- destruct (split_head _ _ _ _ Es) as [r ->].
           apply str_in_iff. now exists "", r.
        -- assert (Hin : In c (w :: ws)) by now right.
           apply IH, str_in_iff in Hin as [x [y ->]]. apply str_in_iff.
           now exists (String d x), y.
Qed.

End Strings.

(** ** The model at work *)

Example b64decode_ABC : Base64.b64decode "QUJD" = Ok [x41; x42; x43].
Proof. reflexivity. Qed.

Example b64decode_padded : Base64.b64decode "QUI=" = Ok [x41; x42].
Proof. reflexivity. Qed.

Example b64decode_skips_stray :
  Base64.b64decode "Q!U,JD" = Ok [x41; x42; x43].
Proof. reflexivity. Qed.

Example b64decode_only_stray : Base64.b64decode "!!!!" = Ok [].
Proof. reflexivity. Qed.

Example b64decode_stops_at_padding :
  Base64.b64decode "QUI=QUJD" = Ok [x41; x42].
Proof. reflexivity. Qed.

Example b64decode_short : Base64.b64decode "QUJ" = Raise Base64.err_padding.
Proof. reflexivity. Qed.

Example b64decode_one_extra :
  Base64.b64decode "QUJDR" =
  Raise (Exn BinasciiError
    "Invalid base64-encoded string: number of data characters (5) cannot be 1 more than a multiple of 4").
Proof. reflexivity. Qed.

Example b64encode_AB : Base64.b64encode [x41; x42] = "QUI=".
Proof. reflexivity. Qed.

Example split_data_url :
  Py.split "," "data:image/png;base64,QUJD" =
  ["data:image/png;base64"; "QUJD"].
Proof. reflexivity. Qed.

Example rsplit1_two_dots : Py.rsplit1 "." "a.b.PNG" = ["a.b"; "PNG"].
Proof. reflexivity. Qed.

Example allowed_file_upper : allowed_file app_config "photo.JPEG" = true.
Proof. reflexivity. Qed.

Example allowed_file_no_dot : allowed_file app_config "png" = false.
Proof. reflexivity. Qed.

Example join_uploads : Py.os_path_join "uploads" "a.png" = "uploads/a.png".
Proof. reflexivity. Qed.

Example resolve_dot_slash :
  Os.resolve "uploads" (Py.os_path_join "uploads" "./a.png") = TEntry "a.png".
Proof. reflexivity. Qed.

Example generated_name :
  generate_filename sample_env = "nexus_edit_20240101_000000_deadbeef.png".
Proof. reflexivity. Qed.

(** With a limit of 2 and two images stored, a third save is refused: the
    cleanup inside a save never has anything to remove. *)
Example third_save_refused :
  fst (@save_image raw_images (small_config 2) sample_env
         (Request (Some (JString one_pixel_png_base64)) None) sample_world) =
  Ok (BError "Storage limit reached. Maximum 2 images allowed.", 400%Z).
Proof. vm_compute. reflexivity. Qed.

Section Paths.

Local Open Scope string_scope.

Lemma prefix_empty (s : string) : String.prefix "" s = true.
Proof. now destruct s. Qed.

Lemma startswith_slash_cons (c : ascii) (s : string) :
  Py.startswith (String c s) "/" = Ascii.eqb "/" c.
Proof.
  unfold Py.startswith. cbn [String.prefix].
  destruct (ascii_dec "/" c) as [<-|Hne].
  - now rewrite prefix_empty, Ascii.eqb_refl.
  - apply Ascii.eqb_neq in Hne. now rewrite Hne.
Qed.

Lemma startswith_slash_app (a b : string) :
  a <> "" -> Py.startswith (a ++ b) "/" = Py.startswith a "/".
Proof.
  destruct a as [|c a]; [congruence|]. intros _. cbn [append].
  now rewrite !startswith_slash_cons.
Qed.

Lemma endswith_char_app (a : string) (c : ascii) :
  Py.endswith_char a c = true -> exists a', a = a' ++ String c "".
Proof.
  induction a as [|d a IH]; [discriminate|].
  destruct a as [|e a].
  - simpl. intros H. apply Ascii.eqb_eq in H as ->. now exists "".
  - intros H. destruct (IH H) as [a' Ha']. exists (String d a').
    simpl. now rewrite <- Ha'.
Qed.

Lemma components_app (a b : string) :
  Os.components (a ++ String "/" b) =
  (Os.components a ++ Os.components b)%list.
Proof. unfold Os.components. now rewrite split_app, filter_app. Qed.

Lemma components_empty : Os.components "" = [].
Proof. reflexivity. Qed.

(** [os.path.join] keeps the folder's components in front. *)
Lemma components_join (folder fn : string) :
  Py.startswith fn "/" = false ->
  Os.components (Py.os_path_join folder fn) =
  (Os.components folder ++ Os.components fn)%list.
Proof.
  intros Hfn. unfold Py.os_path_join. rewrite Hfn.
  destruct (String.eqb folder "") eqn:E; simpl.
  - apply String.eqb_eq in E as ->. reflexivity.
  - destruct (Py.endswith_char folder "/") eqn:E'.
    + apply endswith_char_app in E' as [a' ->].
      rewrite append_assoc. simpl.
      rewrite !components_app, components_empty, app_nil_r. reflexivity.
    + apply components_app.
Qed.

Lemma absolute_join (folder fn : string) :
  Py.startswith fn "/" = false ->
  Py.startswith (Py.os_path_join folder fn) "/" = Py.startswith folder "/".
Proof.
  intros Hfn. unfold Py.os_path_join. rewrite Hfn.
  destruct (String.eqb folder "") eqn:E; simpl.
  - apply String.eqb_eq in E as ->. simpl. rewrite Hfn. reflexivity.
  - apply String.eqb_neq in E.
    destruct (Py.endswith_char folder "/"); now apply startswith_slash_app.
Qed.

Lemma strip_app (pre rest : list string) :
  Os.strip pre (pre ++ rest)%list = Some rest.
Proof.
  induction pre as [|a pre IH]; simpl; [reflexivity|].
  now rewrite String.eqb_refl.
Qed.

(** Where the path of [fn] under the folder leads is decided by the
    components of [fn] alone. *)
Lemma resolve_join (folder fn : string) :
  Py.startswith fn "/" = false ->
  Os.resolve folder (Py.os_path_join folder fn) =
  match Os.components fn with
  | [] => TDir
  | [n] => if String.eqb n ".." then TOutside else TEntry n
  | rest => if Py.mem ".." rest then TOutside else TMissing
  end.
Proof.
  intros Hfn. unfold Os.resolve.
  rewrite (absolute_join _ _ Hfn), Bool.eqb_reflx.
  rewrite (components_join _ _ Hfn), strip_app.
  now destruct (Os.components fn) as [|n [|m rest]].
Qed.

Lemma wf_name_spec (n : string) :
  wf_name n = true ->
  n <> "" /\ n <> "." /\ n <> ".." /\ Py.str_in "/" n = false.
Proof.
  unfold wf_name. rewrite negb_true_iff, !orb_false_iff.
  intros [[[H1 H2] H3] H4]. repeat split; try assumption.
  all: now apply String.eqb_neq.
Qed.

Lemma wf_name_relative (n : string) :
  wf_name n = true -> Py.startswith n "/" = false.
Proof.
  intros H. apply wf_name_spec in H as (_ & _ & _ & H).
  destruct n as [|c n]; [reflexivity|].
  rewrite str_in_char_cons in H. apply orb_false_iff in H as [H _].
  now rewrite startswith_slash_cons.
Qed.

Lemma components_name (n : string) :
  wf_name n = true -> Os.components n = [n].
Proof.
  intros H. apply wf_name_spec in H as (H1 & H2 & H3 & H4).
  unfold Os.components. rewrite (split_no_sep _ _ H4). simpl.
  apply String.eqb_neq in H1, H2. now rewrite H1, H2.
Qed.

(** The path of a directory entry leads to that entry. *)
Lemma resolve_entry (folder n : string) :
  wf_name n = true ->
  Os.resolve folder (Py.os_path_join folder n) = TEntry n.
Proof.
  intros H. rewrite resolve_join by now apply wf_name_relative.
  rewrite (components_name _ H).
  apply wf_name_spec in H as (_ & _ & H & _).
  apply String.eqb_neq in H. now rewrite H.
Qed.

(** A name that passes the security check never leads out of the folder. *)
Lemma safe_filename_inside (folder fn : string) :
  Py.str_in ".." fn = false ->
  Py.startswith fn "/" = false ->
  Os.resolve folder (Py.os_path_join folder fn) <> TOutside.
Proof.
  intros Hdots Hrel. rewrite (resolve_join _ _ Hrel).
  assert (Hno : Py.mem ".." (Os.components fn) = false).
  { destruct (Py.mem ".." (Os.components fn)) eqn:E; [|reflexivity].
    unfold Py.mem in E. apply existsb_exists in E as [c [Hc Heq]].
    apply String.eqb_eq in Heq as <-.
    unfold Os.components in Hc. apply filter_In in Hc as [Hc _].
    apply split_pieces_in in Hc. congruence. }
  destruct (Os.components fn) as [|n [|m rest]]; [discriminate| |].
  - unfold Py.mem in Hno. cbn [existsb] in Hno.
    rewrite orb_false_r in Hno. rewrite String.eqb_sym, Hno. discriminate.
  - rewrite Hno. discriminate.
Qed.

End Paths.

(** ** The stable sort *)

Section Sorting.

Variable A : Type.
Variable leb : A -> A -> bool.
Hypothesis leb_total : forall x y, leb x y = false -> leb y x = true.
Hypothesis leb_trans :
  forall x y z, leb x y = true -> leb y z = true -> leb x z = true.

Let le (x y : A) : Prop := leb x y = true.

Lemma sort_insert_perm (x : A) (l : list A) :
  Permutation (sort_insert leb x l) (x :: l).
Proof.
  induction l as [|y l IH]; simpl; [reflexivity|].
  destruct (leb x y); [reflexivity|].
  rewrite IH. apply perm_swap.
Qed.

Lemma stable_sort_perm (l : list A) : Permutation (stable_sort leb l) l.
Proof.
  induction l as [|x l IH]; simpl; [reflexivity|].
  rewrite sort_insert_perm. now constructor.
Qed.

Lemma sort_insert_length (x : A) (l : list A) :
  List.length (sort_insert leb x l) = S (List.length l).
Proof. exact (Permutation_length (sort_insert_perm x l)). Qed.

Lemma stable_sort_length (l : list A) :
  List.length (stable_sort leb l) = List.length l.
Proof. exact (Permutation_length (stable_sort_perm l)). Qed.

Lemma sort_insert_sorted (x : A) (l : list A) :
  StronglySorted le l -> StronglySorted le (sort_insert leb x l).
Proof.
  induction 1 as [|y l Hs IH Hy]; simpl.
  - constructor; constructor.
  - destruct (leb x y) eqn:E.
    + constructor; [now constructor|]. constructor; [exact E|].
      eapply Forall_impl; [|exact Hy]. intros z Hz. exact (leb_trans _ _ _ E Hz).
    + constructor; [exact IH|].
      eapply Permutation_Forall; [symmetry; apply sort_insert_perm|].
      constructor; [now apply leb_total | exact Hy].
Qed.

Lemma stable_sort_sorted (l : list A) : StronglySorted le (stable_sort leb l).
Proof.
  induction l as [|x l IH]; simpl; [constructor|].
  now apply sort_insert_sorted.
Qed.

Lemma sort_insert_front (x : A) (l : list A) :
  Forall (le x) l -> sort_insert leb x l = x :: l.
Proof.
  destruct l as [|y l]; [reflexivity|]. intros H. inversion H; subst.
  simpl. unfold le in *. now rewrite H2.
Qed.

(** Filtering a sorted list commutes with inserting a kept element. *)
Lemma sort_insert_filter (p : A -> bool) (x : A) (l : list A) :
  StronglySorted le l -> p x = true ->
  filter p (sort_insert leb x l) = sort_insert leb x (filter p l).
Proof.
  intros Hs Hp. induction Hs as [|y l Hs IH Hy]; simpl.
  - now rewrite Hp.
  - destruct (leb x y) eqn:E.
    + simpl. rewrite Hp. destruct (p y) eqn:Ey.
      * simpl. now rewrite E.
      * rewrite sort_insert_front; [reflexivity|].
        apply Forall_forall. intros z Hz. apply filter_In in Hz as [Hz _].
        rewrite Forall_forall in Hy. exact (leb_trans _ _ _ E (Hy _ Hz)).
    + simpl. destruct (p y) eqn:Ey.
      * simpl. now rewrite E, IH.
      * exact IH.
Qed.

(** Sorting commutes with filtering: the sort is stable. *)
Lemma stable_sort_filter (p : A -> bool) (l : list A) :
  filter p (stable_sort leb l) = stable_sort leb (filter p l).
Proof.
  induction l as [|x l IH]; simpl; [reflexivity|].
  destruct (p x) eqn:E.
  - simpl. rewrite <- IH. apply sort_insert_filter; [|exact E].
    apply stable_sort_sorted.
  - rewrite <- IH. clear IH.
    generalize (stable_sort leb l) as s. intros s.
    induction s as [|y s IHs]; simpl; [now rewrite E|].
    destruct (leb x y); simpl; [now rewrite E|].
    now rewrite IHs.
Qed.

(** A list whose elements all compare as equal is left as it is. *)
Lemma stable_sort_flat (l : list A) :
  (forall x y, In x l -> In y l -> le x y) -> stable_sort leb l = l.
Proof.
  induction l as [|x l IH]; intros H; simpl; [reflexivity|].
  rewrite IH by (intros; apply H; now right).
  apply sort_insert_front, Forall_forall. intros y Hy.
  apply H; [now left | now right].
Qed.

End Sorting.

Lemma stable_sort_map {A B : Type} (g : A -> B) (leb : A -> A -> bool)
    (leb' : B -> B -> bool) (l : list A) :
  (forall x y, leb' (g x) (g y) = leb x y) ->
  stable_sort leb' (map g l) = map g (stable_sort leb l).
Proof.
  intros H. induction l as [|x l IH]; simpl; [reflexivity|].
  rewrite IH. generalize (stable_sort leb l) as s. intros s.
  induction s as [|y s IHs]; simpl; [reflexivity|].
  rewrite H. destruct (leb x y); simpl; [reflexivity|]. now rewrite IHs.
Qed.

Section SortByKey.

Variable A : Type.
Variable key : A -> Z.

Let kleb (x y : A) : bool := (key x <=? key y)%Z.

Lemma kleb_total (x y : A) : kleb x y = false -> kleb y x = true.
Proof. unfold kleb. intros H. apply Z.leb_gt in H. apply Z.leb_le. lia. Qed.

Lemma kleb_trans (x y z : A) :
  kleb x y = true -> kleb y z = true -> kleb x z = true.
Proof. unfold kleb. rewrite !Z.leb_le. lia. Qed.

Lemma sort_by_key_perm (l : list A) : Permutation (sort_by_key key l) l.
Proof. apply stable_sort_perm. Qed.

Lemma sort_by_key_length (l : list A) :
  List.length (sort_by_key key l) = List.length l.
Proof. apply stable_sort_length. Qed.

(** After [l.sort(key=key)] every element is followed by larger or equal
    keys only. *)
Lemma sort_by_key_sorted (l : list A) :
  StronglySorted (fun x y => (key x <= key y)%Z) (sort_by_key key l).
Proof.
  pose proof (stable_sort_sorted A kleb kleb_total kleb_trans l) as H.
  unfold sort_by_key. fold kleb.
  induction H as [|x s Hs IH Hx]; constructor; [exact IH|].
  eapply Forall_impl; [|exact Hx]. intros y Hy. now apply Z.leb_le.
Qed.

Lemma sort_by_key_filter (p : A -> bool) (l : list A) :
  filter p (sort_by_key key l) = sort_by_key key (filter p l).
Proof. apply stable_sort_filter; [apply kleb_total | apply kleb_trans]. Qed.

(** Elements with the same key keep the order they had. *)
Lemma sort_by_key_stable (t : Z) (l : list A) :
  filter (fun x => (key x =? t)%Z) (sort_by_key key l) =
  filter (fun x => (key x =? t)%Z) l.
Proof.
  rewrite sort_by_key_filter. apply stable_sort_flat.
  intros x y Hx Hy. apply filter_In in Hx as [_ Hx], Hy as [_ Hy].
  apply Z.eqb_eq in Hx, Hy. apply Z.leb_le. lia.
Qed.

End SortByKey.

(** ** Directories *)

Lemma add_trace_nil (w : world) : add_trace w [] = w.
Proof. destruct w. unfold add_trace. simpl. now rewrite app_nil_r. Qed.

Lemma add_trace_app (w : world) (a b : list syscall) :
  add_trace (add_trace w a) b = add_trace w (a ++ b).
Proof. unfold add_trace. simpl. now rewrite app_assoc. Qed.

Lemma mem_iff (x : string) (l : list string) : Py.mem x l = true <-> In x l.
Proof.
  unfold Py.mem. rewrite existsb_exists. split.
  - intros [y [Hy Heq]]. apply String.eqb_eq in Heq. now subst.
  - intros H. exists x. split; [exact H | apply String.eqb_refl].
Qed.

Lemma mem_cons (x y : string) (l : list string) :
  Py.mem x (y :: l) = String.eqb x y || Py.mem x l.
Proof. reflexivity. Qed.

Lemma mem_false_iff (x : string) (l : list string) :
  Py.mem x l = false <-> ~ In x l.
Proof.
  rewrite <- mem_iff. destruct (Py.mem x l); split; congruence.
Qed.

Lemma distinct_iff (l : list string) : distinct l = true <-> NoDup l.
Proof.
  induction l as [|x l IH]; simpl.
  - split; [constructor | reflexivity].
  - rewrite andb_true_iff, negb_true_iff, mem_false_iff, IH. split.
    + intros [H1 H2]. now constructor.
    + intros H. inversion H; subst. now split.
Qed.

Lemma wf_dir_iff (d : list file) :
  wf_dir d = true <->
  Forall (fun f => wf_name (name f) = true) d /\ NoDup (map name d).
Proof.
  unfold wf_dir. rewrite andb_true_iff, distinct_iff, forallb_forall.
  rewrite Forall_forall. split; intros [H1 H2]; split; try assumption.
  - intros f Hf. apply H1. now apply in_map.
  - intros n Hn. apply in_map_iff in Hn as [f [<- Hf]]. now apply H1.
Qed.

Lemma wf_dir_name (d : list file) (f : file) :
  wf_dir d = true -> In f d -> wf_name (name f) = true.
Proof.
  intros H Hf. apply wf_dir_iff in H as [H _].
  rewrite Forall_forall in H. now apply H.
Qed.

Lemma find_file_Some (n : string) (d : list file) (f : file) :
  Os.find_file n d = Some f -> In f d /\ name f = n.
Proof.
  induction d as [|g d IH]; simpl; [discriminate|].
  destruct (String.eqb (name g) n) eqn:E.
  - intros H. injection H as <-. apply String.eqb_eq in E. now split; [left|].
  - intros H. destruct (IH H). now split; [right|].
Qed.

Lemma find_file_None (n : string) (d : list file) :
  Os.find_file n d = None <-> ~ In n (map name d).
Proof.
  induction d as [|g d IH]; simpl; [tauto|].
  destruct (String.eqb (name g) n) eqn:E.
  - apply String.eqb_eq in E. split; [discriminate | tauto].
  - apply String.eqb_neq in E. rewrite IH. tauto.
Qed.

(** In a directory a name leads to the one entry that bears it. *)
Lemma find_file_In (d : list file) (f : file) :
  NoDup (map name d) -> In f d -> Os.find_file (name f) d = Some f.
Proof.
  induction d as [|g d IH]; simpl; [tauto|].
  intros Hnd [->|Hf].
  - now rewrite String.eqb_refl.
  - inversion Hnd as [|? ? Hg Hd]; subst.
    destruct (String.eqb (name g) (name f)) eqn:E.
    + apply String.eqb_eq in E. exfalso. apply Hg. rewrite E.
      now apply in_map.
    + now apply IH.
Qed.

Lemma remove_file_In (n : string) (d : list file) (f : file) :
  In f (Os.remove_file n d) <-> In f d /\ name f <> n.
Proof.
  unfold Os.remove_file. rewrite filter_In, negb_true_iff.
  now rewrite String.eqb_neq.
Qed.

Lemma NoDup_map_filter {A B : Type} (g : A -> B) (p : A -> bool)
    (l : list A) :
  NoDup (map g l) -> NoDup (map g (filter p l)).
Proof.
  induction l as [|x l IH]; simpl; [trivial|].
  intros H. inversion H as [|? ? Hx Hl]; subst.
  destruct (p x); simpl; [|now apply IH].
  constructor; [|now apply IH].
  intros Hin. apply Hx. apply in_map_iff in Hin as [y [Hy Hin]].
  apply filter_In in Hin as [Hin _]. rewrite <- Hy. now apply in_map.
Qed.

(** Taking entries away leaves a directory. *)
Lemma wf_dir_filter (p : file -> bool) (d : list file) :
  wf_dir d = true -> wf_dir (filter p d) = true.
Proof.
  rewrite !wf_dir_iff. intros [H1 H2]. split.
  - rewrite Forall_forall in *. intros f Hf.
    apply filter_In in Hf as [Hf _]. now apply H1.
  - now apply NoDup_map_filter.
Qed.

Lemma NoDup_app_disjoint {A : Type} (l1 l2 : list A) :
  NoDup (l1 ++ l2) -> forall a, In a l1 -> ~ In a l2.
Proof.
  induction l1 as [|x l1 IH]; simpl; [tauto|].
  intros H a [->|Ha] Hin; inversion H as [|? ? Hx Hl]; subst.
  - apply Hx, in_or_app. now right.
  - exact (IH Hl a Ha Hin).
Qed.

Lemma without_nil (d : list file) : without [] d = d.
Proof.
  unfold without. induction d as [|f d IH]; [reflexivity|].
  cbn [filter]. change (Py.mem (name f) (map name [])) with false.
  cbn [negb]. now f_equal.
Qed.

Lemma without_cons (f : file) (v d : list file) :
  without (f :: v) d = without v (Os.remove_file (name f) d).
Proof.
  unfold without, Os.remove_file. cbn [map].
  induction d as [|g d IH]; [reflexivity|].
  cbn [filter]. rewrite mem_cons, IH.
  destruct (String.eqb (name g) (name f)); cbn [orb negb filter];
    reflexivity.
Qed.

Lemma without_In (v d : list file) (f : file) :
  In f (without v d) <-> In f d /\ ~ In (name f) (map name v).
Proof.
  unfold without. rewrite filter_In, negb_true_iff, mem_false_iff. tauto.
Qed.

(** Removing a block of entries at the front of a list of distinct names
    leaves what follows the block. *)
Lemma without_prefix (v rest : list file) :
  NoDup (map name (v ++ rest)) -> without v (v ++ rest) = rest.
Proof.
  intros Hnd. unfold without. rewrite filter_app.
  rewrite map_app in Hnd.
  assert (H1 : filter (fun f => negb (Py.mem (name f) (map name v))) v = []).
  { clear Hnd.
    assert (H : forall l, incl l v ->
              filter (fun f => negb (Py.mem (name f) (map name v))) l = []).
    { induction l as [|f l IH]; intros Hl; simpl; [reflexivity|].
      assert (Hf : Py.mem (name f) (map name v) = true).
      { apply mem_iff, in_map, Hl. now left. }
      rewrite Hf. simpl. apply IH. intros x Hx. apply Hl. now right. }
    apply H, incl_refl. }
  rewrite H1. simpl.
  assert (H : forall l, incl l rest ->
            filter (fun f => negb (Py.mem (name f) (map name v))) l = l).
  { induction l as [|f l IH]; intros Hl; simpl; [reflexivity|].
    assert (Hf : Py.mem (name f) (map name v) = false).
    { apply mem_false_iff. intros Hin.
      apply (NoDup_app_disjoint _ _ Hnd _ Hin).
      apply in_map, Hl. now left. }
    rewrite Hf. simpl. f_equal. apply IH. intros x Hx. apply Hl. now right. }
  apply H, incl_refl.
Qed.

(** ** The file-system calls on a directory entry *)

Section Entries.

Variable folder : string.

Lemma stat_entry (w : world) (f : file) :
  wf_dir (dir w) = true -> In f (dir w) ->
  Os.stat folder (Py.os_path_join folder (name f)) w =
  (Ok (size f, mtime f),
   add_trace w [SysStat (Py.os_path_join folder (name f))]).
Proof.
  intros Hwf Hf. unfold Os.stat, bind, syscall_, get_dir. cbn [dir].
  rewrite (resolve_entry _ _ (wf_dir_name _ _ Hwf Hf)).
  apply wf_dir_iff in Hwf as [_ Hnd].
  now rewrite (find_file_In _ _ Hnd Hf).
Qed.

Lemma getsize_entry (w : world) (f : file) :
  wf_dir (dir w) = true -> In f (dir w) ->
  Os.path_getsize folder (Py.os_path_join folder (name f)) w =
  (Ok (size f), add_trace w [SysStat (Py.os_path_join folder (name f))]).
Proof.
  intros Hwf Hf. unfold Os.path_getsize, bind.
  now rewrite (stat_entry _ _ Hwf Hf).
Qed.

Lemma getmtime_entry (w : world) (f : file) :
  wf_dir (dir w) = true -> In f (dir w) ->
  Os.path_getmtime folder (Py.os_path_join folder (name f)) w =
  (Ok (mtime f), add_trace w [SysStat (Py.os_path_join folder (name f))]).
Proof.
  intros Hwf Hf. unfold Os.path_getmtime, bind.
  now rewrite (stat_entry _ _ Hwf Hf).
Qed.

Lemma exists_entry (w : world) (f : file) :
  wf_dir (dir w) = true -> In f (dir w) ->
  Os.path_exists folder (Py.os_path_join folder (name f)) w =
  (Ok true, add_trace w [SysStat (Py.os_path_join folder (name f))]).
Proof.
  intros Hwf Hf. unfold Os.path_exists, try_except, bind.
  now rewrite (stat_entry _ _ Hwf Hf).
Qed.

Lemma read_entry (w : world) (f : file) :
  wf_dir (dir w) = true -> In f (dir w) ->
  Os.read folder (Py.os_path_join folder (name f)) w =
  (Ok (content f),
   add_trace w [SysRead (Py.os_path_join folder (name f))]).
Proof.
  intros Hwf Hf. unfold Os.read, bind, syscall_, get_dir. cbn [dir].
  rewrite (resolve_entry _ _ (wf_dir_name _ _ Hwf Hf)).
  apply wf_dir_iff in Hwf as [_ Hnd].
  now rewrite (find_file_In _ _ Hnd Hf).
Qed.

Lemma remove_entry (w : world) (f : file) :
  wf_dir (dir w) = true -> In f (dir w) ->
  Os.remove folder (Py.os_path_join folder (name f)) w =
  if locked f
  then (Raise (Os.permission_denied (Py.os_path_join folder (name f))),
        add_trace w [SysUnlink (Py.os_path_join folder (name f))])
  else (Ok tt,
        World (Os.remove_file (name f) (dir w)) (logs w)
              (trace w ++ [SysUnlink (Py.os_path_join folder (name f))])).
Proof.
  intros Hwf Hf. unfold Os.remove, bind, syscall_, get_dir. cbn [dir].
  rewrite (resolve_entry _ _ (wf_dir_name _ _ Hwf Hf)).
  apply wf_dir_iff in Hwf as [_ Hnd].
  rewrite (find_file_In _ _ Hnd Hf). now destruct (locked f).
Qed.

End Entries.

(** ** Scanning the folder *)

Section Scan.

Variable cfg : config.

Lemma listdir_spec (w : world) :
  Os.listdir (UPLOAD_FOLDER cfg) w =
  (Ok (map name (dir w)), add_trace w [SysListdir (UPLOAD_FOLDER cfg)]).
Proof. reflexivity. Qed.

(** A loop over the listing that visits the images only. *)
Lemma for_acc_scan {S : Type} (body : S -> string -> M S)
    (step : S -> file -> S) (calls : file -> list syscall) (d : list file) :
  (forall acc f w, dir w = d -> In f d ->
     body acc (name f) w =
     if is_image cfg f then (Ok (step acc f), add_trace w (calls f))
     else (Ok acc, w)) ->
  forall l, incl l d -> forall acc w, dir w = d ->
    for_acc (map name l) body acc w =
    (Ok (fold_left step (images cfg l) acc),
     add_trace w (flat_map calls (images cfg l))).
Proof.
  intros Hbody. induction l as [|f l IH]; intros Hl acc w Hw.
  - simpl. unfold ret. now rewrite add_trace_nil.
  - cbn [map for_acc]. unfold bind.
    rewrite (Hbody acc f w Hw) by (apply Hl; now left).
    assert (Hl' : incl l d) by (intros x Hx; apply Hl; now right).
    unfold images. cbn [filter]. fold (images cfg l).
    destruct (is_image cfg f).
    + rewrite (IH Hl') by exact Hw. cbn [fold_left flat_map].
      now rewrite add_trace_app.
    + now rewrite (IH Hl').
Qed.

Lemma fold_left_snoc {A B : Type} (g : A -> B) (l : list A) (acc : list B) :
  fold_left (fun acc x => acc ++ [g x]) l acc = acc ++ map g l.
Proof.
  revert acc; induction l as [|x l IH]; intros acc; simpl.
  - now rewrite app_nil_r.
  - now rewrite IH, <- app_assoc.
Qed.

Lemma flat_map_single {A B : Type} (g : A -> B) (l : list A) :
  flat_map (fun x => [g x]) l = map g l.
Proof. induction l; simpl; congruence. Qed.

(** [cleanup_old_images] collects the path and time of every image, in
    listing order. *)
Lemma cleanup_scan_spec (w : world) :
  wf_dir (dir w) = true ->
  cleanup_scan cfg w =
  (Ok (map (fun f => (image_path cfg f, mtime f)) (images cfg (dir w))),
   add_trace w (scan_trace cfg (dir w))).
Proof.
  intros Hwf. unfold cleanup_scan, bind. rewrite listdir_spec.
  rewrite (for_acc_scan _
             (fun acc f => acc ++ [(image_path cfg f, mtime f)])
             (fun f => [SysStat (image_path cfg f)]) (dir w)).
  - rewrite fold_left_snoc, flat_map_single, add_trace_app. reflexivity.
  - intros acc f w' Hw' Hf. unfold is_image.
    destruct (allowed_file cfg (name f)); [|reflexivity].
    unfold bind. rewrite getmtime_entry; [reflexivity| |]; now rewrite Hw'.
  - apply incl_refl.
  - reflexivity.
Qed.

Lemma fold_left_totals (l : list file) (t c : Z) :
  fold_left (fun (acc : Z * Z) f => let '(t, c) := acc in
                                    ((t + size f)%Z, (c + 1)%Z)) l (t, c) =
  ((t + sum_sizes l)%Z, (c + Z.of_nat (List.length l))%Z).
Proof.
  revert t c; induction l as [|f l IH]; intros t c.
  - simpl. f_equal; lia.
  - cbn [fold_left]. rewrite IH. cbn [sum_sizes fold_right List.length].
    fold (sum_sizes l). f_equal; lia.
Qed.

(** [get_storage_info] scans the folder and reports its summary. *)
Lemma get_storage_info_spec (w : world) :
  wf_dir (dir w) = true ->
  get_storage_info cfg w =
  (Ok (summary cfg (dir w)), add_trace w (scan_trace cfg (dir w))).
Proof.
  intros Hwf. unfold get_storage_info, bind. rewrite listdir_spec.
  rewrite (for_acc_scan _
             (fun (acc : Z * Z) f => let '(t, c) := acc in
                                     ((t + size f)%Z, (c + 1)%Z))
             (fun f => [SysStat (image_path cfg f)]) (dir w)).
  - rewrite fold_left_totals, flat_map_single, add_trace_app. reflexivity.
  - intros [t c] f w' Hw' Hf. unfold is_image.
    destruct (allowed_file cfg (name f)); [|reflexivity].
    unfold bind. rewrite getsize_entry; [reflexivity| |]; now rewrite Hw'.
  - apply incl_refl.
  - reflexivity.
Qed.

End Scan.

(** ** The removal loop of [cleanup_old_images] *)

Section Basename.

Local Open Scope string_scope.

Lemma rcut_none (sep : ascii) (s : string) :
  Py.str_in (String sep "") s = false -> Py.rcut sep s = None.
Proof.
  induction s as [|c s IH]; [reflexivity|].
  rewrite str_in_char_cons, orb_false_iff. intros [Hc Hs].
  simpl. rewrite (IH Hs), Ascii.eqb_sym, Hc. reflexivity.
Qed.

Lemma rcut_app (sep : ascii) (a b : string) :
  Py.str_in (String sep "") b = false ->
  Py.rcut sep (a ++ String sep b) = Some (a, b).
Proof.
  intros Hb. induction a as [|c a IH]; simpl.
  - now rewrite (rcut_none _ _ Hb), Ascii.eqb_refl.
  - now rewrite IH.
Qed.

(** [os.path.basename] gives back the entry name of a joined path. *)
Lemma basename_join (folder n : string) :
  wf_name n = true ->
  Os.path_basename (Py.os_path_join folder n) = n.
Proof.
  intros H. pose proof (wf_name_relative _ H) as Hrel.
  apply wf_name_spec in H as (_ & _ & _ & Hn).
  unfold Os.path_basename, Py.os_path_join. rewrite Hrel.
  destruct (String.eqb folder "") eqn:E; simpl.
  - apply String.eqb_eq in E as ->. simpl. now rewrite (rcut_none _ _ Hn).
  - destruct (Py.endswith_char folder "/") eqn:E'.
    + apply endswith_char_app in E' as [a' ->].
      rewrite append_assoc. simpl. now rewrite (rcut_app _ _ _ Hn).
    + now rewrite (rcut_app _ _ _ Hn).
Qed.

End Basename.

Lemma for_each_ext {A : Type} (l : list A) (f g : A -> M unit) :
  (forall x w, f x w = g x w) -> forall w, for_each l f w = for_each l g w.
Proof.
  intros H. induction l as [|x l IH]; intros w; [reflexivity|].
  cbn [for_each]. unfold bind. rewrite H.
  destruct (g x w) as [[u|e] w']; [apply IH | reflexivity].
Qed.

Lemma for_each_map {A B : Type} (h : A -> B) (l : list A)
    (body : B -> M unit) (w : world) :
  for_each (map h l) body w = for_each l (fun x => body (h x)) w.
Proof.
  revert w; induction l as [|x l IH]; intros w; [reflexivity|].
  cbn [map for_each]. unfold bind.
  destruct (body (h x) w) as [[u|e] w']; [apply IH | reflexivity].
Qed.

(** A loop over [range(n)] that indexes [l] visits the first [n] elements,
    and fails on the index after the last one. *)
Lemma for_each_range {A : Type} (f : A -> M unit) (e : exn) (n : nat) :
  forall (l : list A) (w : world),
  for_each (seq 0 n)
    (fun i => match nth_error l i with
              | Some x => f x
              | None => raise e
              end) w =
  bind (for_each (firstn n l) f)
       (fun _ => if (List.length l <? n)%nat then raise e else ret tt) w.
Proof.
  induction n as [|n IH]; intros l w; [reflexivity|].
  cbn [seq for_each]. rewrite <- seq_shift. destruct l as [|x l].
  - reflexivity.
  - cbn [nth_error firstn for_each]. unfold bind at 1 2 3.
    destruct (f x w) as [[u|e'] w']; [|reflexivity].
    rewrite for_each_map.
    rewrite (for_each_ext _ _
               (fun i => match nth_error l i with
                         | Some x => f x
                         | None => raise e
                         end)) by reflexivity.
    rewrite IH. reflexivity.
Qed.

Section Removal.

Variable cfg : config.

Let unlink_step (image : string * Z) : M unit :=
  Os.remove (UPLOAD_FOLDER cfg) (fst image) ;;;
  logger_info ("Removed old image: " ++ Os.path_basename (fst image)).

Let removed_msg (f : file) : level * string :=
  (INFO, ("Removed old image: " ++ name f)%string).

Lemma first_locked_none (l : list file) :
  first_locked l = None -> unlocked_prefix l = l.
Proof.
  induction l as [|f l IH]; simpl; [reflexivity|].
  destruct (locked f); [discriminate|]. intros H. now rewrite IH.
Qed.

(** The loop removes the files up to the first one that resists, and stops
    there with its exception. *)
Lemma removal_loop (l : list file) :
  forall w, wf_dir (dir w) = true -> incl l (dir w) -> NoDup (map name l) ->
  for_each (map (fun f => (image_path cfg f, mtime f)) l) unlink_step w =
  (match first_locked l with
   | Some f => Raise (Os.permission_denied (image_path cfg f))
   | None => Ok tt
   end,
   World (without (unlocked_prefix l) (dir w))
         (logs w ++ map removed_msg (unlocked_prefix l))
         (trace w ++ map (fun f => SysUnlink (image_path cfg f))
                         (unlocked_prefix l
                          ++ match first_locked l with
                             | Some f => [f]
                             | None => []
                             end))).
Proof.
  induction l as [|f l IH]; intros w Hwf Hl Hnd.
  - cbn. rewrite without_nil, !app_nil_r. now destruct w.
  - assert (Hf : In f (dir w)) by (apply Hl; now left).
    cbn [map for_each first_locked unlocked_prefix].
    unfold bind at 1. unfold unlink_step at 1. unfold bind at 1.
    cbn [fst]. unfold image_path at 1 2.
    rewrite (remove_entry _ _ _ Hwf Hf).
    destruct (locked f) eqn:E.
    + cbn. rewrite without_nil, app_nil_r. reflexivity.
    + unfold logger_info at 1. cbn [dir logs trace].
      rewrite (basename_join _ _ (wf_dir_name _ _ Hwf Hf)).
      inversion Hnd as [|? ? Hfl Hnd']; subst.
      rewrite IH; cbn [dir logs trace].
      * rewrite without_cons. cbn [map app].
        rewrite <- !app_assoc. reflexivity.
      * now apply wf_dir_filter.
      * intros x Hx. apply remove_file_In. split; [apply Hl; now right|].
        intros Heq. apply Hfl. rewrite <- Heq. now apply in_map.
      * exact Hnd'.
Qed.

End Removal.

(** ** What [cleanup_old_images] does to the folder *)

Section Cleanup.

Variable cfg : config.

Lemma images_incl (d : list file) : incl (images cfg d) d.
Proof. intros f Hf. now apply filter_In in Hf. Qed.

Lemma oldest_first_perm (d : list file) :
  Permutation (oldest_first cfg d) (images cfg d).
Proof. apply sort_by_key_perm. Qed.

Lemma oldest_first_length (d : list file) :
  Z.of_nat (List.length (oldest_first cfg d)) = image_count cfg d.
Proof. unfold oldest_first, image_count. now rewrite sort_by_key_length. Qed.

Lemma oldest_first_incl (d : list file) : incl (oldest_first cfg d) d.
Proof.
  intros f Hf. apply images_incl.
  exact (Permutation_in _ (oldest_first_perm d) Hf).
Qed.

Lemma oldest_first_NoDup (d : list file) :
  wf_dir d = true -> NoDup (map name (oldest_first cfg d)).
Proof.
  intros Hwf. apply wf_dir_iff in Hwf as [_ Hnd].
  eapply Permutation_NoDup.
  - apply Permutation_map. symmetry. apply oldest_first_perm.
  - now apply NoDup_map_filter.
Qed.

Lemma NoDup_firstn {A : Type} (n : nat) (l : list A) :
  NoDup l -> NoDup (firstn n l).
Proof.
  intros H. rewrite <- (firstn_skipn n l) in H.
  exact (NoDup_app_remove_r _ _ H).
Qed.

Lemma incl_firstn {A : Type} (n : nat) (l : list A) : incl (firstn n l) l.
Proof.
  intros x Hx. rewrite <- (firstn_skipn n l). apply in_or_app. now left.
Qed.

Lemma candidates_incl (d : list file) : incl (candidates cfg d) d.
Proof.
  unfold candidates. destruct (image_count cfg d >? MAX_IMAGES cfg)%Z.
  - intros f Hf. apply oldest_first_incl. exact (incl_firstn _ _ _ Hf).
  - intros f [].
Qed.

Lemma candidates_NoDup (d : list file) :
  wf_dir d = true -> NoDup (map name (candidates cfg d)).
Proof.
  intros Hwf. unfold candidates.
  destruct (image_count cfg d >? MAX_IMAGES cfg)%Z; [|constructor].
  rewrite <- firstn_map. now apply NoDup_firstn, oldest_first_NoDup.
Qed.

Lemma image_count_nonneg (d : list file) : (0 <= image_count cfg d)%Z.
Proof. unfold image_count. lia. Qed.

(** [cleanup_old_images] never raises; it leaves the folder without the
    evicted images, and its records and calls are the ones listed. *)
Lemma cleanup_old_images_spec (w : world) :
  wf_dir (dir w) = true ->
  cleanup_old_images cfg w =
  (Ok tt,
   World (without (evicted cfg (dir w)) (dir w))
         (logs w ++ cleanup_logs cfg (dir w))
         (trace w ++ cleanup_trace cfg (dir w))).
Proof.
  intros Hwf. unfold cleanup_old_images, try_except. unfold bind at 1.
  rewrite (cleanup_scan_spec cfg w Hwf).
  assert (Hsort :
    sort_by_key snd (map (fun f => (image_path cfg f, mtime f))
                         (images cfg (dir w))) =
    map (fun f => (image_path cfg f, mtime f)) (oldest_first cfg (dir w))).
  { unfold oldest_first, sort_by_key. now apply stable_sort_map. }
  rewrite Hsort, length_map, oldest_first_length.
  pose proof (image_count_nonneg (dir w)) as Hpos.
  unfold evicted, cleanup_logs, cleanup_trace, cleanup_failure, evicted.
  unfold candidates.
  destruct (image_count cfg (dir w) >? MAX_IMAGES cfg)%Z eqn:Hover.
  - unfold cleanup_remove.
    rewrite (for_each_range
               (fun image =>
                  Os.remove (UPLOAD_FOLDER cfg) (fst image) ;;;
                  logger_info ("Removed old image: "
                               ++ Os.path_basename (fst image)))).
    rewrite firstn_map. unfold bind at 1.
    set (n := Z.to_nat (image_count cfg (dir w) - MAX_IMAGES cfg)).
    rewrite removal_loop; unfold add_trace; cbn [dir logs trace].
    + destruct (first_locked (firstn n (oldest_first cfg (dir w)))) eqn:Hl.
      * unfold logger_error. cbn [dir logs trace].
        rewrite <- !app_assoc. reflexivity.
      * rewrite length_map.
        assert (Hlt : (List.length (oldest_first cfg (dir w)) <? n)%nat =
                      (MAX_IMAGES cfg <? 0)%Z).
        { pose proof (oldest_first_length (dir w)) as Hlen.
          apply Z.gtb_lt in Hover.
          destruct (MAX_IMAGES cfg <? 0)%Z eqn:Hneg.
          - apply Z.ltb_lt in Hneg. apply Nat.ltb_lt. lia.
          - apply Z.ltb_ge in Hneg. apply Nat.ltb_ge. lia. }
        rewrite Hlt. destruct (MAX_IMAGES cfg <? 0)%Z.
        -- unfold raise, logger_error. cbn [dir logs trace].
           rewrite <- !app_assoc. reflexivity.
        -- unfold ret. rewrite <- !app_assoc, !app_nil_r. reflexivity.
    + exact Hwf.
    + intros f Hf. apply oldest_first_incl. exact (incl_firstn _ _ _ Hf).
    + rewrite <- firstn_map. now apply NoDup_firstn, oldest_first_NoDup.
  - rewrite Z.gtb_ltb, Z.ltb_ge in Hover.
    assert (Hneg : (MAX_IMAGES cfg <? 0)%Z = false) by (apply Z.ltb_ge; lia).
    cbn [unlocked_prefix first_locked map app]. rewrite Hneg.
    unfold ret, add_trace. rewrite without_nil, !app_nil_r. reflexivity.
Qed.

End Cleanup.

(** ** Writing a file *)

Section Write.

Variable cfg : config.

Lemma strip_suffix (pre l rest : list string) :
  Os.strip pre l = Some rest -> incl rest l.
Proof.
  revert l; induction pre as [|a pre IH]; intros l; simpl.
  - intros H. injection H as <-. apply incl_refl.
  - destruct l as [|b l]; [discriminate|].
    destruct (String.eqb a b); [|discriminate].
    intros H x Hx. right. exact (IH _ H x Hx).
Qed.

(** Only proper entry names are resolved as entries. *)
Lemma resolve_entry_wf (folder path n : string) :
  Os.resolve folder path = TEntry n -> wf_name n = true.
Proof.
  unfold Os.resolve.
  destruct (Bool.eqb _ _); [|discriminate].
  destruct (Os.strip _ _) as [rest|] eqn:E; [|discriminate].
  destruct rest as [|m [|m' rest]]; [discriminate| |].
  - destruct (String.eqb m "..") eqn:Edots; [discriminate|].
    intros H. injection H as <-.
    pose proof (strip_suffix _ _ _ E m (or_introl eq_refl)) as Hin.
    unfold Os.components in Hin. apply filter_In in Hin as [Hin Hne].
    apply negb_true_iff, orb_false_iff in Hne as [H1 H2].
    pose proof (split_pieces "/" path) as Hp. rewrite Forall_forall in Hp.
    unfold wf_name. now rewrite H1, H2, Edots, (Hp _ Hin).
  - destruct (Py.mem ".." _); discriminate.
Qed.

Lemma write_file_In (f g : file) (d : list file) :
  In g (Os.write_file f d) -> g = f \/ In g d.
Proof.
  induction d as [|h d IH]; simpl.
  - intros [<-|[]]. now left.
  - destruct (String.eqb (name h) (name f)).
    + intros [<-|H]; [now left | right; now right].
    + intros [<-|H]; [right; now left|].
      destruct (IH H); [now left | right; now right].
Qed.

Lemma write_file_names (f : file) (d : list file) :
  In (name f) (map name d) ->
  map name (Os.write_file f d) = map name d.
Proof.
  induction d as [|h d IH]; simpl; [tauto|].
  destruct (String.eqb (name h) (name f)) eqn:E.
  - apply String.eqb_eq in E. intros _. simpl. now rewrite E.
  - apply String.eqb_neq in E. intros [H|H]; [contradiction|].
    simpl. now rewrite IH.
Qed.

Lemma write_file_new (f : file) (d : list file) :
  ~ In (name f) (map name d) -> Os.write_file f d = d ++ [f].
Proof.
  induction d as [|h d IH]; simpl; [reflexivity|].
  intros H. destruct (String.eqb (name h) (name f)) eqn:E.
  - apply String.eqb_eq in E. tauto.
  - rewrite IH; tauto.
Qed.

(** Writing a properly named file leaves a directory. *)
Lemma wf_dir_write (f : file) (d : list file) :
  wf_name (name f) = true -> wf_dir d = true ->
  wf_dir (Os.write_file f d) = true.
Proof.
  intros Hn Hwf.
  destruct (in_dec string_dec (name f) (map name d)) as [Hin|Hout].
  - apply wf_dir_iff in Hwf as [H1 H2]. apply wf_dir_iff. split.
    + apply Forall_forall. intros g Hg.
      apply write_file_In in Hg as [->|Hg]; [exact Hn|].
      rewrite Forall_forall in H1. now apply H1.
    + now rewrite write_file_names.
  - rewrite (write_file_new _ _ Hout).
    apply wf_dir_iff in Hwf as [H1 H2]. apply wf_dir_iff. split.
    + apply Forall_app. split; [exact H1 | now repeat constructor].
    + rewrite map_app. apply NoDup_app; [exact H2 | now repeat constructor|].
      intros a Ha [<-|[]]. contradiction.
Qed.

(** A write adds at most one image. *)
Lemma image_count_write (f : file) (d : list file) :
  (image_count cfg (Os.write_file f d) <= image_count cfg d + 1)%Z.
Proof.
  unfold image_count, images.
  induction d as [|h d IH]; simpl.
  - destruct (is_image cfg f); simpl; lia.
  - destruct (String.eqb (name h) (name f)) eqn:E.
    + apply String.eqb_eq in E.
      assert (Hh : is_image cfg h = is_image cfg f)
        by (unfold is_image; now rewrite E).
      simpl. rewrite Hh. destruct (is_image cfg f); simpl; lia.
    + simpl. destruct (is_image cfg h); simpl; lia.
Qed.

(** What [Os.write] can do to the state: nothing but the call being
    traced, or the file being put in place. *)
Lemma write_spec (path : string) (bs : list byte) (now : Z) (w : world) :
  let r := Os.write (UPLOAD_FOLDER cfg) path bs now w in
  (exists e, r = (Raise e, add_trace w [SysWrite path]))
  \/ (exists n, wf_name n = true /\
        r = (Ok tt, World (Os.write_file (File n bs now false) (dir w))
                          (logs w) (trace w ++ [SysWrite path]))).
Proof.
  unfold Os.write, bind, syscall_, get_dir. cbn [dir logs trace].
  destruct (Os.resolve (UPLOAD_FOLDER cfg) path) as [|n| |] eqn:E;
    try (left; eexists; reflexivity).
  pose proof (resolve_entry_wf _ _ _ E) as Hn.
  destruct (Os.find_file n (dir w)) as [f|].
  - destruct (locked f); [left; eexists; reflexivity|].
    right. exists n. now split.
  - right. exists n. now split.
Qed.

Lemma image_count_without (v d : list file) :
  (image_count cfg (without v d) <= image_count cfg d)%Z.
Proof.
  unfold image_count, images, without.
  induction d as [|h d IH]; simpl; [lia|].
  destruct (negb _); simpl; destruct (is_image cfg h); simpl; lia.
Qed.

End Write.

(** ** What eviction removes *)

Lemma forallb_unlocked_prefix (l : list file) :
  forallb (fun g => negb (locked g)) l = true -> unlocked_prefix l = l.
Proof.
  induction l as [|f l IH]; simpl; [reflexivity|].
  destruct (locked f); simpl; [discriminate|]. intros H. now rewrite IH.
Qed.

Lemma unlocked_prefix_app (l later : list file) (f : file) :
  forallb (fun g => negb (locked g)) l = true -> locked f = true ->
  unlocked_prefix (l ++ f :: later) = l
  /\ first_locked (l ++ f :: later) = Some f.
Proof.
  intros Hl Hf. induction l as [|g l IH]; simpl.
  - now rewrite Hf.
  - simpl in Hl. destruct (locked g); simpl in Hl; [discriminate|].
    destruct (IH Hl) as [-> ->]. now split.
Qed.

Lemma unlocked_prefix_firstn (l : list file) :
  firstn (List.length (unlocked_prefix l)) l = unlocked_prefix l.
Proof.
  induction l as [|f l IH]; simpl; [reflexivity|].
  destruct (locked f); simpl; [reflexivity|]. now rewrite IH.
Qed.

Lemma unlocked_prefix_length (l : list file) :
  (List.length (unlocked_prefix l) <= List.length l)%nat.
Proof.
  induction l as [|f l IH]; simpl; [lia|]. destruct (locked f); simpl; lia.
Qed.

(** After the loop has stopped, a second pass over what is left stops at
    once. *)
Lemma unlocked_prefix_again (s : list file) :
  forall n,
  unlocked_prefix
    (firstn (n - List.length (unlocked_prefix (firstn n s)))
            (skipn (List.length (unlocked_prefix (firstn n s))) s)) = [].
Proof.
  induction s as [|f s IH]; intros n.
  - rewrite firstn_nil. simpl. now rewrite firstn_nil.
  - destruct n as [|n]; [reflexivity|].
    cbn [firstn unlocked_prefix]. destruct (locked f) eqn:E.
    + cbn [List.length skipn]. rewrite Nat.sub_0_r.
      cbn [firstn unlocked_prefix]. now rewrite E.
    + cbn [List.length skipn Nat.sub]. apply IH.
Qed.

Lemma StronglySorted_app_inv {A : Type} (R : A -> A -> Prop)
    (l1 l2 : list A) :
  StronglySorted R (l1 ++ l2) ->
  forall x y, In x l1 -> In y l2 -> R x y.
Proof.
  induction l1 as [|a l1 IH]; simpl; [tauto|].
  intros H x y [->|Hx] Hy; inversion H as [|? ? Hs Ha]; subst.
  - rewrite Forall_forall in Ha. apply Ha, in_or_app. now right.
  - now apply IH.
Qed.

Lemma filter_app_inv {A : Type} (p : A -> bool) (l a b : list A) (x : A) :
  filter p l = a ++ x :: b ->
  exists l1 l2, l = l1 ++ x :: l2 /\ filter p l1 = a /\ filter p l2 = b.
Proof.
  revert a; induction l as [|y l IH]; intros a; simpl.
  - destruct a; discriminate.
  - destruct (p y) eqn:E.
    + destruct a as [|a0 a]; simpl; intros H; injection H as -> H.
      * exists [], l. simpl. now repeat split.
      * destruct (IH _ H) as (l1 & l2 & -> & H1 & H2).
        exists (a0 :: l1), l2. simpl. rewrite E, H1. now repeat split.
    + intros H. destruct (IH _ H) as (l1 & l2 & -> & H1 & H2).
      exists (y :: l1), l2. simpl. rewrite E. now repeat split.
Qed.

Lemma precedes_filter {A : Type} (p : A -> bool) (x y : A) (l : list A) :
  precedes x y l -> p x = true -> p y = true -> precedes x y (filter p l).
Proof.
  intros (l1 & l2 & l3 & ->) Hx Hy.
  exists (filter p l1), (filter p l2), (filter p l3).
  rewrite filter_app. simpl. rewrite Hx, filter_app. simpl. now rewrite Hy.
Qed.

Lemma precedes_filter_inv {A : Type} (p : A -> bool) (x y : A)
    (l : list A) :
  precedes x y (filter p l) -> precedes x y l.
Proof.
  intros (a & b & c & H).
  apply filter_app_inv in H as (l1 & l2 & -> & _ & H2).
  apply filter_app_inv in H2 as (l3 & l4 & -> & _ & _).
  now exists l1, l3, l4.
Qed.

Lemma precedes_app {A : Type} (x y : A) (l1 l2 : list A) :
  In x l1 -> In y l2 -> precedes x y (l1 ++ l2).
Proof.
  intros Hx Hy. apply in_split in Hx as (a & b & ->).
  apply in_split in Hy as (c & e & ->).
  exists a, (b ++ c), e. now rewrite <- !app_assoc.
Qed.

Section Evict.

Variable cfg : config.

Lemma images_without (v d : list file) :
  images cfg (without v d) = without v (images cfg d).
Proof.
  unfold images, without. induction d as [|f d IH]; simpl; [reflexivity|].
  destruct (negb _) eqn:E1; destruct (is_image cfg f) eqn:E2; simpl;
    rewrite ?E1, ?E2, IH; reflexivity.
Qed.

(** The images left when a front block of the sorted images is removed
    are, sorted, what followed the block. *)
Lemma oldest_first_without (d v rest : list file) :
  wf_dir d = true ->
  oldest_first cfg d = v ++ rest ->
  oldest_first cfg (without v d) = rest.
Proof.
  intros Hwf Hs. unfold oldest_first. rewrite images_without.
  unfold without at 1. rewrite <- sort_by_key_filter.
  fold (oldest_first cfg d).
  fold (without v (oldest_first cfg d)). rewrite Hs.
  apply without_prefix. rewrite <- Hs. now apply oldest_first_NoDup.
Qed.

Lemma candidates_prefix (d : list file) :
  exists rest, oldest_first cfg d = candidates cfg d ++ rest.
Proof.
  unfold candidates. destruct (image_count cfg d >? MAX_IMAGES cfg)%Z.
  - eexists. symmetry. apply firstn_skipn.
  - now exists (oldest_first cfg d).
Qed.

Lemma evicted_prefix (d : list file) :
  oldest_first cfg d =
  evicted cfg d ++ skipn (List.length (evicted cfg d)) (oldest_first cfg d).
Proof.
  unfold evicted. destruct (candidates_prefix d) as [rest Hr].
  rewrite <- (firstn_skipn (List.length (unlocked_prefix (candidates cfg d)))
                (oldest_first cfg d)) at 1.
  f_equal. rewrite Hr at 1. rewrite firstn_app.
  pose proof (unlocked_prefix_length (candidates cfg d)) as Hlen.
  replace (_ - _)%nat with 0%nat by lia.
  rewrite unlocked_prefix_firstn. simpl. now rewrite app_nil_r.
Qed.

Lemma wf_dir_without (v d : list file) :
  wf_dir d = true -> wf_dir (without v d) = true.
Proof. apply wf_dir_filter. Qed.

(** A second cleanup finds nothing it can remove. *)
Lemma evicted_again (d : list file) :
  wf_dir d = true -> evicted cfg (without (evicted cfg d) d) = [].
Proof.
  intros Hwf. set (E := evicted cfg d).
  pose proof (oldest_first_without d E _ Hwf (evicted_prefix d)) as Hs.
  fold E in Hs.
  assert (Hc : image_count cfg (without E d) =
               (image_count cfg d - Z.of_nat (List.length E))%Z).
  { rewrite <- !oldest_first_length, Hs.
    rewrite (evicted_prefix d) at 2. fold E.
    rewrite length_app. lia. }
  unfold evicted at 1, candidates at 1. rewrite Hc, Hs.
  destruct (image_count cfg d - Z.of_nat (List.length E)
            >? MAX_IMAGES cfg)%Z eqn:Hover; [|reflexivity].
  apply Z.gtb_lt in Hover.
  subst E. unfold evicted, candidates.
  assert (Hd : (image_count cfg d >? MAX_IMAGES cfg)%Z = true)
    by (apply Z.gtb_lt; lia).
  unfold evicted, candidates in Hover. rewrite Hd in Hover. rewrite Hd.
  set (n := Z.to_nat (image_count cfg d - MAX_IMAGES cfg)) in *.
  replace (Z.to_nat _) with
    (n - List.length (unlocked_prefix (firstn n (oldest_first cfg d))))%nat
    by lia.
  apply unlocked_prefix_again.
Qed.

End Evict.

(** ** One save *)

Section Save.

Context {pil : PIL}.
Variable cfg : config.

Lemma stat_dir (path : string) (w : world) :
  dir (snd (Os.stat (UPLOAD_FOLDER cfg) path w)) = dir w.
Proof.
  unfold Os.stat, bind, syscall_, get_dir. cbn [dir].
  destruct (Os.resolve _ _); try reflexivity.
  now destruct (Os.find_file _ _).
Qed.

Lemma getsize_dir (path : string) (w : world) :
  dir (snd (Os.path_getsize (UPLOAD_FOLDER cfg) path w)) = dir w.
Proof.
  unfold Os.path_getsize, bind.
  pose proof (stat_dir path w) as H.
  now destruct (Os.stat _ path w) as [[st|e] w'].
Qed.

(** Lines 59-77 of a save leave a directory with at most one more image;
    when they raise, the folder is as before. *)
Lemma save_image_write_spec (now : Z) (image_data : json_value)
    (filename : string) (w : world) (r : result string) (w' : world) :
  wf_dir (dir w) = true ->
  save_image_write cfg now image_data filename w = (r, w') ->
  wf_dir (dir w') = true
  /\ (image_count cfg (dir w') <= image_count cfg (dir w) + 1)%Z
  /\ (forall e, r = Raise e -> dir w' = dir w).
Proof.
  intros Hwf H. unfold save_image_write, bind, lift in H.
  destruct (decode_image_data image_data) as [bs|e].
  - destruct (Image_open bs) as [image|].
    + destruct (write_spec cfg
                  (Py.os_path_join (UPLOAD_FOLDER cfg) filename)
                  (Image_png (if Py.mem (Image_mode image) ["RGBA"; "P"]
                              then Image_convert_RGB image else image))
                  now w) as [[e He]|[n [Hn He]]];
        rewrite He in H; injection H as <- <-; cbn [dir add_trace].
      * split; [exact Hwf|]. split; [lia | reflexivity].
      * split; [now apply wf_dir_write|].
        split; [apply image_count_write | discriminate].
    + injection H as <- <-.
      split; [exact Hwf|]. split; [lia | reflexivity].
  - injection H as <- <-. split; [exact Hwf|]. split; [lia | reflexivity].
Qed.

(** [save_image_locally] always returns its dictionary, and leaves a
    directory with at most one more image. *)
Lemma save_image_locally_spec (now : Z) (image_data : json_value)
    (filename : string) (w : world) (r : result save_result) (w' : world) :
  wf_dir (dir w) = true ->
  save_image_locally cfg now image_data filename w = (r, w') ->
  (exists res, r = Ok res)
  /\ wf_dir (dir w') = true
  /\ (image_count cfg (dir w') <= image_count cfg (dir w) + 1)%Z.
Proof.
  intros Hwf H. unfold save_image_locally, try_except in H.
  unfold bind at 1 in H.
  destruct (save_image_write cfg now image_data filename w)
    as [[filepath|e] w1] eqn:Hw.
  - destruct (save_image_write_spec _ _ _ _ _ _ Hwf Hw) as (Hwf1 & Hc1 & _).
    unfold bind at 1 in H.
    rewrite (cleanup_old_images_spec cfg w1 Hwf1) in H.
    set (w2 := World _ _ _) in H.
    assert (Hwf2 : wf_dir (dir w2) = true) by (now apply wf_dir_without).
    assert (Hc2 : (image_count cfg (dir w2) <= image_count cfg (dir w1))%Z)
      by apply image_count_without.
    unfold bind at 1 in H. pose proof (getsize_dir filepath w2) as Hd.
    destruct (Os.path_getsize (UPLOAD_FOLDER cfg) filepath w2)
      as [[sz|e] w3]; cbn [snd] in Hd.
    + injection H as <- <-. rewrite Hd.
      split; [eexists; reflexivity|]. split; [exact Hwf2 | lia].
    + unfold bind, logger_error, ret in H. injection H as <- <-.
      cbn [dir]. rewrite Hd.
      split; [eexists; reflexivity|]. split; [exact Hwf2 | lia].
  - destruct (save_image_write_spec _ _ _ _ _ _ Hwf Hw) as (Hwf1 & Hc1 & _).
    unfold bind, logger_error, ret in H. injection H as <- <-. cbn [dir].
    split; [eexists; reflexivity|]. split; [exact Hwf1 | lia].
Qed.

(** One call of [save_image]: it always answers; at capacity it answers 400
    and changes nothing in the folder; below capacity it leaves at most
    [MAX_IMAGES] images. *)
Lemma save_image_step (ev : env) (req : request) (w : world)
    (r : result response) (w' : world) :
  wf_dir (dir w) = true ->
  save_image cfg ev req w = (r, w') ->
  wf_dir (dir w') = true
  /\ exists b s, r = Ok (b, s)
     /\ ((MAX_IMAGES cfg <= image_count cfg (dir w))%Z ->
         s = 400%Z /\ dir w' = dir w)
     /\ ((image_count cfg (dir w) < MAX_IMAGES cfg)%Z ->
         (image_count cfg (dir w') <= MAX_IMAGES cfg)%Z).
Proof.
  intros Hwf H. unfold save_image, try_except in H. unfold bind at 1 in H.
  rewrite (get_storage_info_spec cfg w Hwf) in H.
  cbn [summary total_images] in H.
  set (w1 := add_trace w (scan_trace cfg (dir w))) in H.
  assert (Hwf1 : wf_dir (dir w1) = true) by exact Hwf.
  destruct (image_count cfg (dir w) >=? MAX_IMAGES cfg)%Z eqn:Hfull.
  - rewrite Z.geb_leb, Z.leb_le in Hfull. injection H as <- <-.
    split; [exact Hwf|]. do 2 eexists. split; [reflexivity|].
    split; [now split | lia].
  - rewrite Z.geb_leb, Z.leb_gt in Hfull.
    assert (Hlocal : forall data r0 w0,
      bind (save_image_locally cfg (clock ev) data (generate_filename ev))
           (fun result =>
              if success result then ret (BSave result, 201%Z)
              else ret (BSave result, 400%Z)) w1 = (r0, w0) ->
      wf_dir (dir w0) = true
      /\ exists b s, r0 = Ok (b, s)
         /\ (image_count cfg (dir w0) <= MAX_IMAGES cfg)%Z).
    { intros data r0 w0 H0. unfold bind in H0.
      destruct (save_image_locally cfg (clock ev) data
                  (generate_filename ev) w1) as [r1 w2] eqn:Hl.
      destruct (save_image_locally_spec _ _ _ _ _ _ Hwf1 Hl)
        as ([res ->] & Hw & Hc).
      change (dir w1) with (dir w) in Hc. unfold ret in H0.
      destruct (success res); injection H0 as <- <-;
        (split; [exact Hw|]); do 2 eexists;
        (split; [reflexivity | lia]). }
    assert (Hsame : (image_count cfg (dir w1) <= MAX_IMAGES cfg)%Z)
      by (change (dir w1) with (dir w); lia).
    destruct (json_imageData req) as [image_data|].
    + destruct (bind _ _ w1) as [r1 w2] eqn:Hb in H.
      destruct (Hlocal _ _ _ Hb) as (Hw & b & s & -> & Hc).
      injection H as <- <-.
      split; [exact Hw|]. do 2 eexists. split; [reflexivity|].
      split; [lia | intros _; exact Hc].
    + destruct (files_image req) as [file|].
      * destruct (allowed_file cfg (upload_filename file)).
        -- destruct (bind _ _ w1) as [r1 w2] eqn:Hb in H.
           destruct (Hlocal _ _ _ Hb) as (Hw & b & s & -> & Hc).
           injection H as <- <-.
           split; [exact Hw|]. do 2 eexists. split; [reflexivity|].
           split; [lia | intros _; exact Hc].
        -- injection H as <- <-. split; [exact Hwf|]. do 2 eexists.
           split; [reflexivity|]. split; [lia | intros _; exact Hsame].
      * injection H as <- <-. split; [exact Hwf|]. do 2 eexists.
        split; [reflexivity|]. split; [lia | intros _; exact Hsame].
Qed.

End Save.

(** * The claims *)

(** ** Usage summary *)

(** C8: for every state of the store, [get_storage_info] computes the count
    and the total size from a fresh scan of the upload folder (one listing,
    then one stat for each entry with an allowed extension), reports
    [max_images] and [remaining_slots = max(0, MAX_IMAGES - count)], and
    leaves the folder as it is; two states with the same folder give the
    same summary, whatever else they hold: no counter is kept. *)
Theorem usage_summary_fresh_scan (cfg : config) (w : world) :
  wf_dir (dir w) = true ->
  get_storage_info cfg w =
  (Ok {| total_images :=
           Z.of_nat (List.length
                       (filter (fun f => allowed_file cfg (name f)) (dir w)));
         total_size_bytes :=
           sum_sizes (filter (fun f => allowed_file cfg (name f)) (dir w));
         max_images := MAX_IMAGES cfg;
         remaining_slots :=
           Z.max 0
             (MAX_IMAGES cfg
              - Z.of_nat (List.length
                  (filter (fun f => allowed_file cfg (name f)) (dir w)))) |},
   World (dir w) (logs w)
         (trace w
          ++ SysListdir (UPLOAD_FOLDER cfg)
             :: map (fun f => SysStat
                                (Py.os_path_join (UPLOAD_FOLDER cfg) (name f)))
                    (filter (fun f => allowed_file cfg (name f)) (dir w))))
  /\ (forall w2, dir w2 = dir w ->
        fst (get_storage_info cfg w2) = fst (get_storage_info cfg w)).
Proof.
  intros Hwf. split.
  - exact (get_storage_info_spec cfg w Hwf).
  - intros w2 Hd. rewrite !get_storage_info_spec; [|exact Hwf|now rewrite Hd].
    cbn [fst]. now rewrite Hd.
Qed.

Lemma usage_summary_fresh_scan_witness :
  wf_dir (dir sample_world) = true /\
  fst (get_storage_info (small_config 5) sample_world) =
  Ok {| total_images := 2; total_size_bytes := 3;
        max_images := 5; remaining_slots := 3 |}.
Proof.
  split; [reflexivity|].
  destruct (usage_summary_fresh_scan (small_config 5) sample_world eq_refl)
    as [H _].
  rewrite H. reflexivity.
Defined.

(** ** Capacity precheck *)

(** C5: for every state of the store whose image count is already at least
    [MAX_IMAGES], [save_image] answers 400 with the storage-limit error
    whatever the request carries and whatever the image library would do
    with it; it performs the scan of the usage summary and nothing else (no
    write, no removal), so the folder and the usage summary are as
    before. *)
Theorem save_rejected_at_capacity {pil : PIL} (cfg : config) (ev : env)
    (req : request) (w : world) :
  wf_dir (dir w) = true ->
  (MAX_IMAGES cfg <= image_count cfg (dir w))%Z ->
  save_image cfg ev req w =
  (Ok (BError ("Storage limit reached. Maximum "
               ++ Py.str_int (MAX_IMAGES cfg) ++ " images allowed."),
       400%Z),
   add_trace w (scan_trace cfg (dir w)))
  /\ dir (snd (save_image cfg ev req w)) = dir w
  /\ logs (snd (save_image cfg ev req w)) = logs w
  /\ fst (get_storage_info cfg (snd (save_image cfg ev req w))) =
     fst (get_storage_info cfg w).
Proof.
  intros Hwf Hfull.
  assert (H : save_image cfg ev req w =
              (Ok (BError ("Storage limit reached. Maximum "
                           ++ Py.str_int (MAX_IMAGES cfg)
                           ++ " images allowed."), 400%Z),
               add_trace w (scan_trace cfg (dir w)))).
  { unfold save_image, try_except. unfold bind at 1.
    rewrite (get_storage_info_spec cfg w Hwf). cbn [summary total_images].
    assert (Hge : (image_count cfg (dir w) >=? MAX_IMAGES cfg)%Z = true)
      by (apply Z.geb_le; lia).
    rewrite Hge. reflexivity. }
  rewrite H. cbn [snd]. repeat split.
  rewrite !get_storage_info_spec; [reflexivity | exact Hwf | exact Hwf].
Qed.

Lemma save_rejected_at_capacity_witness :
  wf_dir (dir sample_world) = true /\
  (MAX_IMAGES (small_config 2)
   <= image_count (small_config 2) (dir sample_world))%Z /\
  fst (@save_image raw_images (small_config 2) sample_env
         (Request (Some (JString "QUJD")) None) sample_world) =
  Ok (BError "Storage limit reached. Maximum 2 images allowed.", 400%Z).
Proof.
  split; [reflexivity|]. split; [vm_compute; discriminate|].
  destruct (@save_rejected_at_capacity raw_images (small_config 2) sample_env
              (Request (Some (JString "QUJD")) None) sample_world eq_refl)
    as [H _].
  - vm_compute; discriminate.
  - rewrite H. reflexivity.
Defined.

(** ** Filename safety check *)

(** C4: for every filename that contains [..] or begins with [/], both
    [get_image] and [delete_image] answer 400 "Invalid filename" and leave
    the state exactly as it was: no file-system call is made, so nothing
    inside or outside the upload folder is read or deleted. *)
Theorem path_traversal_rejected (cfg : config) (filename : string)
    (w : world) :
  (exists a b, filename = (a ++ ".." ++ b)%string)
  \/ (exists b, filename = ("/" ++ b)%string) ->
  get_image cfg filename w = (Ok (BError "Invalid filename", 400%Z), w)
  /\ delete_image cfg filename w = (Ok (BError "Invalid filename", 400%Z), w).
Proof.
  intros H.
  assert (Hu : unsafe_filename filename = true).
  { unfold unsafe_filename. apply orb_true_iff. destruct H as [H|H].
    - left. now apply str_in_iff.
    - right. now apply prefix_iff. }
  unfold get_image, delete_image, try_except. rewrite Hu. now split.
Qed.

Lemma path_traversal_rejected_witness :
  get_image app_config "../etc/passwd" sample_world =
    (Ok (BError "Invalid filename", 400%Z), sample_world)
  /\ delete_image app_config "../etc/passwd" sample_world =
    (Ok (BError "Invalid filename", 400%Z), sample_world).
Proof.
  apply (path_traversal_rejected app_config "../etc/passwd" sample_world).
  left. exists ""%string, "/etc/passwd"%string. reflexivity.
Defined.

Example absolute_path_rejected :
  get_image app_config "/etc/passwd" sample_world =
    (Ok (BError "Invalid filename", 400%Z), sample_world)
  /\ delete_image app_config "/etc/passwd" sample_world =
    (Ok (BError "Invalid filename", 400%Z), sample_world).
Proof. split; reflexivity. Qed.

(** No handler reaches outside the upload folder: whatever the filename,
    each file-system call of [get_image] and [delete_image] is given a path
    that leads into the folder. *)

Section Inside.

Variable cfg : config.

Let inside (c : syscall) : Prop :=
  Os.resolve (UPLOAD_FOLDER cfg) (syscall_path c) <> TOutside.

Lemma exists_trace (path : string) (w : world) :
  exists b, Os.path_exists (UPLOAD_FOLDER cfg) path w =
            (Ok b, add_trace w [SysStat path]).
Proof.
  unfold Os.path_exists, Os.stat, try_except, bind, syscall_, get_dir,
    ret, raise, add_trace.
  cbn [dir].
  destruct (Os.resolve (UPLOAD_FOLDER cfg) path) as [|n| |];
    try (eexists; reflexivity).
  destruct (Os.find_file n (dir w)); eexists; reflexivity.
Qed.

Lemma read_trace (path : string) (w : world) :
  exists r, Os.read (UPLOAD_FOLDER cfg) path w =
            (r, add_trace w [SysRead path]).
Proof.
  unfold Os.read, bind, syscall_, get_dir, ret, raise, add_trace.
  cbn [dir].
  destruct (Os.resolve (UPLOAD_FOLDER cfg) path) as [|n| |];
    try (eexists; reflexivity).
  destruct (Os.find_file n (dir w)); eexists; reflexivity.
Qed.

Lemma remove_trace (path : string) (w : world) :
  exists r d, Os.remove (UPLOAD_FOLDER cfg) path w =
              (r, World d (logs w) (trace w ++ [SysUnlink path])).
Proof.
  unfold Os.remove, bind, syscall_, get_dir, put_dir, ret, raise.
  cbn [dir logs trace].
  destruct (Os.resolve (UPLOAD_FOLDER cfg) path) as [|n| |];
    try (do 2 eexists; reflexivity).
  destruct (Os.find_file n (dir w)) as [f|]; [|do 2 eexists; reflexivity].
  destruct (locked f); do 2 eexists; reflexivity.
Qed.

(** X21: whatever the filename, every file-system call [get_image] makes
    is given a path that leads into the upload folder: a rejected name
    causes no call at all, an accepted one only calls on its own path under
    the folder. *)
Theorem get_image_stays_inside (filename : string) (w : world) :
  exists calls,
    trace (snd (get_image cfg filename w)) = trace w ++ calls
    /\ Forall inside calls.
Proof.
  unfold get_image, try_except.
  destruct (unsafe_filename filename) eqn:Hu.
  - exists []. cbn. now rewrite app_nil_r.
  - apply orb_false_iff in Hu as [Hdots Hrel].
    pose proof (safe_filename_inside (UPLOAD_FOLDER cfg) _ Hdots Hrel) as Hin.
    set (p := Py.os_path_join (UPLOAD_FOLDER cfg) filename) in *.
    unfold bind at 1. destruct (exists_trace p w) as [b ->].
    destruct b; cbn [negb].
    + unfold bind at 1.
      destruct (read_trace p (add_trace w [SysStat p])) as [r ->].
      exists [SysStat p; SysRead p]. split.
      * destruct r; cbn; now rewrite <- app_assoc.
      * now repeat constructor.
    + exists [SysStat p]. split; [reflexivity | now repeat constructor].
Qed.

(** X22: whatever the filename, every file-system call [delete_image]
    makes (the existence test and the removal) is given a path that leads
    into the upload folder, so nothing outside the folder is ever
    removed. *)
Theorem delete_image_stays_inside (filename : string) (w : world) :
  exists calls,
    trace (snd (delete_image cfg filename w)) = trace w ++ calls
    /\ Forall inside calls.
Proof.
  unfold delete_image, try_except.
  destruct (unsafe_filename filename) eqn:Hu.
  - exists []. cbn. now rewrite app_nil_r.
  - apply orb_false_iff in Hu as [Hdots Hrel].
    pose proof (safe_filename_inside (UPLOAD_FOLDER cfg) _ Hdots Hrel) as Hin.
    set (p := Py.os_path_join (UPLOAD_FOLDER cfg) filename) in *.
    unfold bind at 1. destruct (exists_trace p w) as [b ->].
    destruct b; cbn [negb].
    + unfold bind at 1.
      destruct (remove_trace p (add_trace w [SysStat p])) as [r [d ->]].
      exists [SysStat p; SysUnlink p]. split.
      * destruct r; cbn; now rewrite <- app_assoc.
      * now repeat constructor.
    + exists [SysStat p]. split; [reflexivity | now repeat constructor].
Qed.

End Inside.

(** ** Decoding the payload *)

Lemma a2b_loop_raises (s : string) :
  forall quad_pos leftchar pads out e,
  Base64.a2b_loop s quad_pos leftchar pads out = Raise e ->
  exn_cls e = BinasciiError.
Proof.
  induction s as [|c s IH]; intros quad_pos leftchar pads out e;
    cbn [Base64.a2b_loop].
  - destruct quad_pos as [|[|q]]; intros H; [discriminate| |];
      injection H as <-; reflexivity.
  - destruct (Ascii.eqb c Base64.BASE64_PAD).
    + destruct (2 <=? quad_pos)%nat; [|apply IH].
      destruct (4 <=? quad_pos + S pads)%nat; [discriminate | apply IH].
    + destruct (Base64.a2b_value c); [|apply IH].
      destruct quad_pos as [|[|[|q]]]; apply IH.
Qed.

(** [b64decode] fails with [binascii.Error], or with [ValueError] on
    non-ASCII text. *)
Lemma b64decode_raises (s : string) (e : exn) :
  Base64.b64decode s = Raise e ->
  exn_cls e = BinasciiError \/ exn_cls e = ValueError.
Proof.
  unfold Base64.b64decode, Base64.a2b_base64.
  destruct (Base64.is_ascii s).
  - intros H. left. exact (a2b_loop_raises _ _ _ _ _ _ H).
  - intros H. injection H as <-. now right.
Qed.

(** C9: for every text that begins with the data-URL prefix [data:image...,]
    and carries after the first comma a payload without a comma (as every
    base64 text is), the bytes [save_image_locally] decodes are the base64
    decoding of the payload, the prefix up to and including the first comma
    being dropped; every text that does not begin with [data:image] is
    decoded as it is. *)
Theorem data_url_prefix_stripped (mid payload bare : string) :
  Py.str_in "," mid = false ->
  Py.str_in "," payload = false ->
  Py.startswith bare "data:image" = false ->
  strip_data_url (JString ("data:image" ++ mid ++ "," ++ payload)) =
    Ok (JString payload)
  /\ decode_image_data (JString ("data:image" ++ mid ++ "," ++ payload)) =
     Base64.b64decode payload
  /\ decode_image_data (JString bare) = Base64.b64decode bare.
Proof.
  intros Hmid Hpay Hbare.
  assert (Hstrip :
    strip_data_url (JString ("data:image" ++ mid ++ "," ++ payload)) =
    Ok (JString payload)).
  { unfold strip_data_url.
    assert (Hsw : Py.startswith ("data:image" ++ mid ++ "," ++ payload)
                                "data:image" = true)
      by apply prefix_app.
    rewrite Hsw.
    assert (Hpre : Py.str_in "," ("data:image" ++ mid)%string = false).
    { destruct (Py.str_in "," ("data:image" ++ mid)%string) eqn:E;
        [|reflexivity].
      apply str_in_iff in E as [a [b E]].
      assert (Hc : Py.str_in "," mid = true); [|congruence].
      apply str_in_iff.
      do 10 (destruct a as [|? a]; [discriminate|];
             injection E as <- E).
      now exists a, b. }
    change ("data:image" ++ mid ++ "," ++ payload)%string
      with ("data:image" ++ (mid ++ String "," payload))%string.
    rewrite <- append_assoc, split_app.
    rewrite (split_no_sep _ _ Hpre), (split_no_sep _ _ Hpay). reflexivity. }
  split; [exact Hstrip|]. split.
  - unfold decode_image_data. now rewrite Hstrip.
  - unfold decode_image_data, strip_data_url. now rewrite Hbare.
Qed.

Lemma data_url_prefix_stripped_witness :
  decode_image_data (JString "data:image/png;base64,QUJD") =
    Ok [x41; x42; x43]
  /\ decode_image_data (JString "QUJD") = Ok [x41; x42; x43].
Proof.
  destruct (data_url_prefix_stripped "/png;base64" "QUJD" "QUJD"
              eq_refl eq_refl eq_refl) as (_ & H1 & H2).
  split; [exact H1 | exact H2].
Defined.

(** ** Decode failure *)

Section DecodeFailure.

Context {pil : PIL}.
Variable cfg : config.

(** A payload that cannot be decoded is reported and logged; no
    file-system call is made. *)
Lemma save_image_locally_undecodable (now : Z) (image_data : json_value)
    (filename : string) (e : exn) (w : world) :
  decode_image_data image_data = Raise e ->
  save_image_locally cfg now image_data filename w =
  (Ok (NotSaved ("Failed to save image: " ++ str e)),
   add_log w ERROR ("Error saving image: " ++ str e)).
Proof.
  intros H. unfold save_image_locally, try_except, save_image_write.
  unfold bind at 1. unfold bind at 1. unfold lift. rewrite H. reflexivity.
Qed.

End DecodeFailure.

(** C6, as the specification states it, fails: [stray_payload] is not
    base64 (it holds a [!], which is outside the alphabet), yet
    [base64.b64decode] skips the stray character and yields the bytes of the
    one-pixel PNG; the save answers 201 and a file is created. *)
Lemma stray_character_accepted :
  Base64.a2b_value "!" = None
  /\ Py.str_in "!" stray_payload = true
  /\ Base64.b64decode stray_payload =
     Base64.b64decode one_pixel_png_base64
  /\ (exists bs, Base64.b64decode stray_payload = Ok bs
                 /\ List.length bs = 67%nat
                 /\ firstn 4 bs = [x89; x50; x4e; x47])
  /\ (exists r, fst (@save_image raw_images (small_config 5) sample_env
                       (Request (Some (JString stray_payload)) None)
                       sample_world) = Ok (BSave r, 201%Z)
                /\ success r = true)
  /\ map name (dir (snd (@save_image raw_images (small_config 5) sample_env
                           (Request (Some (JString stray_payload)) None)
                           sample_world))) =
     ["b.png"; "a.png"; "notes.txt";
      "nexus_edit_20240101_000000_deadbeef.png"]
  /\ image_count (small_config 5)
       (dir (snd (@save_image raw_images (small_config 5) sample_env
                    (Request (Some (JString stray_payload)) None)
                    sample_world))) = 3%Z.
Proof.
  split; [reflexivity|]. split; [reflexivity|]. split; [reflexivity|].
  split; [eexists; split; [vm_compute; reflexivity|]; split; reflexivity|].
  split; [eexists; split; [vm_compute; reflexivity | reflexivity]|].
  split; vm_compute; reflexivity.
Qed.

(** C6, amended: for every payload whose base64 text (after the data-URL
    prefix, if any, is dropped) is rejected by [base64.b64decode] (wrong
    padding, a number of data characters that is 1 more than a multiple of
    4, or non-ASCII text), a save against a store with room left answers 400
    with the decoder's error ("Failed to save image: ..." carrying a
    [binascii.Error] or a [ValueError]); the only file-system calls are
    those of the usage scan, no file is created, and the usage summary after
    the call is the one before it.  Characters outside the alphabet do not
    make the decoder fail: it skips them. *)
Theorem malformed_base64_rejected {pil : PIL} (cfg : config) (ev : env)
    (payload b64 : string) (e : exn) (upl : option upload) (w : world) :
  strip_data_url (JString payload) = Ok (JString b64) ->
  Base64.b64decode b64 = Raise e ->
  wf_dir (dir w) = true ->
  (image_count cfg (dir w) < MAX_IMAGES cfg)%Z ->
  save_image cfg ev (Request (Some (JString payload)) upl) w =
  (Ok (BSave (NotSaved ("Failed to save image: " ++ str e)), 400%Z),
   add_log (add_trace w (scan_trace cfg (dir w)))
           ERROR ("Error saving image: " ++ str e))
  /\ (exn_cls e = BinasciiError \/ exn_cls e = ValueError)
  /\ dir (snd (save_image cfg ev (Request (Some (JString payload)) upl) w)) =
     dir w
  /\ fst (get_storage_info cfg
            (snd (save_image cfg ev
                    (Request (Some (JString payload)) upl) w))) =
     fst (get_storage_info cfg w).
Proof.
  intros Hstrip Hdec Hwf Hroom.
  assert (Hdata : decode_image_data (JString payload) = Raise e).
  { unfold decode_image_data. rewrite Hstrip. exact Hdec. }
  assert (H : save_image cfg ev (Request (Some (JString payload)) upl) w =
    (Ok (BSave (NotSaved ("Failed to save image: " ++ str e)), 400%Z),
     add_log (add_trace w (scan_trace cfg (dir w)))
             ERROR ("Error saving image: " ++ str e))).
  { unfold save_image, try_except. unfold bind at 1.
    rewrite (get_storage_info_spec cfg w Hwf). cbn [summary total_images].
    assert (Hlt : (image_count cfg (dir w) >=? MAX_IMAGES cfg)%Z = false).
    { rewrite Z.geb_leb. apply Z.leb_gt. lia. }
    rewrite Hlt. cbn [json_imageData]. unfold bind at 1.
    rewrite (save_image_locally_undecodable cfg _ _ _ _ _ Hdata).
    reflexivity. }
  rewrite H. cbn [snd]. repeat split.
  - exact (b64decode_raises _ _ Hdec).
  - rewrite !get_storage_info_spec; [reflexivity | exact Hwf | exact Hwf].
Qed.

Lemma malformed_base64_rejected_witness :
  strip_data_url (JString "data:image/png;base64,QUJ") = Ok (JString "QUJ")
  /\ Base64.b64decode "QUJ" = Raise Base64.err_padding
  /\ wf_dir (dir sample_world) = true
  /\ (image_count (small_config 5) (dir sample_world)
      < MAX_IMAGES (small_config 5))%Z
  /\ fst (@save_image raw_images (small_config 5) sample_env
            (Request (Some (JString "data:image/png;base64,QUJ")) None)
            sample_world) =
     Ok (BSave (NotSaved "Failed to save image: Incorrect padding"), 400%Z)
  /\ dir (snd (@save_image raw_images (small_config 5) sample_env
            (Request (Some (JString "data:image/png;base64,QUJ")) None)
            sample_world)) = sample_dir.
Proof.
  assert (Hroom : (image_count (small_config 5) (dir sample_world)
                   < MAX_IMAGES (small_config 5))%Z) by reflexivity.
  destruct (@malformed_base64_rejected raw_images (small_config 5) sample_env
              "data:image/png;base64,QUJ" "QUJ" Base64.err_padding None
              sample_world eq_refl eq_refl eq_refl Hroom)
    as (H1 & _ & H2 & _).
  split; [reflexivity|]. split; [reflexivity|]. split; [reflexivity|].
  split; [exact Hroom|]. split; [now rewrite H1 | exact H2].
Defined.

(** ** Eviction *)

(** C3, as the specification states it, fails: with the oldest image
    [a.png] locked and a limit of 1, the candidates are [a.png] and [b.png];
    the failure on [a.png] ends the loop, and [b.png], which could be
    removed, stays. *)
Lemma eviction_aborts_on_failure :
  candidates (small_config 1) locked_dir =
    [File "a.png" [x00] 1 true; File "b.png" [x01] 2 false]
  /\ cleanup_old_images (small_config 1) locked_world =
     (Ok tt,
      World locked_dir
        [(ERROR, "Error during cleanup: [Errno 13] Permission denied: 'uploads/a.png'")]
        [SysListdir "uploads"; SysStat "uploads/a.png";
         SysStat "uploads/b.png"; SysStat "uploads/c.png";
         SysUnlink "uploads/a.png"])
  /\ In (File "b.png" [x01] 2 false)
        (dir (snd (cleanup_old_images (small_config 1) locked_world))).
Proof. vm_compute. repeat split. right. now left. Qed.

(** C3, amended: a candidate that cannot be removed never makes
    [cleanup_old_images] raise; the failure is logged as an error and ends
    the pass: the candidates before the failing one are removed, the failing
    one and all candidates after it stay. *)
Theorem eviction_failure_logged_and_final (cfg : config) (w : world)
    (removed later : list file) (f : file) :
  wf_dir (dir w) = true ->
  candidates cfg (dir w) = removed ++ f :: later ->
  forallb (fun g => negb (locked g)) removed = true ->
  locked f = true ->
  cleanup_old_images cfg w =
  (Ok tt,
   World (without removed (dir w))
         (logs w
          ++ map (fun g => (INFO, ("Removed old image: " ++ name g)%string))
                 removed
          ++ [(ERROR,
               ("Error during cleanup: "
                ++ str (Os.permission_denied (image_path cfg f)))%string)])
         (trace w ++ scan_trace cfg (dir w)
          ++ map (fun g => SysUnlink (image_path cfg g)) (removed ++ [f])))
  /\ (forall g, In g removed -> ~ In g (without removed (dir w)))
  /\ In f (without removed (dir w))
  /\ (forall g, In g later -> In g (without removed (dir w))).
Proof.
  intros Hwf Hc Hun Hf.
  destruct (unlocked_prefix_app removed later f Hun Hf) as [Hup Hfl].
  split.
  - rewrite (cleanup_old_images_spec cfg w Hwf).
    unfold cleanup_logs, cleanup_trace, cleanup_failure, evicted.
    now rewrite Hc, Hup, Hfl.
  - pose proof (candidates_NoDup cfg _ Hwf) as Hnd.
    pose proof (candidates_incl cfg (dir w)) as Hincl.
    rewrite Hc in Hnd, Hincl. rewrite map_app in Hnd.
    assert (Hstay : forall g, In g (f :: later) ->
                    In g (without removed (dir w))).
    { intros g Hg. apply without_In. split.
      - apply Hincl, in_or_app. now right.
      - intros Hin. apply (NoDup_app_disjoint _ _ Hnd _ Hin).
        now apply in_map. }
    repeat split.
    + intros g Hg Hin. apply without_In in Hin as [_ Hin]. apply Hin.
      now apply in_map.
    + apply Hstay. now left.
    + intros g Hg. apply Hstay. now right.
Qed.

Lemma eviction_failure_logged_and_final_witness :
  wf_dir (dir locked_world) = true
  /\ dir (snd (cleanup_old_images (small_config 1) locked_world)) =
     locked_dir
  /\ In (File "b.png" [x01] 2 false) (without [] (dir locked_world)).
Proof.
  destruct (eviction_failure_logged_and_final (small_config 1) locked_world
              [] [File "b.png" [x01] 2 false] (File "a.png" [x00] 1 true)
              eq_refl eq_refl eq_refl eq_refl) as (H1 & _ & _ & H2).
  split; [reflexivity|]. split.
  - rewrite H1. reflexivity.
  - apply H2. now left.
Defined.

(** C2, as the specification states it, fails: [b.png] and [a.png] have the
    same modification time and [b.png] is listed first; with a limit of 1
    the code removes [b.png], while the order of the specification (ties by
    file name ascending) removes [a.png]. *)
Lemma eviction_tie_by_listing_order :
  dir (snd (cleanup_old_images (small_config 1) sample_world)) =
    [File "a.png" [x01; x02] 1 false; File "notes.txt" [x03] 0 false]
  /\ spec_evict (images (small_config 1) sample_dir) 1 =
     [File "a.png" [x01; x02] 1 false]
  /\ dir (snd (cleanup_old_images (small_config 1) sample_world)) <>
     without (spec_evict (images (small_config 1) sample_dir) 1) sample_dir.
Proof. vm_compute. repeat split. discriminate. Qed.

(** C2, amended: when the image count exceeds a non-negative limit and no
    removal fails, [cleanup_old_images] removes exactly [count - limit]
    images, the first ones of the images sorted by modification time
    ascending with equal times kept in directory-listing order: no removed
    image is newer than an image that stays, and a removed image as old as
    one that stays was listed before it. *)
Theorem eviction_oldest_first (cfg : config) (w : world) :
  wf_dir (dir w) = true ->
  (0 <= MAX_IMAGES cfg)%Z ->
  forallb (fun g => negb (locked g)) (candidates cfg (dir w)) = true ->
  let d := dir w in
  let d' := dir (snd (cleanup_old_images cfg w)) in
  d' = without (candidates cfg d) d
  /\ candidates cfg d =
     firstn (Z.to_nat (image_count cfg d - MAX_IMAGES cfg))
            (sort_by_key mtime (images cfg d))
  /\ Z.of_nat (List.length (candidates cfg d)) =
     Z.max 0 (image_count cfg d - MAX_IMAGES cfg)
  /\ image_count cfg d' = Z.min (image_count cfg d) (MAX_IMAGES cfg)
  /\ (forall r, In r (candidates cfg d) -> In r d /\ ~ In r d')
  /\ (forall r k, In r (candidates cfg d) -> In k (images cfg d') ->
        (mtime r <= mtime k)%Z)
  /\ (forall r k, In r (candidates cfg d) -> In k (images cfg d') ->
        mtime r = mtime k -> precedes r k d).
Proof.
  intros Hwf Hlim Hun d d'.
  assert (Hd' : d' = without (candidates cfg d) d).
  { unfold d'. rewrite (cleanup_old_images_spec cfg w Hwf). cbn [snd dir].
    unfold evicted. now rewrite (forallb_unlocked_prefix _ Hun). }
  destruct (candidates_prefix cfg d) as [rest Hrest].
  pose proof (oldest_first_without cfg d _ _ Hwf Hrest) as Hs'.
  rewrite <- Hd' in Hs'.
  pose proof (image_count_nonneg cfg d) as Hpos.
  assert (Hcand : candidates cfg d =
            firstn (Z.to_nat (image_count cfg d - MAX_IMAGES cfg))
                   (sort_by_key mtime (images cfg d))).
  { unfold candidates.
    destruct (image_count cfg d >? MAX_IMAGES cfg)%Z eqn:E; [reflexivity|].
    rewrite Z.gtb_ltb, Z.ltb_ge in E.
    replace (Z.to_nat _) with 0%nat by lia. reflexivity. }
  assert (Hlen : Z.of_nat (List.length (candidates cfg d)) =
                 Z.max 0 (image_count cfg d - MAX_IMAGES cfg)).
  { rewrite Hcand, length_firstn. fold (oldest_first cfg d).
    pose proof (oldest_first_length cfg d). lia. }
  assert (Hkeep : forall k, In k (images cfg d') -> In k rest).
  { intros k Hk. rewrite <- Hs'.
    exact (Permutation_in _ (Permutation_sym (oldest_first_perm cfg d')) Hk). }
  split; [exact Hd'|]. split; [exact Hcand|]. split; [exact Hlen|].
  split; [|split; [|split]].
  - pose proof (oldest_first_length cfg d) as H1.
    pose proof (oldest_first_length cfg d') as H2.
    rewrite Hrest, length_app in H1. rewrite Hs' in H2. lia.
  - intros r Hr. split; [now apply (candidates_incl cfg d)|].
    rewrite Hd'. intros Hin. apply without_In in Hin as [_ Hin].
    apply Hin. now apply in_map.
  - intros r k Hr Hk.
    pose proof (sort_by_key_sorted _ mtime (images cfg d)) as Hsorted.
    fold (oldest_first cfg d) in Hsorted. rewrite Hrest in Hsorted.
    exact (StronglySorted_app_inv _ _ _ Hsorted r k Hr (Hkeep k Hk)).
  - intros r k Hr Hk Heq.
    assert (Hp : precedes r k (oldest_first cfg d)).
    { rewrite Hrest. apply precedes_app; [exact Hr | now apply Hkeep]. }
    apply (precedes_filter (fun x => (mtime x =? mtime k)%Z)) in Hp.
    + unfold oldest_first in Hp. rewrite sort_by_key_stable in Hp.
      apply precedes_filter_inv in Hp.
      unfold images in Hp. now apply precedes_filter_inv in Hp.
    + now apply Z.eqb_eq.
    + apply Z.eqb_refl.
Qed.

Lemma eviction_oldest_first_witness :
  wf_dir (dir sample_world) = true
  /\ (0 <= MAX_IMAGES (small_config 1))%Z
  /\ dir (snd (cleanup_old_images (small_config 1) sample_world)) =
     [File "a.png" [x01; x02] 1 false; File "notes.txt" [x03] 0 false]
  /\ precedes (File "b.png" [x00] 1 false)
              (File "a.png" [x01; x02] 1 false) (dir sample_world).
Proof.
  assert (Hlim : (0 <= MAX_IMAGES (small_config 1))%Z) by (simpl; lia).
  destruct (eviction_oldest_first (small_config 1) sample_world
              eq_refl Hlim eq_refl) as (H1 & _ & _ & _ & _ & _ & H2).
  split; [reflexivity|]. split; [exact Hlim|]. split.
  - rewrite H1. reflexivity.
  - apply H2; [now left | | reflexivity].
    rewrite H1. vm_compute. now left.
Defined.

(** C7: for every state of the store, two calls of [cleanup_images] in
    succession both answer 200 with the same usage summary, and the second
    call leaves the folder as the first call left it: it removes
    nothing. *)
Theorem cleanup_idempotent (cfg : config) (w : world) :
  wf_dir (dir w) = true ->
  let r1 := cleanup_images cfg w in
  let r2 := cleanup_images cfg (snd r1) in
  fst r1 = Ok (BCleanup "Cleanup completed" (summary cfg (dir (snd r1))),
               200%Z)
  /\ fst r2 = fst r1
  /\ dir (snd r2) = dir (snd r1)
  /\ fst (get_storage_info cfg (snd r2)) =
     fst (get_storage_info cfg (snd r1)).
Proof.
  intros Hwf.
  assert (Hstep : forall w0, wf_dir (dir w0) = true ->
    exists lg tr,
    cleanup_images cfg w0 =
    (Ok (BCleanup "Cleanup completed"
           (summary cfg (without (evicted cfg (dir w0)) (dir w0))), 200%Z),
     World (without (evicted cfg (dir w0)) (dir w0)) lg tr)).
  { intros w0 H0. unfold cleanup_images, try_except. unfold bind at 1.
    rewrite (cleanup_old_images_spec cfg w0 H0). unfold bind at 1.
    rewrite get_storage_info_spec by (now apply wf_dir_without).
    do 2 eexists. reflexivity. }
  destruct (Hstep w Hwf) as (lg1 & tr1 & H1).
  intros r1 r2. unfold r2, r1. rewrite H1. cbn [fst snd dir].
  set (w1 := World _ lg1 tr1).
  assert (Hwf1 : wf_dir (dir w1) = true) by (now apply wf_dir_without).
  destruct (Hstep w1 Hwf1) as (lg2 & tr2 & H2).
  rewrite H2. cbn [fst snd dir]. unfold w1. cbn [dir].
  rewrite (evicted_again cfg _ Hwf), without_nil.
  repeat split.
  rewrite !get_storage_info_spec; [reflexivity | exact Hwf1 |].
  now apply wf_dir_without.
Qed.

Lemma cleanup_idempotent_witness :
  wf_dir (dir locked_world) = true
  /\ fst (cleanup_images (small_config 1)
            (snd (cleanup_images (small_config 1) locked_world))) =
     fst (cleanup_images (small_config 1) locked_world).
Proof.
  destruct (cleanup_idempotent (small_config 1) locked_world eq_refl)
    as (_ & H & _).
  split; [reflexivity | exact H].
Defined.

(** ** Capacity *)

Lemma save_sequence_bounded {pil : PIL} (cfg : config)
    (reqs : list (env * request)) :
  forall w, wf_dir (dir w) = true ->
  Forall (fun r => forall b, fst r = Ok (b, 201%Z) ->
            (image_count cfg (dir (snd r)) <= MAX_IMAGES cfg)%Z)
         (save_sequence cfg reqs w)
  /\ ((image_count cfg (dir w) <= MAX_IMAGES cfg)%Z ->
      Forall (fun r => (image_count cfg (dir (snd r)) <= MAX_IMAGES cfg)%Z)
             (save_sequence cfg reqs w)).
Proof.
  induction reqs as [|[ev req] reqs IH]; intros w Hwf.
  - split; [constructor | intros _; constructor].
  - cbn [save_sequence].
    destruct (save_image cfg ev req w) as [r w'] eqn:Hs.
    destruct (save_image_step cfg ev req w r w' Hwf Hs)
      as (Hwf' & b & s & -> & Hfull & Hroom).
    cbn [snd]. destruct (IH w' Hwf') as [IH1 IH2].
    assert (Hcases : (MAX_IMAGES cfg <= image_count cfg (dir w))%Z
                     \/ (image_count cfg (dir w) < MAX_IMAGES cfg)%Z) by lia.
    split.
    + constructor; [|exact IH1]. cbn [fst snd]. intros b0 Hb.
      injection Hb as _ ->. destruct Hcases as [Hc|Hc].
      * destruct (Hfull Hc) as [H400 _]. discriminate.
      * exact (Hroom Hc).
    + intros Hle.
      assert (Hle' : (image_count cfg (dir w') <= MAX_IMAGES cfg)%Z).
      { destruct Hcases as [Hc|Hc].
        - destruct (Hfull Hc) as [_ ->]. exact Hle.
        - exact (Hroom Hc). }
      constructor; [exact Hle' | exact (IH2 Hle')].
Qed.

(** C1: for every run of save requests handled one after the other, from
    every state of the store, the number of stored images is at most
    [MAX_IMAGES] after each save that completed (answered 201); if the store
    starts within the limit it stays within the limit after every request of
    the run; and inside a save, between the write and the cleanup, the count
    exceeds the limit by at most one. *)
Theorem capacity_invariant {pil : PIL} (cfg : config)
    (reqs : list (env * request)) (w : world) :
  wf_dir (dir w) = true ->
  Forall (fun r => forall b, fst r = Ok (b, 201%Z) ->
            (image_count cfg (dir (snd r)) <= MAX_IMAGES cfg)%Z)
         (save_sequence cfg reqs w)
  /\ ((image_count cfg (dir w) <= MAX_IMAGES cfg)%Z ->
      Forall (fun r => (image_count cfg (dir (snd r)) <= MAX_IMAGES cfg)%Z)
             (save_sequence cfg reqs w))
  /\ (forall now image_data filename w0,
        wf_dir (dir w0) = true ->
        (image_count cfg (dir w0) <= MAX_IMAGES cfg)%Z ->
        (image_count cfg
           (dir (snd (save_image_write cfg now image_data filename w0)))
         <= MAX_IMAGES cfg + 1)%Z).
Proof.
  intros Hwf. destruct (save_sequence_bounded cfg reqs w Hwf) as [H1 H2].
  split; [exact H1|]. split; [exact H2|].
  intros now image_data filename w0 Hwf0 Hle.
  destruct (save_image_write cfg now image_data filename w0) as [r w'] eqn:E.
  destruct (save_image_write_spec cfg _ _ _ _ _ _ Hwf0 E) as (_ & Hc & _).
  cbn [snd]. lia.
Qed.

Lemma capacity_invariant_witness :
  wf_dir (dir sample_world) = true
  /\ Forall (fun r => (image_count (small_config 3) (dir (snd r)) <= 3)%Z)
       (@save_sequence raw_images (small_config 3)
          [(sample_env, Request (Some (JString "QUJD")) None);
           (sample_env, Request (Some (JString "QUJD")) None)]
          sample_world).
Proof.
  split; [reflexivity|].
  destruct (@capacity_invariant raw_images (small_config 3)
              [(sample_env, Request (Some (JString "QUJD")) None);
               (sample_env, Request (Some (JString "QUJD")) None)]
              sample_world eq_refl) as (_ & H & _).
  apply H. vm_compute. discriminate.
Defined.

(** ** Files that are not images *)

Section Listing.

Variable cfg : config.
Variable isoformat : Z -> string.

(** [list_images] reports the images, newest rendering first. *)
Lemma list_images_spec (w : world) :
  wf_dir (dir w) = true ->
  list_images cfg isoformat w =
  (Ok (BImages (listing cfg isoformat (dir w)) (image_count cfg (dir w)),
       200%Z),
   add_trace w
     (SysListdir (UPLOAD_FOLDER cfg)
      :: flat_map (fun f => [SysStat (image_path cfg f);
                             SysStat (image_path cfg f)])
                  (images cfg (dir w)))).
Proof.
  intros Hwf. unfold list_images, try_except. unfold bind at 1.
  rewrite listdir_spec. unfold bind at 1.
  rewrite (for_acc_scan cfg _
             (fun acc f => acc ++ [entry_of isoformat f])
             (fun f => [SysStat (image_path cfg f);
                        SysStat (image_path cfg f)]) (dir w)).
  - rewrite fold_left_snoc, add_trace_app. cbn [app ret].
    unfold listing, image_count, sort_by_str_reverse.
    rewrite stable_sort_length, length_map. reflexivity.
  - intros acc f w' Hw' Hf. unfold is_image.
    destruct (allowed_file cfg (name f)); [|reflexivity].
    unfold bind at 1. rewrite getsize_entry by (now rewrite Hw').
    unfold bind at 1.
    rewrite getmtime_entry
      by (unfold add_trace; cbn [dir]; now rewrite Hw').
    rewrite add_trace_app. reflexivity.
  - apply incl_refl.
  - reflexivity.
Qed.

Lemma listing_names (d : list file) (n : string) :
  In n (map entry_filename (listing cfg isoformat d)) ->
  allowed_file cfg n = true.
Proof.
  intros H. apply in_map_iff in H as [e [<- He]].
  unfold listing, sort_by_str_reverse in He.
  apply (Permutation_in _ (stable_sort_perm _ _ _)) in He.
  apply in_map_iff in He as [f [<- Hf]].
  apply filter_In in Hf as [_ Hf]. exact Hf.
Qed.

(** A file that is not an image does not count. *)
Lemma images_remove_other (d : list file) (n : string) :
  allowed_file cfg n = false ->
  images cfg (Os.remove_file n d) = images cfg d.
Proof.
  intros Hn. unfold images, Os.remove_file.
  induction d as [|f d IH]; simpl; [reflexivity|].
  destruct (String.eqb (name f) n) eqn:E; simpl.
  - apply String.eqb_eq in E. unfold is_image at 2. rewrite E, Hn. exact IH.
  - now rewrite IH.
Qed.

Lemma summary_remove_other (d : list file) (n : string) :
  allowed_file cfg n = false ->
  summary cfg (Os.remove_file n d) = summary cfg d.
Proof.
  intros Hn. unfold summary, image_count.
  now rewrite (images_remove_other d n Hn).
Qed.

Lemma evicted_images (d : list file) (g : file) :
  In g (evicted cfg d) -> allowed_file cfg (name g) = true.
Proof.
  intros Hg. unfold evicted in Hg.
  rewrite <- unlocked_prefix_firstn in Hg. apply incl_firstn in Hg.
  destruct (candidates_prefix cfg d) as [rest Hr].
  assert (Hin : In g (oldest_first cfg d))
    by (rewrite Hr; apply in_or_app; now left).
  apply (Permutation_in _ (oldest_first_perm cfg d)) in Hin.
  apply filter_In in Hin as [_ Hin]. exact Hin.
Qed.

End Listing.

(** C10: for every file of the upload folder whose name passes the security
    check, [get_image] returns its content and [delete_image], when the
    file can be removed, removes it, whatever its extension; if the
    extension is not an allowed one, the file is nevertheless absent from
    the list of [list_images], leaves the usage summary as it would be
    without the file, and is never removed by [cleanup_old_images]. *)
Theorem get_delete_ignore_extension (cfg : config) (isoformat : Z -> string)
    (w : world) (f : file) :
  wf_dir (dir w) = true ->
  In f (dir w) ->
  unsafe_filename (name f) = false ->
  get_image cfg (name f) w =
    (Ok (BFile (content f), 200%Z),
     add_trace w [SysStat (image_path cfg f); SysRead (image_path cfg f)])
  /\ (locked f = false ->
      delete_image cfg (name f) w =
        (Ok (BMessage ("Image " ++ name f ++ " deleted successfully"), 200%Z),
         World (Os.remove_file (name f) (dir w)) (logs w)
               (trace w ++ [SysStat (image_path cfg f);
                            SysUnlink (image_path cfg f)]))
      /\ ~ In (name f) (map name (Os.remove_file (name f) (dir w))))
  /\ (allowed_file cfg (name f) = false ->
      (exists images count w',
         list_images cfg isoformat w = (Ok (BImages images count, 200%Z), w')
         /\ ~ In (name f) (map entry_filename images))
      /\ fst (get_storage_info cfg w) =
         Ok (summary cfg (Os.remove_file (name f) (dir w)))
      /\ In f (dir (snd (cleanup_old_images cfg w)))).
Proof.
  intros Hwf Hf Hsafe. split; [|split].
  - unfold get_image, try_except. rewrite Hsafe. unfold bind at 1.
    rewrite (exists_entry _ _ _ Hwf Hf). cbn [negb]. unfold bind at 1.
    rewrite read_entry; [|exact Hwf|exact Hf].
    rewrite add_trace_app. reflexivity.
  - intros Hun. split.
    + unfold delete_image, try_except. rewrite Hsafe. unfold bind at 1.
      rewrite (exists_entry _ _ _ Hwf Hf). cbn [negb]. unfold bind at 1.
      rewrite remove_entry; [|exact Hwf|exact Hf]. rewrite Hun.
      unfold add_trace. cbn [dir logs trace]. rewrite <- app_assoc.
      reflexivity.
    + intros Hin. apply in_map_iff in Hin as [g [Hg Hin]].
      apply remove_file_In in Hin as [_ Hne]. contradiction.
  - intros Hext. split; [|split].
    + do 3 eexists. split; [exact (list_images_spec cfg isoformat w Hwf)|].
      intros Hin. apply listing_names in Hin. congruence.
    + rewrite (get_storage_info_spec cfg w Hwf). cbn [fst].
      now rewrite (summary_remove_other cfg _ _ Hext).
    + rewrite (cleanup_old_images_spec cfg w Hwf). cbn [snd dir].
      apply without_In. split; [exact Hf|].
      intros Hin. apply in_map_iff in Hin as [g [Hg Hin]].
      apply evicted_images in Hin. congruence.
Qed.

Lemma get_delete_ignore_extension_witness :
  wf_dir (dir sample_world) = true
  /\ allowed_file (small_config 1) "notes.txt" = false
  /\ fst (get_image (small_config 1) "notes.txt" sample_world) =
     Ok (BFile [x03], 200%Z)
  /\ dir (snd (delete_image (small_config 1) "notes.txt" sample_world)) =
     [File "b.png" [x00] 1 false; File "a.png" [x01; x02] 1 false]
  /\ In (File "notes.txt" [x03] 0 false)
        (dir (snd (cleanup_old_images (small_config 1) sample_world))).
Proof.
  assert (Hin : In (File "notes.txt" [x03] 0 false) (dir sample_world))
    by (right; right; now left).
  destruct (get_delete_ignore_extension (small_config 1) Py.str_int
              sample_world (File "notes.txt" [x03] 0 false)
              eq_refl Hin eq_refl) as (Hget & Hdel & Hother).
  destruct (Hdel eq_refl) as [Hdel' _].
  destruct (Hother eq_refl) as (_ & _ & Hstay).
  split; [reflexivity|]. split; [reflexivity|]. split; [|split].
  - change "notes.txt" with (name (File "notes.txt" [x03] 0 false)).
    now rewrite Hget.
  - change "notes.txt" with (name (File "notes.txt" [x03] 0 false)).
    now rewrite Hdel'.
  - exact Hstay.
Defined.

(** * Further properties *)

(** ** Encoding an upload and decoding it again *)

Section Exhaustive.

Lemma in_all_bytes (n : N) : (n < 256)%N -> In n all_bytes.
Proof.
  intros H. unfold all_bytes. rewrite <- (N2Nat.id n).
  apply in_map, in_seq. lia.
Qed.

Lemma in_all_sextets (n : N) : (n < 64)%N -> In n all_sextets.
Proof.
  intros H. unfold all_sextets. rewrite <- (N2Nat.id n).
  apply in_map, in_seq. lia.
Qed.

Lemma forall_bytes (P : N -> bool) :
  forallb P all_bytes = true -> forall n, (n < 256)%N -> P n = true.
Proof.
  intros H n Hn. rewrite forallb_forall in H. now apply H, in_all_bytes.
Qed.

Lemma forall_bytes2 (P : N -> N -> bool) :
  forallb (fun a => forallb (P a) all_bytes) all_bytes = true ->
  forall a b, (a < 256)%N -> (b < 256)%N -> P a b = true.
Proof.
  intros H a b Ha Hb. rewrite forallb_forall in H.
  pose proof (H a (in_all_bytes a Ha)) as H'.
  rewrite forallb_forall in H'. now apply H', in_all_bytes.
Qed.

Lemma forall_sextets (P : N -> bool) :
  forallb P all_sextets = true -> forall n, (n < 64)%N -> P n = true.
Proof.
  intros H n Hn. rewrite forallb_forall in H. now apply H, in_all_sextets.
Qed.

End Exhaustive.

Section RoundTrip.

Lemma to_N_lt (a : byte) : (Byte.to_N a < 256)%N.
Proof. pose proof (Byte.to_N_bounded a). lia. Qed.

Lemma byte_of_N_to_N (x : N) (a : byte) :
  (x mod 256 = Byte.to_N a)%N -> Base64.byte_of_N x = a.
Proof.
  intros H. unfold Base64.byte_of_N. now rewrite H, Byte.of_to_N.
Qed.

(** A base64 digit is read back as its value; it is neither the padding
    character nor a colon, and it is ASCII. *)
Lemma digit_facts (v : N) :
  (v < 64)%N ->
  Ascii.eqb (Base64.b2a_char v) Base64.BASE64_PAD = false
  /\ Base64.a2b_value (Base64.b2a_char v) = Some v
  /\ (N_of_ascii (Base64.b2a_char v) <? 128)%N = true
  /\ Ascii.eqb (Base64.b2a_char v) ":" = false.
Proof.
  intros Hv.
  pose proof (forall_sextets
    (fun v => negb (Ascii.eqb (Base64.b2a_char v) Base64.BASE64_PAD)
              && match Base64.a2b_value (Base64.b2a_char v) with
                 | Some u => (u =? v)%N
                 | None => false
                 end
              && (N_of_ascii (Base64.b2a_char v) <? 128)%N
              && negb (Ascii.eqb (Base64.b2a_char v) ":"))
    ltac:(vm_compute; reflexivity) v Hv) as H.
  cbv beta in H. apply andb_true_iff in H as [H H4].
  apply andb_true_iff in H as [H H3]. apply andb_true_iff in H as [H1 H2].
  apply negb_true_iff in H1, H4.
  destruct (Base64.a2b_value (Base64.b2a_char v)) as [u|]; [|discriminate].
  apply N.eqb_eq in H2 as ->. now repeat split.
Qed.

(** The digits of one byte, and the byte back. *)
Lemma one_byte_facts (a : N) :
  (a < 256)%N ->
  (N.shiftr a 2 < 64)%N
  /\ (N.land a 63 < 64)%N
  /\ (N.shiftl (N.land a 3) 4 < 64)%N
  /\ (N.shiftl (N.land a 15) 2 < 64)%N
  /\ (N.lor (N.shiftl (N.shiftr a 2) 2)
            (N.shiftr (N.shiftl (N.land a 3) 4) 4) mod 256 = a)%N
  /\ (N.land (N.shiftl (N.land a 3) 4) 15 = 0)%N
  /\ (N.lor (N.shiftl (N.shiftr a 4) 4)
            (N.shiftr (N.shiftl (N.land a 15) 2) 2) mod 256 = a)%N
  /\ (N.lor (N.shiftl (N.shiftr a 6) 6) (N.land a 63) mod 256 = a)%N.
Proof.
  intros Ha.
  pose proof (forall_bytes
    (fun a => (N.shiftr a 2 <? 64)%N
              && (N.land a 63 <? 64)%N
              && (N.shiftl (N.land a 3) 4 <? 64)%N
              && (N.shiftl (N.land a 15) 2 <? 64)%N
              && (N.lor (N.shiftl (N.shiftr a 2) 2)
                        (N.shiftr (N.shiftl (N.land a 3) 4) 4) mod 256
                  =? a)%N
              && (N.land (N.shiftl (N.land a 3) 4) 15 =? 0)%N
              && (N.lor (N.shiftl (N.shiftr a 4) 4)
                        (N.shiftr (N.shiftl (N.land a 15) 2) 2) mod 256
                  =? a)%N
              && (N.lor (N.shiftl (N.shiftr a 6) 6) (N.land a 63) mod 256
                  =? a)%N)
    ltac:(vm_compute; reflexivity) a Ha) as H.
  cbv beta in H. repeat (apply andb_true_iff in H as [H ?]).
  repeat match goal with
         | X : (_ <? _)%N = true |- _ => apply N.ltb_lt in X
         | X : (_ =? _)%N = true |- _ => apply N.eqb_eq in X
         end.
  now repeat split.
Qed.

(** The middle digits of two neighbouring bytes, and what the decoder
    makes of them. *)
Lemma two_byte_facts (a b : N) :
  (a < 256)%N -> (b < 256)%N ->
  (N.lor (N.shiftl (N.land a 3) 4) (N.shiftr b 4) < 64)%N
  /\ (N.lor (N.shiftl (N.land a 15) 2) (N.shiftr b 6) < 64)%N
  /\ (N.lor (N.shiftl (N.shiftr a 2) 2)
            (N.shiftr (N.lor (N.shiftl (N.land a 3) 4) (N.shiftr b 4)) 4)
      mod 256 = a)%N
  /\ (N.land (N.lor (N.shiftl (N.land a 3) 4) (N.shiftr b 4)) 15
      = N.shiftr b 4)%N
  /\ (N.lor (N.shiftl (N.shiftr a 4) 4)
            (N.shiftr (N.lor (N.shiftl (N.land a 15) 2) (N.shiftr b 6)) 2)
      mod 256 = a)%N
  /\ (N.land (N.lor (N.shiftl (N.land a 15) 2) (N.shiftr b 6)) 3
      = N.shiftr b 6)%N
  /\ (N.land (N.shiftl (N.land b 15) 2) 3 = 0)%N.
Proof.
  intros Ha Hb.
  pose proof (forall_bytes2
    (fun a b =>
       (N.lor (N.shiftl (N.land a 3) 4) (N.shiftr b 4) <? 64)%N
       && (N.lor (N.shiftl (N.land a 15) 2) (N.shiftr b 6) <? 64)%N
       && (N.lor (N.shiftl (N.shiftr a 2) 2)
             (N.shiftr (N.lor (N.shiftl (N.land a 3) 4) (N.shiftr b 4)) 4)
           mod 256 =? a)%N
       && (N.land (N.lor (N.shiftl (N.land a 3) 4) (N.shiftr b 4)) 15
           =? N.shiftr b 4)%N
       && (N.lor (N.shiftl (N.shiftr a 4) 4)
             (N.shiftr (N.lor (N.shiftl (N.land a 15) 2) (N.shiftr b 6)) 2)
           mod 256 =? a)%N
       && (N.land (N.lor (N.shiftl (N.land a 15) 2) (N.shiftr b 6)) 3
           =? N.shiftr b 6)%N
       && (N.land (N.shiftl (N.land b 15) 2) 3 =? 0)%N)
    ltac:(vm_compute; reflexivity) a b Ha Hb) as H.
  cbv beta in H. repeat (apply andb_true_iff in H as [H ?]).
  repeat match goal with
         | X : (_ <? _)%N = true |- _ => apply N.ltb_lt in X
         | X : (_ =? _)%N = true |- _ => apply N.eqb_eq in X
         end.
  now repeat split.
Qed.

End RoundTrip.

Section Decoder.

Lemma a2b_digit (c : ascii) (v : N) (s : string) (quad_pos : nat)
    (leftchar : N) (pads : nat) (out : list byte) :
  Ascii.eqb c Base64.BASE64_PAD = false ->
  Base64.a2b_value c = Some v ->
  Base64.a2b_loop (String c s) quad_pos leftchar pads out =
  match quad_pos with
  | 0%nat => Base64.a2b_loop s 1%nat v 0%nat out
  | 1%nat =>
      Base64.a2b_loop s 2%nat (N.land v 15) 0%nat
        (out ++ [Base64.byte_of_N (N.lor (N.shiftl leftchar 2)
                                         (N.shiftr v 4))])
  | 2%nat =>
      Base64.a2b_loop s 3%nat (N.land v 3) 0%nat
        (out ++ [Base64.byte_of_N (N.lor (N.shiftl leftchar 4)
                                         (N.shiftr v 2))])
  | _ =>
      Base64.a2b_loop s 0%nat 0%N 0%nat
        (out ++ [Base64.byte_of_N (N.lor (N.shiftl leftchar 6) v)])
  end.
Proof. intros H1 H2. cbn [Base64.a2b_loop]. now rewrite H1, H2. Qed.

Lemma a2b_b2a (v : N) (s : string) (quad_pos : nat) (leftchar : N)
    (pads : nat) (out : list byte) :
  (v < 64)%N ->
  Base64.a2b_loop (String (Base64.b2a_char v) s) quad_pos leftchar pads out =
  match quad_pos with
  | 0%nat => Base64.a2b_loop s 1%nat v 0%nat out
  | 1%nat =>
      Base64.a2b_loop s 2%nat (N.land v 15) 0%nat
        (out ++ [Base64.byte_of_N (N.lor (N.shiftl leftchar 2)
                                         (N.shiftr v 4))])
  | 2%nat =>
      Base64.a2b_loop s 3%nat (N.land v 3) 0%nat
        (out ++ [Base64.byte_of_N (N.lor (N.shiftl leftchar 4)
                                         (N.shiftr v 2))])
  | _ =>
      Base64.a2b_loop s 0%nat 0%N 0%nat
        (out ++ [Base64.byte_of_N (N.lor (N.shiftl leftchar 6) v)])
  end.
Proof.
  intros Hv. destruct (digit_facts v Hv) as (H1 & H2 & _).
  now apply a2b_digit.
Qed.

(** The decoder reads the four digits of a group of three bytes back as
    these bytes. *)
Lemma a2b_group (a b c : byte) (rest : list byte) (leftchar : N)
    (pads : nat) (out : list byte) :
  Base64.a2b_loop (Base64.b64encode (a :: b :: c :: rest))
                  0 leftchar pads out =
  Base64.a2b_loop (Base64.b64encode rest) 0 0%N 0%nat (out ++ [a; b; c]).
Proof.
  cbn [Base64.b64encode]. cbv zeta.
  pose proof (to_N_lt a) as Ha. pose proof (to_N_lt b) as Hb.
  pose proof (to_N_lt c) as Hc.
  destruct (one_byte_facts _ Ha) as (Ha1 & _).
  destruct (one_byte_facts _ Hc) as (_ & Hc2 & _ & _ & _ & _ & _ & Hc8).
  destruct (two_byte_facts _ _ Ha Hb) as (Hab1 & _ & Hab3 & Hab4 & _).
  destruct (two_byte_facts _ _ Hb Hc) as (_ & Hbc2 & _ & _ & Hbc5 & Hbc6 & _).
  rewrite (a2b_b2a _ _ 0 _ _ _ Ha1).
  rewrite (a2b_b2a _ _ 1 _ _ _ Hab1).
  rewrite (a2b_b2a _ _ 2 _ _ _ Hbc2).
  rewrite (a2b_b2a _ _ 3 _ _ _ Hc2).
  rewrite Hab4, Hbc6.
  rewrite (byte_of_N_to_N _ a Hab3), (byte_of_N_to_N _ b Hbc5),
    (byte_of_N_to_N _ c Hc8).
  now rewrite <- !app_assoc.
Qed.

Lemma a2b_encoded (n : nat) :
  forall (bs : list byte) (leftchar : N) (pads : nat) (out : list byte),
  (List.length bs <= n)%nat ->
  Base64.a2b_loop (Base64.b64encode bs) 0 leftchar pads out = Ok (out ++ bs).
Proof.
  induction n as [|n IH]; intros bs leftchar pads out Hlen.
  - destruct bs; [|simpl in Hlen; lia]. simpl. now rewrite app_nil_r.
  - destruct bs as [|a [|b [|c rest]]].
    + simpl. now rewrite app_nil_r.
    + cbn [Base64.b64encode]. cbv zeta.
      pose proof (to_N_lt a) as Ha.
      destruct (one_byte_facts _ Ha) as (Ha1 & _ & Ha3 & _ & Ha5 & _).
      rewrite (a2b_b2a _ _ 0 _ _ _ Ha1), (a2b_b2a _ _ 1 _ _ _ Ha3).
      rewrite (byte_of_N_to_N _ a Ha5). reflexivity.
    + cbn [Base64.b64encode]. cbv zeta.
      pose proof (to_N_lt a) as Ha. pose proof (to_N_lt b) as Hb.
      destruct (one_byte_facts _ Ha) as (Ha1 & _).
      destruct (one_byte_facts _ Hb) as (_ & _ & _ & Hb4 & _ & _ & Hb7 & _).
      destruct (two_byte_facts _ _ Ha Hb) as (Hab1 & _ & Hab3 & Hab4 & _).
      rewrite (a2b_b2a _ _ 0 _ _ _ Ha1), (a2b_b2a _ _ 1 _ _ _ Hab1),
        (a2b_b2a _ _ 2 _ _ _ Hb4).
      rewrite Hab4.
      rewrite (byte_of_N_to_N _ a Hab3), (byte_of_N_to_N _ b Hb7).
      cbn. now rewrite <- app_assoc.
    + rewrite a2b_group. rewrite IH by (simpl in Hlen; lia).
      now rewrite <- app_assoc.
Qed.

Lemma is_ascii_cons (c : ascii) (s : string) :
  Base64.is_ascii (String c s) =
  (N_of_ascii c <? 128)%N && Base64.is_ascii s.
Proof. reflexivity. Qed.

Lemma is_ascii_encoded (n : nat) :
  forall bs, (List.length bs <= n)%nat ->
  Base64.is_ascii (Base64.b64encode bs) = true.
Proof.
  induction n as [|n IH]; intros bs Hlen.
  - destruct bs; [reflexivity | simpl in Hlen; lia].
  - destruct bs as [|a [|b [|c rest]]]; [reflexivity| | |];
      cbn [Base64.b64encode]; cbv zeta;
      pose proof (to_N_lt a) as Ha;
      destruct (one_byte_facts _ Ha) as (Ha1 & _ & Ha3 & _).
    + destruct (digit_facts _ Ha1) as (_ & _ & H1 & _).
      destruct (digit_facts _ Ha3) as (_ & _ & H2 & _).
      rewrite !is_ascii_cons, H1, H2. reflexivity.
    + pose proof (to_N_lt b) as Hb.
      destruct (one_byte_facts _ Hb) as (_ & _ & _ & Hb4 & _).
      destruct (two_byte_facts _ _ Ha Hb) as (Hab1 & _).
      destruct (digit_facts _ Ha1) as (_ & _ & H1 & _).
      destruct (digit_facts _ Hab1) as (_ & _ & H2 & _).
      destruct (digit_facts _ Hb4) as (_ & _ & H3 & _).
      rewrite !is_ascii_cons, H1, H2, H3. reflexivity.
    + pose proof (to_N_lt b) as Hb. pose proof (to_N_lt c) as Hc.
      destruct (one_byte_facts _ Hc) as (_ & Hc2 & _).
      destruct (two_byte_facts _ _ Ha Hb) as (Hab1 & _).
      destruct (two_byte_facts _ _ Hb Hc) as (_ & Hbc2 & _).
      destruct (digit_facts _ Ha1) as (_ & _ & H1 & _).
      destruct (digit_facts _ Hab1) as (_ & _ & H2 & _).
      destruct (digit_facts _ Hbc2) as (_ & _ & H3 & _).
      destruct (digit_facts _ Hc2) as (_ & _ & H4 & _).
      rewrite !is_ascii_cons, H1, H2, H3, H4.
      rewrite IH by (simpl in Hlen; lia). reflexivity.
Qed.

(** [b64decode] undoes [b64encode]. *)
Lemma b64decode_b64encode (bs : list byte) :
  Base64.b64decode (Base64.b64encode bs) = Ok bs.
Proof.
  unfold Base64.b64decode, Base64.a2b_base64.
  rewrite (is_ascii_encoded _ bs (le_n _)).
  now rewrite (a2b_encoded _ bs _ _ _ (le_n _)).
Qed.

(** No encoding begins like a data URL: its fifth character, if any, is a
    digit or a padding character, never a colon. *)
Lemma b64encode_no_colon_first (bs : list byte) (r : string) :
  Base64.b64encode bs <> String ":" r.
Proof.
  intros E. destruct bs as [|d rest]; [discriminate|].
  assert (H : exists v s, (v < 64)%N /\
            Base64.b64encode (d :: rest) = String (Base64.b2a_char v) s).
  { pose proof (to_N_lt d) as Hd.
    destruct (one_byte_facts _ Hd) as (Hd1 & _).
    destruct rest as [|e [|f rest]]; cbn [Base64.b64encode]; cbv zeta;
      do 2 eexists; (split; [exact Hd1 | reflexivity]). }
  destruct H as (v & s & Hv & Hs). rewrite Hs in E.
  injection E as E _.
  destruct (digit_facts v Hv) as (_ & _ & _ & H).
  rewrite E in H. discriminate.
Qed.

Lemma b64encode_not_data_url (bs : list byte) :
  Py.startswith (Base64.b64encode bs) "data:image" = false.
Proof.
  destruct (Py.startswith (Base64.b64encode bs) "data:image") eqn:E;
    [|reflexivity].
  exfalso. apply prefix_iff in E as [r E].
  destruct bs as [|a [|b [|c rest]]]; cbn [Base64.b64encode] in E;
    cbv zeta in E; try discriminate.
  injection E as _ _ _ _ E.
  exact (b64encode_no_colon_first _ _ E).
Qed.

End Decoder.

(** ** Saving, seen from outside *)

Section SaveOutcome.

Context {pil : PIL}.
Variable cfg : config.

Lemma find_file_write (n : string) (bs : list byte) (t : Z)
    (d : list file) :
  Os.find_file n (Os.write_file (File n bs t false) d) =
  Some (File n bs t false).
Proof.
  induction d as [|g d IH]; cbn [Os.write_file name].
  - cbn [Os.find_file name]. now rewrite String.eqb_refl.
  - destruct (String.eqb (name g) n) eqn:E.
    + cbn [Os.find_file name]. now rewrite String.eqb_refl.
    + cbn [Os.find_file]. now rewrite E.
Qed.

Lemma write_file_has (f : file) (d : list file) : In f (Os.write_file f d).
Proof.
  induction d as [|g d IH]; simpl; [now left|].
  destruct (String.eqb (name g) (name f)); [now left | now right].
Qed.

(** Within the limit [cleanup_old_images] only scans the folder. *)
Lemma cleanup_within_limit (w : world) :
  wf_dir (dir w) = true ->
  (image_count cfg (dir w) <= MAX_IMAGES cfg)%Z ->
  cleanup_old_images cfg w = (Ok tt, add_trace w (scan_trace cfg (dir w))).
Proof.
  intros Hwf Hle. rewrite (cleanup_old_images_spec cfg w Hwf).
  pose proof (image_count_nonneg cfg (dir w)) as Hpos.
  unfold cleanup_logs, cleanup_trace, cleanup_failure, evicted, candidates.
  assert (H1 : (image_count cfg (dir w) >? MAX_IMAGES cfg)%Z = false)
    by (rewrite Z.gtb_ltb; apply Z.ltb_ge; lia).
  assert (H2 : (MAX_IMAGES cfg <? 0)%Z = false) by (apply Z.ltb_ge; lia).
  rewrite H1. cbn [unlocked_prefix first_locked map app]. rewrite H2.
  unfold add_trace. now rewrite without_nil, !app_nil_r.
Qed.


Lemma write_entry (n : string) (bs : list byte) (now : Z) (w : world) :
  wf_name n = true ->
  (forall f, Os.find_file n (dir w) = Some f -> locked f = false) ->
  Os.write (UPLOAD_FOLDER cfg) (Py.os_path_join (UPLOAD_FOLDER cfg) n)
           bs now w =
  (Ok tt,
   World (Os.write_file (File n bs now false) (dir w)) (logs w)
         (trace w ++ [SysWrite (Py.os_path_join (UPLOAD_FOLDER cfg) n)])).
Proof.
  intros Hn Hun. unfold Os.write, bind, syscall_, get_dir, put_dir.
  cbn [dir logs trace]. rewrite (resolve_entry _ _ Hn).
  destruct (Os.find_file n (dir w)) as [f|] eqn:Ef; [|reflexivity].
  now rewrite (Hun f eq_refl).
Qed.

(** After a write into a folder with room, the rest of
    [save_image_locally] goes through: the cleanup removes nothing and the
    size of the new file is read. *)
Lemma after_write (n path : string) (bs : list byte) (now : Z)
    (w : world) :
  wf_dir (dir w) = true ->
  (image_count cfg (dir w) < MAX_IMAGES cfg)%Z ->
  wf_name n = true ->
  Os.resolve (UPLOAD_FOLDER cfg) path = TEntry n ->
  let w1 := World (Os.write_file (File n bs now false) (dir w))
                  (logs w) (trace w ++ [SysWrite path]) in
  exists w2,
    bind (cleanup_old_images cfg)
         (fun _ => Os.path_getsize (UPLOAD_FOLDER cfg) path) w1 =
    (Ok (Z.of_nat (List.length bs)), w2)
    /\ dir w2 = Os.write_file (File n bs now false) (dir w)
    /\ logs w2 = logs w.
Proof.
  intros Hwf Hroom Hn Hres w1.
  assert (Hwf1 : wf_dir (dir w1) = true) by (now apply wf_dir_write).
  assert (Hc1 : (image_count cfg (dir w1) <= MAX_IMAGES cfg)%Z).
  { pose proof (image_count_write cfg (File n bs now false) (dir w)).
    cbn [dir w1]. lia. }
  unfold bind. rewrite (cleanup_within_limit w1 Hwf1 Hc1).
  unfold Os.path_getsize, Os.stat, bind, syscall_, get_dir, ret, add_trace.
  cbn [dir logs trace w1]. rewrite Hres, find_file_write.
  eexists. split; [reflexivity|]. now split.
Qed.

(** A save whose payload decodes to an image, under a proper file name that
    is not held by a locked file, succeeds. *)
Lemma save_image_locally_ok (now : Z) (image_data : json_value)
    (filename : string) (bs : list byte) (image : Image) (w : world) :
  wf_dir (dir w) = true ->
  (image_count cfg (dir w) < MAX_IMAGES cfg)%Z ->
  decode_image_data image_data = Ok bs ->
  Image_open bs = Some image ->
  wf_name filename = true ->
  (forall f, Os.find_file filename (dir w) = Some f -> locked f = false) ->
  exists w',
    save_image_locally cfg now image_data filename w =
    (Ok (Saved filename ("/image/" ++ filename)
               (Py.os_path_join (UPLOAD_FOLDER cfg) filename)
               (Z.of_nat (List.length (stored_png image)))
               "Image saved successfully!"), w')
    /\ dir w' = Os.write_file (File filename (stored_png image) now false)
                              (dir w)
    /\ logs w' = logs w.
Proof.
  intros Hwf Hroom Hdec Himg Hn Hun.
  unfold save_image_locally, try_except, save_image_write.
  unfold bind at 1. unfold bind at 1. unfold bind at 1. unfold lift.
  rewrite Hdec, Himg. unfold bind at 1.
  fold (stored_png image). rewrite (write_entry _ _ _ _ Hn Hun).
  unfold ret at 1.
  destruct (after_write filename
              (Py.os_path_join (UPLOAD_FOLDER cfg) filename)
              (stored_png image) now w Hwf Hroom Hn (resolve_entry _ _ Hn))
    as (w2 & H2 & Hd & Hl).
  unfold bind in H2. unfold bind.
  destruct (cleanup_old_images cfg _) as [[u|e] w1']; [|discriminate].
  rewrite H2. unfold ret. exists w2. now repeat split.
Qed.


End SaveOutcome.

(** ** File names *)

Section Names.

Local Open Scope string_scope.

Lemma length_append (a b : string) :
  String.length (a ++ b) = (String.length a + String.length b)%nat.
Proof. induction a; simpl; congruence. Qed.

Lemma append_inv_head (a b x y : string) :
  String.length a = String.length b -> a ++ x = b ++ y -> a = b /\ x = y.
Proof.
  revert b; induction a as [|c a IH]; intros [|d b]; simpl;
    try discriminate.
  - intros _ H. now split.
  - intros Hl H. injection Hl as Hl. injection H as -> H.
    destruct (IH _ Hl H) as [-> ->]. now split.
Qed.

Lemma append_inv_tail (a b s : string) : a ++ s = b ++ s -> a = b.
Proof.
  intros H. assert (Hl : String.length a = String.length b).
  { apply (f_equal String.length) in H. rewrite !length_append in H. lia. }
  now destruct (append_inv_head _ _ _ _ Hl H).
Qed.

Lemma str_in_char_app (c : ascii) (a b : string) :
  Py.str_in (String c "") (a ++ b) =
  Py.str_in (String c "") a || Py.str_in (String c "") b.
Proof.
  induction a as [|d a IH].
  - now rewrite str_in_nil.
  - cbn [append]. rewrite !str_in_char_cons, IH. now rewrite orb_assoc.
Qed.

Lemma split_length (sep : ascii) (s : string) :
  (1 <= List.length (Py.split sep s))%nat.
Proof.
  pose proof (split_nonempty sep s). destruct (Py.split sep s);
    [contradiction | simpl; lia].
Qed.

(** A text with two separators in a row splits into three pieces or
    more. *)
Lemma split_double (sep : ascii) (a b : string) :
  (3 <= List.length
          (Py.split sep (a ++ String sep (String sep b))))%nat.
Proof.
  rewrite split_app. cbn [Py.split]. rewrite Ascii.eqb_refl.
  rewrite length_app. cbn [List.length].
  pose proof (split_length sep a). pose proof (split_length sep b). lia.
Qed.

(** In a stem without dots followed by one extension there are no two dots
    in a row. *)
Lemma no_dots_in_stem_ext (stem ext : string) :
  Py.str_in "." stem = false -> Py.str_in "." ext = false ->
  Py.str_in ".." (stem ++ "." ++ ext) = false.
Proof.
  intros Hs He.
  destruct (Py.str_in ".." (stem ++ "." ++ ext)) eqn:E; [|reflexivity].
  exfalso. apply str_in_iff in E as [a [b E]].
  pose proof (split_double "." a b) as H3.
  change (a ++ ".." ++ b) with (a ++ String "." (String "." b)) in E.
  rewrite <- E in H3.
  change (stem ++ "." ++ ext) with (stem ++ String "." ext) in H3.
  rewrite split_app, (split_no_sep _ _ Hs), (split_no_sep _ _ He) in H3.
  simpl in H3. lia.
Qed.

End Names.

Section AllowedNames.

Variable cfg : config.

Local Open Scope string_scope.

(** [allowed_file] looks at the text after the last dot only. *)
Lemma allowed_file_stem_ext (stem ext : string) :
  Py.str_in "." ext = false ->
  allowed_file cfg (stem ++ "." ++ ext) =
  Py.mem (Py.lower ext) (ALLOWED_EXTENSIONS cfg).
Proof.
  intros He. unfold allowed_file.
  change (stem ++ "." ++ ext) with (stem ++ String "." ext).
  rewrite str_in_char_app, str_in_char_cons, Ascii.eqb_refl.
  rewrite orb_true_r. cbn [andb].
  unfold Py.rsplit1. now rewrite (rcut_app _ _ _ He).
Qed.

Lemma generate_filename_shape (ev : env) :
  generate_filename ev =
  ("nexus_edit_" ++ now_strftime ev ++ "_" ++ Py.take 8 (uuid4_str ev))
  ++ "." ++ "png".
Proof.
  unfold generate_filename. now rewrite !append_assoc.
Qed.

End AllowedNames.

(** ** Handlers on one entry *)

Section OneEntry.

Variable cfg : config.

Lemma get_image_entry (w : world) (f : file) :
  wf_dir (dir w) = true -> In f (dir w) ->
  unsafe_filename (name f) = false ->
  get_image cfg (name f) w =
  (Ok (BFile (content f), 200%Z),
   add_trace w [SysStat (image_path cfg f); SysRead (image_path cfg f)]).
Proof.
  intros Hwf Hf Hsafe. unfold get_image, try_except. rewrite Hsafe.
  unfold bind at 1. rewrite (exists_entry _ _ _ Hwf Hf). cbn [negb].
  unfold bind at 1. rewrite read_entry; [|exact Hwf|exact Hf].
  rewrite add_trace_app. reflexivity.
Qed.

Lemma delete_image_entry (w : world) (f : file) :
  wf_dir (dir w) = true -> In f (dir w) ->
  unsafe_filename (name f) = false ->
  delete_image cfg (name f) w =
  if locked f then
    (Ok (BError ("Failed to delete image: "
                 ++ str (Os.permission_denied (image_path cfg f))), 500%Z),
     World (dir w)
           (logs w ++ [(ERROR, ("Error deleting image: "
                        ++ str (Os.permission_denied (image_path cfg f)))
                        %string)])
           (trace w ++ [SysStat (image_path cfg f);
                        SysUnlink (image_path cfg f)]))
  else
    (Ok (BMessage ("Image " ++ name f ++ " deleted successfully"), 200%Z),
     World (Os.remove_file (name f) (dir w)) (logs w)
           (trace w ++ [SysStat (image_path cfg f);
                        SysUnlink (image_path cfg f)])).
Proof.
  intros Hwf Hf Hsafe. unfold delete_image, try_except. rewrite Hsafe.
  unfold bind at 1. rewrite (exists_entry _ _ _ Hwf Hf). cbn [negb].
  unfold bind at 1. rewrite remove_entry; [|exact Hwf|exact Hf].
  destruct (locked f); unfold add_trace, bind, logger_error, ret;
    cbn [dir logs trace]; rewrite <- app_assoc; reflexivity.
Qed.

(** A proper name that no entry bears is reported as missing. *)
Lemma exists_missing (w : world) (n : string) :
  wf_name n = true -> ~ In n (map name (dir w)) ->
  Os.path_exists (UPLOAD_FOLDER cfg)
                 (Py.os_path_join (UPLOAD_FOLDER cfg) n) w =
  (Ok false,
   add_trace w [SysStat (Py.os_path_join (UPLOAD_FOLDER cfg) n)]).
Proof.
  intros Hn Hout.
  unfold Os.path_exists, Os.stat, try_except, bind, syscall_, get_dir.
  cbn [dir]. rewrite (resolve_entry _ _ Hn).
  apply find_file_None in Hout. now rewrite Hout.
Qed.

Lemma get_delete_missing (w : world) (n : string) :
  wf_name n = true -> unsafe_filename n = false ->
  ~ In n (map name (dir w)) ->
  get_image cfg n w =
    (Ok (BError "Image not found", 404%Z),
     add_trace w [SysStat (Py.os_path_join (UPLOAD_FOLDER cfg) n)])
  /\ delete_image cfg n w =
    (Ok (BError "Image not found", 404%Z),
     add_trace w [SysStat (Py.os_path_join (UPLOAD_FOLDER cfg) n)]).
Proof.
  intros Hn Hsafe Hout. unfold get_image, delete_image, try_except.
  rewrite Hsafe. unfold bind.
  now rewrite (exists_missing w n Hn Hout).
Qed.

(** The number of images depends on the entry names only. *)
Lemma image_count_names (d : list file) :
  image_count cfg d =
  Z.of_nat (List.length (filter (allowed_file cfg) (map name d))).
Proof.
  unfold image_count, images. f_equal.
  induction d as [|f d IH]; [reflexivity|]. cbn [filter map].
  unfold is_image at 1. destruct (allowed_file cfg (name f)); simpl;
    now rewrite IH.
Qed.

End OneEntry.

Section SaveHandler.

Context {pil : PIL}.
Variable cfg : config.

(** With room left, [save_image] goes on past the capacity check, in the
    state the usage scan leaves. *)
Lemma save_image_past_check (ev : env) (req : request) (w : world) :
  wf_dir (dir w) = true ->
  (image_count cfg (dir w) < MAX_IMAGES cfg)%Z ->
  save_image cfg ev req w =
  try_except
    (let filename := generate_filename ev in
     match json_imageData req with
     | Some image_data =>
         result <- save_image_locally cfg (clock ev) image_data filename ;;
         if success result then ret (BSave result, 201%Z)
         else ret (BSave result, 400%Z)
     | None =>
         match files_image req with
         | Some file =>
             if allowed_file cfg (upload_filename file) then
               result <- save_image_locally cfg (clock ev)
                           (JString (Base64.b64encode (upload_data file)))
                           filename ;;
               if success result then ret (BSave result, 201%Z)
               else ret (BSave result, 400%Z)
             else
               ret (BError
                 "Invalid file type. Allowed types: png, jpg, jpeg, gif, bmp",
                 400%Z)
         | None =>
             ret (BError
               "No image data provided. Send as base64 in JSON or as file upload",
               400%Z)
         end
     end)
    (fun e =>
       logger_error ("Error in save_image: " ++ str e) ;;;
       ret (BError ("Internal server error: " ++ str e), 500%Z))
    (add_trace w (scan_trace cfg (dir w))).
Proof.
  intros Hwf Hroom. unfold save_image, try_except. unfold bind at 1.
  rewrite (get_storage_info_spec cfg w Hwf). cbn [summary total_images].
  assert (Hlt : (image_count cfg (dir w) >=? MAX_IMAGES cfg)%Z = false).
  { rewrite Z.geb_leb. apply Z.leb_gt. lia. }
  now rewrite Hlt.
Qed.

(** [save_image] on a payload that [save_image_locally] stores. *)
Lemma save_image_stores (ev : env) (image_data : json_value)
    (bs : list byte) (image : Image) (w1 : world) :
  wf_dir (dir w1) = true ->
  (image_count cfg (dir w1) < MAX_IMAGES cfg)%Z ->
  decode_image_data image_data = Ok bs ->
  Image_open bs = Some image ->
  wf_name (generate_filename ev) = true ->
  (forall f, Os.find_file (generate_filename ev) (dir w1) = Some f ->
             locked f = false) ->
  exists w',
    bind (save_image_locally cfg (clock ev) image_data
                             (generate_filename ev))
         (fun result => if success result then ret (BSave result, 201%Z)
                        else ret (BSave result, 400%Z)) w1 =
    (Ok (BSave (Saved (generate_filename ev)
                      ("/image/" ++ generate_filename ev)
                      (Py.os_path_join (UPLOAD_FOLDER cfg)
                                       (generate_filename ev))
                      (Z.of_nat (List.length (stored_png image)))
                      "Image saved successfully!"), 201%Z), w')
    /\ dir w' = Os.write_file (File (generate_filename ev)
                                    (stored_png image) (clock ev) false)
                              (dir w1)
    /\ logs w' = logs w1.
Proof.
  intros Hwf Hroom Hdec Himg Hn Hun.
  destruct (save_image_locally_ok cfg (clock ev) image_data
              (generate_filename ev) bs image w1 Hwf Hroom Hdec Himg Hn Hun)
    as (w' & H & Hd & Hl).
  exists w'. unfold bind. rewrite H. now repeat split.
Qed.

End SaveHandler.

(** ** Extensions and generated names *)

(** X1: [allowed_file] decides on the text after the last dot alone,
    without regard to its case: a name [stem.ext] whose [ext] has no dot is
    allowed exactly when the lower-cased [ext] is one of the allowed
    extensions, whatever the stem; a name without a dot is never allowed, in
    particular not the bare word [png]. *)
Theorem allowed_file_by_last_extension (cfg : config) (stem ext : string) :
  Py.str_in "." ext = false ->
  allowed_file cfg (stem ++ "." ++ ext) =
    Py.mem (Py.lower ext) (ALLOWED_EXTENSIONS cfg)
  /\ allowed_file cfg ext = false.
Proof.
  intros He. split.
  - now apply allowed_file_stem_ext.
  - unfold allowed_file. now rewrite He.
Qed.

Lemma allowed_file_by_last_extension_witness :
  allowed_file app_config "holiday.2024.JpEg" = true
  /\ allowed_file app_config "JpEg" = false.
Proof.
  exact (allowed_file_by_last_extension app_config "holiday.2024" "JpEg"
           eq_refl).
Defined.

(** X2: whatever the clock and the UUID, the file name [save_image]
    generates ends in [.png] and so counts as a stored image whenever [png]
    is an allowed extension; when the rendered time and the UUID prefix hold
    no dot and no slash (as digits, underscores and hexadecimal digits do
    not), the name is a proper entry name and passes the security check of
    [get_image] and [delete_image]. *)
Theorem generated_filename_is_servable (cfg : config) (ev : env) :
  In "png"%string (ALLOWED_EXTENSIONS cfg) ->
  Py.str_in "." (now_strftime ev) = false ->
  Py.str_in "/" (now_strftime ev) = false ->
  Py.str_in "." (Py.take 8 (uuid4_str ev)) = false ->
  Py.str_in "/" (Py.take 8 (uuid4_str ev)) = false ->
  allowed_file cfg (generate_filename ev) = true
  /\ wf_name (generate_filename ev) = true
  /\ unsafe_filename (generate_filename ev) = false.
Proof.
  intros Hpng Ht1 Ht2 Hu1 Hu2.
  rewrite generate_filename_shape.
  set (stem := ("nexus_edit_" ++ now_strftime ev ++ "_"
                ++ Py.take 8 (uuid4_str ev))%string).
  assert (Hstem : forall c, Py.str_in (String c "") "nexus_edit_" = false ->
            Py.str_in (String c "") "_" = false ->
            Py.str_in (String c "") (now_strftime ev) = false ->
            Py.str_in (String c "") (Py.take 8 (uuid4_str ev)) = false ->
            Py.str_in (String c "") stem = false).
  { intros c H1 H2 H3 H4. unfold stem.
    now rewrite !str_in_char_app, H1, H2, H3, H4. }
  assert (Hdot : Py.str_in "." stem = false) by (now apply Hstem).
  assert (Hslash : Py.str_in "/" stem = false) by (now apply Hstem).
  assert (Hno : Py.str_in ".." (stem ++ "." ++ "png") = false)
    by (now apply no_dots_in_stem_ext).
  assert (Hsl : Py.str_in "/" (stem ++ "." ++ "png") = false).
  { change (stem ++ "." ++ "png")%string with (stem ++ ".png")%string.
    now rewrite str_in_char_app, Hslash. }
  split; [|split].
  - rewrite allowed_file_stem_ext by reflexivity. now apply mem_iff.
  - unfold wf_name. rewrite Hsl. unfold stem. reflexivity.
  - unfold unsafe_filename. rewrite Hno. unfold stem. reflexivity.
Qed.

Lemma generated_filename_is_servable_witness :
  allowed_file app_config (generate_filename sample_env) = true
  /\ wf_name (generate_filename sample_env) = true
  /\ unsafe_filename (generate_filename sample_env) = false.
Proof.
  apply (generated_filename_is_servable app_config sample_env);
    [now left | reflexivity | reflexivity | reflexivity | reflexivity].
Defined.

(** X3: two saves receive the same generated file name only if their
    rendered times are equal and their UUIDs agree on the first eight
    characters (the rendered times having the same length, as the fixed
    format gives them). *)
Theorem generated_filename_collision (ev1 ev2 : env) :
  String.length (now_strftime ev1) = String.length (now_strftime ev2) ->
  generate_filename ev1 = generate_filename ev2 ->
  now_strftime ev1 = now_strftime ev2
  /\ Py.take 8 (uuid4_str ev1) = Py.take 8 (uuid4_str ev2).
Proof.
  intros Hlen H. unfold generate_filename in H.
  repeat match type of H with
         | String ?c _ = String ?c _ => injection H as H
         end.
  cbn [append] in H.
  repeat match type of H with
         | String ?c _ = String ?c _ => injection H as H
         end.
  apply append_inv_head in H as [Ht H]; [|exact Hlen].
  split; [exact Ht|].
  injection H as H. now apply append_inv_tail in H.
Qed.

Lemma generated_filename_collision_witness :
  now_strftime sample_env = "20240101_000000"%string
  /\ Py.take 8 (uuid4_str sample_env) =
     Py.take 8 "deadbeef-1111-4111-8111-111111111111".
Proof.
  exact (generated_filename_collision sample_env
           {| now_strftime := "20240101_000000";
              uuid4_str := "deadbeef-1111-4111-8111-111111111111";
              clock := 9 |}
           eq_refl eq_refl).
Defined.

(** ** The file-upload path *)

(** X4: the base64 text that [save_image] makes of an uploaded file is
    decoded by [save_image_locally] to exactly the uploaded bytes: the
    decoder undoes the encoder, and no encoding is mistaken for a data
    URL. *)
Theorem upload_encoding_round_trip (data : list byte) :
  Base64.b64decode (Base64.b64encode data) = Ok data
  /\ Py.startswith (Base64.b64encode data) "data:image" = false
  /\ decode_image_data (JString (Base64.b64encode data)) = Ok data.
Proof.
  split; [apply b64decode_b64encode|].
  split; [apply b64encode_not_data_url|].
  unfold decode_image_data, strip_data_url.
  rewrite b64encode_not_data_url. cbn [b64decode_value].
  apply b64decode_b64encode.
Qed.

(** ** Saving *)

(** X5: a save and a fetch compose: when the store has room, the payload
    decodes to bytes the image library opens, and the generated name is a
    proper, safe entry name not held by a locked file, [save_image] answers
    201 with the generated name, its URL, its path and the size of the PNG
    written, the folder holds that PNG under the generated name with every
    other entry as before, and [get_image] on the returned name gives back
    exactly the bytes written. *)
Theorem save_then_get {pil : PIL} (cfg : config) (ev : env)
    (image_data : json_value) (upl : option upload) (bs : list byte)
    (image : Image) (w : world) :
  wf_dir (dir w) = true ->
  (image_count cfg (dir w) < MAX_IMAGES cfg)%Z ->
  decode_image_data image_data = Ok bs ->
  Image_open bs = Some image ->
  wf_name (generate_filename ev) = true ->
  unsafe_filename (generate_filename ev) = false ->
  (forall f, Os.find_file (generate_filename ev) (dir w) = Some f ->
             locked f = false) ->
  exists w',
    save_image cfg ev (Request (Some image_data) upl) w =
    (Ok (BSave (Saved (generate_filename ev)
                      ("/image/" ++ generate_filename ev)
                      (Py.os_path_join (UPLOAD_FOLDER cfg)
                                       (generate_filename ev))
                      (Z.of_nat (List.length (stored_png image)))
                      "Image saved successfully!"), 201%Z), w')
    /\ dir w' = Os.write_file (File (generate_filename ev)
                                    (stored_png image) (clock ev) false)
                              (dir w)
    /\ fst (get_image cfg (generate_filename ev) w') =
       Ok (BFile (stored_png image), 200%Z).
Proof.
  intros Hwf Hroom Hdec Himg Hn Hsafe Hun.
  rewrite (save_image_past_check cfg ev _ w Hwf Hroom).
  unfold try_except. cbv zeta. cbn [json_imageData].
  destruct (save_image_stores cfg ev image_data bs image
              (add_trace w (scan_trace cfg (dir w)))
              Hwf Hroom Hdec Himg Hn Hun) as (w' & H & Hd & _).
  rewrite H. exists w'. cbn [dir add_trace] in Hd.
  split; [reflexivity|]. split; [exact Hd|].
  set (f := File (generate_filename ev) (stored_png image) (clock ev) false).
  change (generate_filename ev) with (name f) at 1.
  rewrite get_image_entry.
  - reflexivity.
  - rewrite Hd. now apply wf_dir_write.
  - rewrite Hd. apply write_file_has.
  - exact Hsafe.
Qed.

Lemma save_then_get_witness :
  exists w',
    fst (@save_image raw_images (small_config 5) sample_env
           (Request (Some (JString "QUJD")) None) sample_world) =
    Ok (BSave (Saved "nexus_edit_20240101_000000_deadbeef.png"
                     "/image/nexus_edit_20240101_000000_deadbeef.png"
                     "uploads/nexus_edit_20240101_000000_deadbeef.png"
                     3 "Image saved successfully!"), 201%Z)
    /\ fst (get_image (small_config 5)
              "nexus_edit_20240101_000000_deadbeef.png" w') =
       Ok (BFile [x41; x42; x43], 200%Z).
Proof.
  assert (Hroom : (image_count (small_config 5) (dir sample_world)
                   < MAX_IMAGES (small_config 5))%Z) by reflexivity.
  assert (Hun : forall f,
            Os.find_file (generate_filename sample_env) (dir sample_world)
            = Some f -> locked f = false) by (intros f H; discriminate H).
  destruct (@save_then_get raw_images (small_config 5) sample_env
              (JString "QUJD") None [x41; x42; x43] [x41; x42; x43]
              sample_world eq_refl Hroom eq_refl eq_refl eq_refl eq_refl Hun)
    as (w' & H1 & _ & H2).
  exists w'. split; [now rewrite H1 | exact H2].
Defined.







(** X9: a text that begins with [data:image] but holds no comma cannot be
    split: [save_image_locally] fails on the missing index, reports "list
    index out of range", logs the error, and makes no file-system call. *)
Theorem data_url_without_comma {pil : PIL} (cfg : config) (now : Z)
    (payload filename : string) (w : world) :
  Py.startswith payload "data:image" = true ->
  Py.str_in "," payload = false ->
  save_image_locally cfg now (JString payload) filename w =
  (Ok (NotSaved "Failed to save image: list index out of range"),
   add_log w ERROR "Error saving image: list index out of range").
Proof.
  intros Hsw Hcomma.
  apply (save_image_locally_undecodable cfg now (JString payload) filename
           (Exn IndexError "list index out of range") w).
  unfold decode_image_data, strip_data_url.
  now rewrite Hsw, (split_no_sep _ _ Hcomma).
Qed.

Lemma data_url_without_comma_witness :
  @save_image_locally raw_images app_config 5 (JString "data:image/png")
    "x.png" sample_world =
  (Ok (NotSaved "Failed to save image: list index out of range"),
   add_log sample_world ERROR "Error saving image: list index out of range").
Proof.
  exact (@data_url_without_comma raw_images app_config 5 "data:image/png"
           "x.png" sample_world eq_refl eq_refl).
Defined.



(** ** Fetching and deleting *)

(** X11: for a proper, safe name that no entry of the folder bears, both
    [get_image] and [delete_image] answer 404 "Image not found" after one
    existence test, and change nothing else. *)
Theorem missing_image_not_found (cfg : config) (filename : string)
    (w : world) :
  wf_name filename = true ->
  unsafe_filename filename = false ->
  ~ In filename (map name (dir w)) ->
  get_image cfg filename w =
    (Ok (BError "Image not found", 404%Z),
     add_trace w [SysStat (Py.os_path_join (UPLOAD_FOLDER cfg) filename)])
  /\ delete_image cfg filename w =
    (Ok (BError "Image not found", 404%Z),
     add_trace w [SysStat (Py.os_path_join (UPLOAD_FOLDER cfg) filename)]).
Proof.
  intros Hn Hsafe Hout. now apply get_delete_missing.
Qed.

Lemma missing_image_not_found_witness :
  fst (get_image app_config "c.png" sample_world) =
    Ok (BError "Image not found", 404%Z)
  /\ fst (delete_image app_config "c.png" sample_world) =
    Ok (BError "Image not found", 404%Z).
Proof.
  assert (Hout : ~ In "c.png"%string (map name (dir sample_world))).
  { simpl. intros [H|[H|[H|[]]]]; discriminate H. }
  destruct (missing_image_not_found app_config "c.png" sample_world
              eq_refl eq_refl Hout) as [H1 H2].
  split; [now rewrite H1 | now rewrite H2].
Defined.

Lemma sum_sizes_app (l1 l2 : list file) :
  sum_sizes (l1 ++ l2) = (sum_sizes l1 + sum_sizes l2)%Z.
Proof.
  induction l1 as [|f l1 IH]; simpl; [reflexivity|].
  fold (sum_sizes (l1 ++ l2)). fold (sum_sizes l1). rewrite IH. lia.
Qed.

(** Taking an image out of a directory takes it out of the images. *)
Lemma images_remove_image (cfg : config) (d : list file) (f : file) :
  NoDup (map name d) -> In f d -> is_image cfg f = true ->
  exists l1 l2,
    images cfg d = l1 ++ f :: l2
    /\ images cfg (Os.remove_file (name f) d) = l1 ++ l2.
Proof.
  intros Hnd Hf Himg. apply in_split in Hf as (d1 & d2 & ->).
  rewrite map_app in Hnd. cbn [map] in Hnd.
  assert (Hkeep : forall l, ~ In (name f) (map name l) ->
                  Os.remove_file (name f) l = l).
  { induction l as [|g l IH]; intros Hnot; [reflexivity|].
    unfold Os.remove_file. cbn [filter].
    destruct (String.eqb (name g) (name f)) eqn:E.
    - apply String.eqb_eq in E. exfalso. apply Hnot. now left.
    - cbn [negb]. f_equal. apply IH. intros Hin. apply Hnot. now right. }
  assert (H1 : ~ In (name f) (map name d1)).
  { intros Hin. apply (NoDup_app_disjoint _ _ Hnd _ Hin). now left. }
  assert (H2 : ~ In (name f) (map name d2)).
  { apply NoDup_app_remove_l in Hnd. now inversion Hnd. }
  exists (images cfg d1), (images cfg d2). split.
  - unfold images. rewrite filter_app. cbn [filter]. now rewrite Himg.
  - unfold Os.remove_file. rewrite filter_app. cbn [filter].
    rewrite String.eqb_refl. cbn [negb].
    fold (Os.remove_file (name f) d1). fold (Os.remove_file (name f) d2).
    rewrite (Hkeep _ H1), (Hkeep _ H2). unfold images.
    now rewrite filter_app.
Qed.

(** X12: deleting composes with fetching and with the usage summary: after
    [delete_image] has removed a file, [get_image] and a second
    [delete_image] on the same name answer 404, every other entry is still
    there, and, if the file was an image, the usage summary counts one image
    and the file's size less. *)
Theorem delete_then_gone (cfg : config) (w : world) (f : file) :
  wf_dir (dir w) = true ->
  In f (dir w) ->
  unsafe_filename (name f) = false ->
  locked f = false ->
  let w' := snd (delete_image cfg (name f) w) in
  fst (delete_image cfg (name f) w) =
    Ok (BMessage ("Image " ++ name f ++ " deleted successfully"), 200%Z)
  /\ fst (get_image cfg (name f) w') = Ok (BError "Image not found", 404%Z)
  /\ fst (delete_image cfg (name f) w') =
     Ok (BError "Image not found", 404%Z)
  /\ (forall g, In g (dir w) -> name g <> name f -> In g (dir w'))
  /\ (allowed_file cfg (name f) = true ->
      total_images (summary cfg (dir w')) =
        (total_images (summary cfg (dir w)) - 1)%Z
      /\ total_size_bytes (summary cfg (dir w')) =
        (total_size_bytes (summary cfg (dir w)) - size f)%Z).
Proof.
  intros Hwf Hf Hsafe Hun w'. unfold w'.
  rewrite (delete_image_entry cfg w f Hwf Hf Hsafe), Hun. cbn [fst snd].
  set (w1 := World _ _ _).
  assert (Hout : ~ In (name f) (map name (dir w1))).
  { intros Hin. apply in_map_iff in Hin as [g [Hg Hin]].
    apply remove_file_In in Hin as [_ Hne]. contradiction. }
  destruct (get_delete_missing cfg w1 (name f)
              (wf_dir_name _ _ Hwf Hf) Hsafe Hout) as [Hget Hdel].
  split; [reflexivity|]. split; [now rewrite Hget|].
  split; [now rewrite Hdel|]. split.
  - intros g Hg Hne. now apply remove_file_In.
  - intros Himg. apply wf_dir_iff in Hwf as [_ Hnd].
    destruct (images_remove_image cfg _ f Hnd Hf Himg)
      as (l1 & l2 & H1 & H2).
    unfold summary, image_count. cbn [total_images total_size_bytes dir w1].
    rewrite H1, H2, !length_app, !sum_sizes_app. cbn [List.length].
    cbn [sum_sizes fold_right]. fold (sum_sizes l2). split; lia.
Qed.

Lemma delete_then_gone_witness :
  fst (get_image app_config "a.png"
         (snd (delete_image app_config "a.png" sample_world))) =
    Ok (BError "Image not found", 404%Z)
  /\ total_images (summary app_config
       (dir (snd (delete_image app_config "a.png" sample_world)))) = 1%Z.
Proof.
  assert (Hin : In (File "a.png" [x01; x02] 1 false) (dir sample_world))
    by (right; now left).
  destruct (delete_then_gone app_config sample_world
              (File "a.png" [x01; x02] 1 false) eq_refl Hin eq_refl eq_refl)
    as (_ & H1 & _ & _ & H2).
  split; [exact H1|]. destruct (H2 eq_refl) as [H _].
  cbn [name] in H. rewrite H. reflexivity.
Defined.

(** X13: when the operating system refuses the removal, [delete_image]
    answers 500 with "Failed to delete image: ..." carrying the system's
    message, logs the error, and the file stays in the folder. *)
Theorem delete_refused (cfg : config) (w : world) (f : file) :
  wf_dir (dir w) = true ->
  In f (dir w) ->
  unsafe_filename (name f) = false ->
  locked f = true ->
  delete_image cfg (name f) w =
  (Ok (BError ("Failed to delete image: [Errno 13] Permission denied: '"
               ++ Py.os_path_join (UPLOAD_FOLDER cfg) (name f) ++ "'"),
       500%Z),
   World (dir w)
         (logs w ++ [(ERROR,
            ("Error deleting image: [Errno 13] Permission denied: '"
             ++ Py.os_path_join (UPLOAD_FOLDER cfg) (name f) ++ "'")
            %string)])
         (trace w ++ [SysStat (image_path cfg f);
                      SysUnlink (image_path cfg f)])).
Proof.
  intros Hwf Hf Hsafe Hl.
  now rewrite (delete_image_entry cfg w f Hwf Hf Hsafe), Hl.
Qed.

Lemma delete_refused_witness :
  fst (delete_image app_config "a.png" locked_world) =
    Ok (BError
          "Failed to delete image: [Errno 13] Permission denied: 'uploads/a.png'",
        500%Z)
  /\ dir (snd (delete_image app_config "a.png" locked_world)) = locked_dir.
Proof.
  assert (Hin : In (File "a.png" [x00] 1 true) (dir locked_world))
    by now left.
  pose proof (delete_refused app_config locked_world
                (File "a.png" [x00] 1 true) eq_refl Hin eq_refl eq_refl)
    as H.
  cbn [name] in H. rewrite H. split; reflexivity.
Defined.

(** ** Handlers that only read *)

Section KeepsDir.

Lemma keeps_ret {A : Type} (a : A) : keeps_dir (ret a).
Proof. intros w. reflexivity. Qed.

Lemma keeps_raise {A : Type} (e : exn) : keeps_dir (@raise A e).
Proof. intros w. reflexivity. Qed.

Lemma keeps_bind {A B : Type} (m : M A) (k : A -> M B) :
  keeps_dir m -> (forall a, keeps_dir (k a)) -> keeps_dir (bind m k).
Proof.
  intros Hm Hk w. unfold bind. specialize (Hm w).
  destruct (m w) as [[a|e] w1]; cbn [snd] in *; [|exact Hm].
  now rewrite (Hk a w1).
Qed.

Lemma keeps_try {A : Type} (m : M A) (h : exn -> M A) :
  keeps_dir m -> (forall e, keeps_dir (h e)) -> keeps_dir (try_except m h).
Proof.
  intros Hm Hh w. unfold try_except. specialize (Hm w).
  destruct (m w) as [[a|e] w1]; cbn [snd] in *; [exact Hm|].
  now rewrite (Hh e w1).
Qed.

Lemma keeps_for_acc {A S : Type} (l : list A) (body : S -> A -> M S) :
  (forall acc x, keeps_dir (body acc x)) ->
  forall acc, keeps_dir (for_acc l body acc).
Proof.
  intros Hb. induction l as [|x l IH]; intros acc; cbn [for_acc].
  - apply keeps_ret.
  - apply keeps_bind; [apply Hb | intros a; apply IH].
Qed.

Lemma keeps_logger_error (msg : string) : keeps_dir (logger_error msg).
Proof. intros w. reflexivity. Qed.

Lemma keeps_listdir (folder : string) : keeps_dir (Os.listdir folder).
Proof. intros w. reflexivity. Qed.

Lemma keeps_stat (folder path : string) : keeps_dir (Os.stat folder path).
Proof.
  intros w. unfold Os.stat, bind, syscall_, get_dir, ret, raise.
  cbn [dir]. destruct (Os.resolve folder path) as [|n| |]; try reflexivity.
  now destruct (Os.find_file n (dir w)).
Qed.

Lemma keeps_getsize (folder path : string) :
  keeps_dir (Os.path_getsize folder path).
Proof.
  apply keeps_bind; [apply keeps_stat | intros a; apply keeps_ret].
Qed.

Lemma keeps_getmtime (folder path : string) :
  keeps_dir (Os.path_getmtime folder path).
Proof.
  apply keeps_bind; [apply keeps_stat | intros a; apply keeps_ret].
Qed.

Lemma keeps_exists (folder path : string) :
  keeps_dir (Os.path_exists folder path).
Proof.
  apply keeps_try; [|intros e; apply keeps_ret].
  apply keeps_bind; [apply keeps_stat | intros a; apply keeps_ret].
Qed.

Lemma keeps_read (folder path : string) : keeps_dir (Os.read folder path).
Proof.
  intros w. unfold Os.read, bind, syscall_, get_dir, ret, raise.
  cbn [dir]. destruct (Os.resolve folder path) as [|n| |]; try reflexivity.
  now destruct (Os.find_file n (dir w)).
Qed.

Lemma keeps_get_storage_info (cfg : config) :
  keeps_dir (get_storage_info cfg).
Proof.
  unfold get_storage_info.
  apply keeps_bind; [apply keeps_listdir | intros names].
  apply keeps_bind.
  - apply keeps_for_acc. intros [t c] x.
    destruct (allowed_file cfg x); [|apply keeps_ret].
    apply keeps_bind; [apply keeps_getsize | intros a; apply keeps_ret].
  - intros [t c]. apply keeps_ret.
Qed.

Lemma keeps_failure {A : Type} (a : string -> A) (p q : string) (e : exn) :
  keeps_dir (logger_error (p ++ str e)%string ;;;
             ret (a (q ++ str e)%string)).
Proof.
  apply keeps_bind; [apply keeps_logger_error | intros u; apply keeps_ret].
Qed.

Lemma keeps_home (cfg : config) : keeps_dir (home cfg).
Proof.
  unfold home. apply keeps_bind; [apply keeps_get_storage_info|].
  intros a. apply keeps_ret.
Qed.

Lemma keeps_health_check (cfg : config) (now_iso : string) :
  keeps_dir (health_check cfg now_iso).
Proof.
  unfold health_check. apply keeps_bind; [apply keeps_get_storage_info|].
  intros a. apply keeps_ret.
Qed.

Lemma keeps_storage_info (cfg : config) : keeps_dir (storage_info cfg).
Proof.
  unfold storage_info. apply keeps_try.
  - apply keeps_bind; [apply keeps_get_storage_info|].
    intros a. apply keeps_ret.
  - intros e. exact (keeps_failure (fun s => (BError s, 500%Z)) _ _ e).
Qed.

Lemma keeps_list_images (cfg : config) (isoformat : Z -> string) :
  keeps_dir (list_images cfg isoformat).
Proof.
  unfold list_images. apply keeps_try.
  - apply keeps_bind; [apply keeps_listdir | intros names].
    apply keeps_bind; [|intros a; apply keeps_ret].
    apply keeps_for_acc. intros acc x.
    destruct (allowed_file cfg x); [|apply keeps_ret].
    apply keeps_bind; [apply keeps_getsize | intros sz].
    apply keeps_bind; [apply keeps_getmtime | intros t; apply keeps_ret].
  - intros e. exact (keeps_failure (fun s => (BError s, 500%Z)) _ _ e).
Qed.

Lemma keeps_get_image (cfg : config) (filename : string) :
  keeps_dir (get_image cfg filename).
Proof.
  unfold get_image. apply keeps_try.
  - destruct (unsafe_filename filename); [apply keeps_ret|].
    apply keeps_bind; [apply keeps_exists | intros found].
    destruct found; cbn [negb]; [|apply keeps_ret].
    apply keeps_bind; [apply keeps_read | intros bs; apply keeps_ret].
  - intros e. exact (keeps_failure (fun s => (BError s, 500%Z)) _ _ e).
Qed.

End KeepsDir.

(** X14: the handlers that report ([home], [list_images], [get_image],
    [storage_info], [health_check]) and [get_storage_info] never change the
    upload folder, in any state and whatever they answer, also when they
    fail. *)
Theorem reading_handlers_keep_folder (cfg : config)
    (isoformat : Z -> string) (filename now_iso : string) (w : world) :
  dir (snd (get_storage_info cfg w)) = dir w
  /\ dir (snd (home cfg w)) = dir w
  /\ dir (snd (list_images cfg isoformat w)) = dir w
  /\ dir (snd (get_image cfg filename w)) = dir w
  /\ dir (snd (storage_info cfg w)) = dir w
  /\ dir (snd (health_check cfg now_iso w)) = dir w.
Proof.
  split; [apply keeps_get_storage_info|].
  split; [apply keeps_home|].
  split; [apply keeps_list_images|].
  split; [apply keeps_get_image|].
  split; [apply keeps_storage_info | apply keeps_health_check].
Qed.

(** X15: on a well-formed folder the three reporting handlers agree:
    [home], [storage_info] and [health_check] all answer 200 with the usage
    summary that [get_storage_info] computes for the folder, and
    [health_check] passes the time it was given through. *)
Theorem reports_agree (cfg : config) (now_iso : string) (w : world) :
  wf_dir (dir w) = true ->
  fst (storage_info cfg w) = Ok (BStorage (summary cfg (dir w)), 200%Z)
  /\ (exists b, fst (home cfg w) = Ok (b, 200%Z)
        /\ home_storage_info b = summary cfg (dir w))
  /\ (exists b, fst (health_check cfg now_iso w) = Ok (b, 200%Z)
        /\ health_storage_info b = summary cfg (dir w)
        /\ health_timestamp b = now_iso
        /\ health_status b = "healthy"%string).
Proof.
  intros Hwf. split; [|split].
  - unfold storage_info, try_except, bind.
    now rewrite (get_storage_info_spec cfg w Hwf).
  - unfold home, bind. rewrite (get_storage_info_spec cfg w Hwf).
    eexists. split; reflexivity.
  - unfold health_check, bind. rewrite (get_storage_info_spec cfg w Hwf).
    eexists. repeat split.
Qed.

Lemma reports_agree_witness :
  fst (storage_info (small_config 5) sample_world) =
  Ok (BStorage {| total_images := 2; total_size_bytes := 3;
                  max_images := 5; remaining_slots := 3 |}, 200%Z).
Proof.
  destruct (reports_agree (small_config 5) "2024-01-01T00:00:00"
              sample_world eq_refl) as [H _].
  rewrite H. reflexivity.
Defined.

(** ** The list of images *)

Section StringOrder.

Lemma string_compare_trans_le (a : string) :
  forall b c,
  String.compare a b <> Gt -> String.compare b c <> Gt ->
  String.compare a c <> Gt.
Proof.
  induction a as [|x a IH]; intros [|y b] [|z c]; cbn [String.compare];
    try congruence.
  unfold Ascii.compare.
  destruct (N.compare_spec (N_of_ascii x) (N_of_ascii y)) as [Hxy|Hxy|Hxy];
    destruct (N.compare_spec (N_of_ascii y) (N_of_ascii z)) as [Hyz|Hyz|Hyz];
    destruct (N.compare_spec (N_of_ascii x) (N_of_ascii z)) as [Hxz|Hxz|Hxz];
    try congruence; try lia.
  apply IH.
Qed.

Lemma string_leb_trans (a b c : string) :
  String.leb a b = true -> String.leb b c = true -> String.leb a c = true.
Proof.
  unfold String.leb. intros H1 H2.
  pose proof (string_compare_trans_le a b c) as H.
  destruct (String.compare a b); destruct (String.compare b c);
    destruct (String.compare a c); try reflexivity; try discriminate;
    exfalso; apply H; congruence.
Qed.

Lemma string_leb_total (a b : string) :
  String.leb a b = false -> String.leb b a = true.
Proof.
  intros H. destruct (String.leb_total a b) as [H'|H']; congruence.
Qed.

End StringOrder.

(** X16: on a well-formed folder [list_images] answers 200 with one entry
    for each stored image and no other (name, size, rendered modification
    time and URL [/image/<name>]), ordered so that no entry is followed by
    one with a greater rendered time, and with a count that equals the
    [total_images] of the usage summary; the folder is not changed. *)
Theorem list_images_complete_and_sorted (cfg : config)
    (isoformat : Z -> string) (w : world) :
  wf_dir (dir w) = true ->
  exists images w',
    list_images cfg isoformat w =
      (Ok (BImages images (Z.of_nat (List.length images)), 200%Z), w')
    /\ Permutation images
         (map (fun f => {| entry_filename := name f;
                           entry_size_bytes := size f;
                           entry_modified := isoformat (mtime f);
                           entry_url := ("/image/" ++ name f)%string |})
              (filter (fun f => allowed_file cfg (name f)) (dir w)))
    /\ StronglySorted newest_first images
    /\ Z.of_nat (List.length images) = total_images (summary cfg (dir w))
    /\ dir w' = dir w.
Proof.
  intros Hwf. rewrite (list_images_spec cfg isoformat w Hwf).
  assert (Hlen : Z.of_nat (List.length (listing cfg isoformat (dir w))) =
                 image_count cfg (dir w)).
  { unfold listing, sort_by_str_reverse, image_count.
    now rewrite stable_sort_length, length_map. }
  do 2 eexists. split; [rewrite Hlen; reflexivity|].
  split; [apply stable_sort_perm|]. split; [|split].
  - unfold listing, sort_by_str_reverse, newest_first.
    apply (stable_sort_sorted _
             (fun x y => String.leb (entry_modified y) (entry_modified x))).
    + intros x y. apply string_leb_total.
    + intros x y z H1 H2. exact (string_leb_trans _ _ _ H2 H1).
  - exact Hlen.
  - reflexivity.
Qed.

Lemma list_images_complete_and_sorted_witness :
  exists images w',
    list_images (small_config 5) Py.str_int sample_world =
      (Ok (BImages images (Z.of_nat (List.length images)), 200%Z), w')
    /\ List.length images = 2%nat.
Proof.
  destruct (list_images_complete_and_sorted (small_config 5) Py.str_int
              sample_world eq_refl) as (images & w' & H & _ & _ & Hn & _).
  exists images, w'. split; [exact H|].
  apply Nat2Z.inj. rewrite Hn. reflexivity.
Defined.

(** ** Cleanup and capacity *)

(** X17: when the folder is within the limit, [cleanup_images] answers 200
    with the usage summary of the untouched folder: nothing is removed and
    nothing is logged; the only file-system calls are the two scans. *)
Theorem cleanup_within_bounds_is_a_scan (cfg : config) (w : world) :
  wf_dir (dir w) = true ->
  (image_count cfg (dir w) <= MAX_IMAGES cfg)%Z ->
  cleanup_images cfg w =
  (Ok (BCleanup "Cleanup completed" (summary cfg (dir w)), 200%Z),
   add_trace w (scan_trace cfg (dir w) ++ scan_trace cfg (dir w))).
Proof.
  intros Hwf Hle. unfold cleanup_images, try_except. unfold bind at 1.
  rewrite (cleanup_within_limit cfg w Hwf Hle). unfold bind at 1.
  rewrite get_storage_info_spec by exact Hwf.
  rewrite add_trace_app. reflexivity.
Qed.

Lemma cleanup_within_bounds_is_a_scan_witness :
  dir (snd (cleanup_images (small_config 2) sample_world)) = sample_dir
  /\ logs (snd (cleanup_images (small_config 2) sample_world)) = [].
Proof.
  assert (Hle : (image_count (small_config 2) (dir sample_world)
                 <= MAX_IMAGES (small_config 2))%Z)
    by (vm_compute; discriminate).
  rewrite (cleanup_within_bounds_is_a_scan (small_config 2) sample_world
             eq_refl Hle).
  split; reflexivity.
Defined.

(** X18: [cleanup_old_images] removes images only, and never more than the
    excess: with a non-negative limit the number of images left is between
    [min(count, MAX_IMAGES)] and the count before, every file left was there
    before, and every file that is not an image is still there; this holds
    also when a removal fails. *)
Theorem cleanup_removes_excess_only (cfg : config) (w : world) :
  wf_dir (dir w) = true ->
  (0 <= MAX_IMAGES cfg)%Z ->
  let d := dir w in
  let d' := dir (snd (cleanup_old_images cfg w)) in
  (Z.min (image_count cfg d) (MAX_IMAGES cfg) <= image_count cfg d')%Z
  /\ (image_count cfg d' <= image_count cfg d)%Z
  /\ (forall f, In f d' -> In f d)
  /\ (forall f, In f d -> allowed_file cfg (name f) = false -> In f d')
  /\ wf_dir d' = true.
Proof.
  intros Hwf Hlim d d'. unfold d'.
  rewrite (cleanup_old_images_spec cfg w Hwf). cbn [snd dir]. fold d.
  set (E := evicted cfg d).
  pose proof (oldest_first_without cfg d E _ Hwf (evicted_prefix cfg d))
    as Hs. fold E in Hs.
  assert (Hc : image_count cfg (without E d) =
               (image_count cfg d - Z.of_nat (List.length E))%Z).
  { rewrite <- !oldest_first_length, Hs.
    rewrite (evicted_prefix cfg d) at 2. fold E.
    rewrite length_app. lia. }
  assert (HE : (Z.of_nat (List.length E)
                <= Z.max 0 (image_count cfg d - MAX_IMAGES cfg))%Z).
  { unfold E, evicted.
    pose proof (unlocked_prefix_length (candidates cfg d)) as H1.
    assert (H2 : (Z.of_nat (List.length (candidates cfg d))
                  <= Z.max 0 (image_count cfg d - MAX_IMAGES cfg))%Z).
    { unfold candidates.
      destruct (image_count cfg d >? MAX_IMAGES cfg)%Z; [|simpl; lia].
      rewrite length_firstn. lia. }
    lia. }
  pose proof (image_count_nonneg cfg d) as Hpos.
  split; [lia|]. split; [lia|]. split; [|split].
  - intros f Hf. now apply without_In in Hf.
  - intros f Hf Hext. apply without_In. split; [exact Hf|].
    intros Hin. apply in_map_iff in Hin as [g [Hg Hin]].
    apply evicted_images in Hin. congruence.
  - now apply wf_dir_without.
Qed.

Lemma cleanup_removes_excess_only_witness :
  (Z.min (image_count (small_config 1) (dir locked_world))
         (MAX_IMAGES (small_config 1))
   <= image_count (small_config 1)
        (dir (snd (cleanup_old_images (small_config 1) locked_world))))%Z.
Proof.
  assert (Hlim : (0 <= MAX_IMAGES (small_config 1))%Z) by (simpl; lia).
  destruct (cleanup_removes_excess_only (small_config 1) locked_world
              eq_refl Hlim) as [H _].
  exact H.
Defined.

(** X19: a successful save under a name not yet in the folder takes exactly
    one slot: with [png] an allowed extension, the usage summary after the
    save counts one image more, the size of the written PNG more, and one
    remaining slot less than before. *)
Theorem save_takes_one_slot {pil : PIL} (cfg : config) (ev : env)
    (image_data : json_value) (upl : option upload) (bs : list byte)
    (image : Image) (w : world) :
  wf_dir (dir w) = true ->
  (image_count cfg (dir w) < MAX_IMAGES cfg)%Z ->
  decode_image_data image_data = Ok bs ->
  Image_open bs = Some image ->
  wf_name (generate_filename ev) = true ->
  ~ In (generate_filename ev) (map name (dir w)) ->
  In "png"%string (ALLOWED_EXTENSIONS cfg) ->
  exists b w' info,
    save_image cfg ev (Request (Some image_data) upl) w = (Ok (b, 201%Z), w')
    /\ fst (get_storage_info cfg w') = Ok info
    /\ total_images info = (total_images (summary cfg (dir w)) + 1)%Z
    /\ total_size_bytes info =
       (total_size_bytes (summary cfg (dir w))
        + Z.of_nat (List.length (stored_png image)))%Z
    /\ remaining_slots info =
       (remaining_slots (summary cfg (dir w)) - 1)%Z.
Proof.
  intros Hwf Hroom Hdec Himg Hn Hfresh Hpng.
  assert (Hun : forall f, Os.find_file (generate_filename ev) (dir w)
                          = Some f -> locked f = false).
  { intros f Hf. apply find_file_None in Hfresh. congruence. }
  rewrite (save_image_past_check cfg ev _ w Hwf Hroom).
  unfold try_except. cbv zeta. cbn [json_imageData].
  destruct (save_image_stores cfg ev image_data bs image
              (add_trace w (scan_trace cfg (dir w)))
              Hwf Hroom Hdec Himg Hn Hun) as (w' & H & Hd & _).
  rewrite H. cbn [dir add_trace] in Hd.
  set (f := File (generate_filename ev) (stored_png image) (clock ev) false)
    in *.
  rewrite (write_file_new f (dir w) Hfresh) in Hd.
  assert (Hwf' : wf_dir (dir w') = true).
  { rewrite Hd, <- (write_file_new f (dir w) Hfresh).
    now apply wf_dir_write. }
  assert (Hallowed : is_image cfg f = true).
  { unfold is_image, f. cbn [name]. rewrite generate_filename_shape.
    rewrite allowed_file_stem_ext by reflexivity. now apply mem_iff. }
  assert (Himgs : images cfg (dir w') = images cfg (dir w) ++ [f]).
  { rewrite Hd. unfold images. rewrite filter_app. cbn [filter].
    now rewrite Hallowed. }
  do 3 eexists. split; [reflexivity|].
  rewrite (get_storage_info_spec cfg w' Hwf'). split; [reflexivity|].
  unfold summary, image_count.
  cbn [total_images total_size_bytes remaining_slots].
  rewrite Himgs, length_app, sum_sizes_app. cbn [List.length].
  unfold image_count in Hroom.
  assert (Hsz : sum_sizes [f] = Z.of_nat (List.length (stored_png image))).
  { unfold sum_sizes, size, f. cbn [fold_right content]. lia. }
  rewrite Hsz. repeat split; lia.
Qed.

Lemma save_takes_one_slot_witness :
  exists b w' info,
    @save_image raw_images (small_config 3) sample_env
      (Request (Some (JString "QUJD")) None) sample_world =
      (Ok (b, 201%Z), w')
    /\ fst (get_storage_info (small_config 3) w') = Ok info
    /\ total_images info = 3%Z
    /\ remaining_slots info = 0%Z.
Proof.
  assert (Hroom : (image_count (small_config 3) (dir sample_world)
                   < MAX_IMAGES (small_config 3))%Z) by reflexivity.
  assert (Hfresh : ~ In (generate_filename sample_env)
                        (map name (dir sample_world))).
  { simpl. intros [H|[H|[H|[]]]]; discriminate H. }
  assert (Hpng : In "png"%string (ALLOWED_EXTENSIONS (small_config 3)))
    by now left.
  destruct (@save_takes_one_slot raw_images (small_config 3) sample_env
              (JString "QUJD") None [x41; x42; x43] [x41; x42; x43]
              sample_world eq_refl Hroom eq_refl eq_refl eq_refl Hfresh Hpng)
    as (b & w' & info & H1 & H2 & H3 & _ & H5).
  exists b, w', info. repeat split; assumption.
Defined.

(** X20: a save whose generated name is already borne by a file that can be
    overwritten replaces that file in place, without a warning: the answer
    is 201, the entry names and the number of images are as before, and the
    entry now holds the new PNG and the time of the save. *)
Theorem save_overwrites_same_name {pil : PIL} (cfg : config) (ev : env)
    (image_data : json_value) (upl : option upload) (bs : list byte)
    (image : Image) (old : file) (w : world) :
  wf_dir (dir w) = true ->
  (image_count cfg (dir w) < MAX_IMAGES cfg)%Z ->
  decode_image_data image_data = Ok bs ->
  Image_open bs = Some image ->
  In old (dir w) ->
  name old = generate_filename ev ->
  locked old = false ->
  exists b w',
    save_image cfg ev (Request (Some image_data) upl) w = (Ok (b, 201%Z), w')
    /\ map name (dir w') = map name (dir w)
    /\ image_count cfg (dir w') = image_count cfg (dir w)
    /\ Os.find_file (generate_filename ev) (dir w') =
       Some (File (generate_filename ev) (stored_png image) (clock ev)
                  false).
Proof.
  intros Hwf Hroom Hdec Himg Hold Hname Hunl.
  assert (Hn : wf_name (generate_filename ev) = true)
    by (rewrite <- Hname; exact (wf_dir_name _ _ Hwf Hold)).
  assert (Hfind : Os.find_file (generate_filename ev) (dir w) = Some old).
  { rewrite <- Hname. apply find_file_In; [|exact Hold].
    now apply wf_dir_iff in Hwf. }
  assert (Hun : forall f, Os.find_file (generate_filename ev) (dir w)
                          = Some f -> locked f = false).
  { intros f Hf. rewrite Hfind in Hf. now injection Hf as <-. }
  rewrite (save_image_past_check cfg ev _ w Hwf Hroom).
  unfold try_except. cbv zeta. cbn [json_imageData].
  destruct (save_image_stores cfg ev image_data bs image
              (add_trace w (scan_trace cfg (dir w)))
              Hwf Hroom Hdec Himg Hn Hun) as (w' & H & Hd & _).
  rewrite H. cbn [dir add_trace] in Hd.
  assert (Hnames : map name (dir w') = map name (dir w)).
  { rewrite Hd. apply write_file_names. cbn [name]. rewrite <- Hname.
    now apply in_map. }
  do 2 eexists. split; [reflexivity|]. split; [exact Hnames|]. split.
  - now rewrite !image_count_names, Hnames.
  - rewrite Hd. apply find_file_write.
Qed.

Lemma save_overwrites_same_name_witness :
  exists b w',
    @save_image raw_images (small_config 5) sample_env
      (Request (Some (JString "QUJD")) None)
      (World [File "nexus_edit_20240101_000000_deadbeef.png" [x00] 1 false]
             [] []) = (Ok (b, 201%Z), w')
    /\ map name (dir w') = ["nexus_edit_20240101_000000_deadbeef.png"%string].
Proof.
  assert (Hroom : (image_count (small_config 5)
                     [File "nexus_edit_20240101_000000_deadbeef.png"
                           [x00] 1 false]
                   < MAX_IMAGES (small_config 5))%Z) by reflexivity.
  destruct (@save_overwrites_same_name raw_images (small_config 5)
              sample_env (JString "QUJD") None [x41; x42; x43]
              [x41; x42; x43]
              (File "nexus_edit_20240101_000000_deadbeef.png" [x00] 1 false)
              (World [File "nexus_edit_20240101_000000_deadbeef.png"
                           [x00] 1 false] [] [])
              eq_refl Hroom eq_refl eq_refl (or_introl eq_refl)
              eq_refl eq_refl) as (b & w' & H1 & H2 & _).
  exists b, w'. split; [exact H1 | exact H2].
Defined.
